(** * realtime-collab-kit: the presence relay and its client session

    A shallow embedding of the relay's storage adapters
    ([adapters/memory.ts], [adapters/redis.ts]), of the relay server
    ([src/server.ts]) and of the client session ([client.ts]), followed by
    the properties of the specification checked against them.

    Modelling conventions.
    - A JavaScript [Map] or [Set] whose iteration order the program observes
      ([room.values()], [connections.values()], [callbacks.forEach]) is an
      insertion-ordered list; a [Map] that is only probed by key is a [gmap].
    - Handlers are [async]; the in-process adapter completes every call
      without suspending on I/O, and one handler is run to completion before
      the next event is taken.
    - JavaScript numbers (times, delays, coordinates) are integers. *)

From stdpp Require Import base decidable option list strings gmap.
From Stdlib Require Import ZArith Lia.

Open Scope Z_scope.
Open Scope string_scope.
Open Scope list_scope.

(** ** Insertion-ordered maps and sets (JavaScript [Map] and [Set]) *)

Section OrderedContainers.
Context {K V : Type} `{EqDecision K}.

(** [Map.prototype.get] *)
Fixpoint oget (k : K) (m : list (K * V)) : option V :=
  match m with
  | [] => None
  | (k', v) :: m' => if decide (k = k') then Some v else oget k m'
  end.

(** [Map.prototype.has] *)
Definition ohas (k : K) (m : list (K * V)) : bool :=
  match oget k m with Some _ => true | None => false end.

(** [Map.prototype.set]: an existing key keeps its position, a new key
    goes last. *)
Fixpoint oset (k : K) (v : V) (m : list (K * V)) : list (K * V) :=
  match m with
  | [] => [(k, v)]
  | (k', v') :: m' =>
      if decide (k = k') then (k, v) :: m' else (k', v') :: oset k v m'
  end.

(** [Map.prototype.delete] *)
Fixpoint odelete (k : K) (m : list (K * V)) : list (K * V) :=
  match m with
  | [] => []
  | (k', v') :: m' =>
      if decide (k = k') then odelete k m' else (k', v') :: odelete k m'
  end.

(** [Array.from(map.values())] *)
Definition ovalues (m : list (K * V)) : list V := map snd m.

(** [map.size] *)
Definition osize (m : list (K * V)) : nat := length m.

(** Keys occur once, as in any [Map] built with [set] and [delete]. *)
Definition okeys (m : list (K * V)) : list K := map fst m.

(** [Set.prototype.add] *)
Definition sadd (k : K) (s : list K) : list K :=
  if decide (k ∈ s) then s else s ++ [k].

(** [Set.prototype.delete] *)
Fixpoint sdelete (k : K) (s : list K) : list K :=
  match s with
  | [] => []
  | k' :: s' => if decide (k = k') then sdelete k s' else k' :: sdelete k s'
  end.
End OrderedContainers.

(** ** Protocol types ([types.ts]) *)

Record Point := { px : Z; py : Z }.

(** [UserMetadata]: name, avatar, color and any further keys, passed through
    opaquely. *)
Definition UserMetadata := list (string * string).

Record User := {
  u_id : string;
  u_roomId : string;
  u_cursor : option Point;
  u_typing : bool;
  u_metadata : option UserMetadata
}.

(** [Partial<User>]: every field may be absent. *)
Record PartialUser := {
  p_id : option string;
  p_roomId : option string;
  p_cursor : option (option Point);
  p_typing : option bool;
  p_metadata : option (option UserMetadata)
}.

Definition no_updates : PartialUser :=
  {| p_id := None; p_roomId := None; p_cursor := None; p_typing := None;
     p_metadata := None |}.

(** [Object.assign(user, updates)] *)
Definition assign (user : User) (updates : PartialUser) : User :=
  {| u_id := default (u_id user) (p_id updates);
     u_roomId := default (u_roomId user) (p_roomId updates);
     u_cursor := default (u_cursor user) (p_cursor updates);
     u_typing := default (u_typing user) (p_typing updates);
     u_metadata := default (u_metadata user) (p_metadata updates) |}.

Inductive MessageType :=
  | cursor_t | typing_t | join_t | leave_t | presence_t | update_t
  | custom_t | ping_t | pong_t.

Record ClientMessage := {
  m_type : MessageType;
  m_roomId : option string;
  m_position : option Point;
  m_isTyping : option bool;
  m_token : option string;
  m_metadata : option UserMetadata;
  m_event : option string;
  m_data : option string
}.

Inductive ServerMessageType :=
  | s_presence | s_update | s_error | s_custom | s_ping | s_pong
  | s_connected | s_disconnected.

(** [ServerMessage], with the internal [_excludeUserId] key that
    [broadcastToRoom] spreads into it. *)
Record ServerMessage := {
  s_type : ServerMessageType;
  s_users : option (list User);
  s_user : option User;
  s_error_text : option string;
  s_event : option string;
  s_data : option string;
  _excludeUserId : option string
}.

Definition server_message (t : ServerMessageType) : ServerMessage :=
  {| s_type := t; s_users := None; s_user := None; s_error_text := None;
     s_event := None; s_data := None; _excludeUserId := None |}.

#[global] Instance Point_eq_dec : EqDecision Point.
Proof. solve_decision. Defined.
#[global] Instance User_eq_dec : EqDecision User.
Proof. solve_decision. Defined.
#[global] Instance ServerMessageType_eq_dec : EqDecision ServerMessageType.
Proof. solve_decision. Defined.
#[global] Instance ServerMessage_eq_dec : EqDecision ServerMessage.
Proof. solve_decision. Defined.

(** [WebSocket.readyState] *)
Inductive ReadyState := CONNECTING | OPEN | CLOSING | CLOSED.

#[global] Instance ReadyState_eq_dec : EqDecision ReadyState.
Proof. solve_decision. Defined.

(** Truthiness of an optional string: present and not empty. *)
Definition truthy (s : option string) : option string :=
  match s with
  | Some v => if decide (v = "") then None else Some v
  | None => None
  end.

(** What a call that may throw leaves behind. *)
Inductive Completion (W : Type) :=
  | Returned (w : W)
  | Threw (e : string) (w : W).
Arguments Returned {W} w.
Arguments Threw {W} e w.

(** ** The in-process adapter ([adapters/memory.ts]) *)

Module MemoryAdapter.
Section WithCallbacks.
Context {Callback : Type} `{EqDecision Callback}.

Record t := {
  rooms : gmap string (list (string * User));
  subscribers : gmap string (list Callback)
}.

Definition empty : t := {| rooms := ∅; subscribers := ∅ |}.

Definition joinRoom (roomId userId : string)
    (metadata : option UserMetadata) (a : t) : t :=
  let rooms1 :=
    match rooms a !! roomId with
    | Some _ => rooms a
    | None => <[roomId := []]> (rooms a)
    end in
  let room := default [] (rooms1 !! roomId) in
  if ohas userId room then {| rooms := rooms1; subscribers := subscribers a |}
  else
    let user := {| u_id := userId; u_roomId := roomId; u_cursor := None;
                   u_typing := false; u_metadata := metadata |} in
    {| rooms := <[roomId := oset userId user room]> rooms1;
       subscribers := subscribers a |}.

Definition leaveRoom (roomId userId : string) (a : t) : t :=
  match rooms a !! roomId with
  | Some room =>
      let room' := odelete userId room in
      if decide (osize room' = 0%nat)
      then {| rooms := delete roomId (rooms a); subscribers := subscribers a |}
      else {| rooms := <[roomId := room']> (rooms a);
              subscribers := subscribers a |}
  | None => a
  end.

Definition updateUser (roomId userId : string) (updates : PartialUser)
    (a : t) : t :=
  match rooms a !! roomId with
  | Some room =>
      match oget userId room with
      | Some user =>
          {| rooms := <[roomId := oset userId (assign user updates) room]>
                        (rooms a);
             subscribers := subscribers a |}
      | None => a
      end
  | None => a
  end.

Definition getUsers (roomId : string) (a : t) : list User :=
  match rooms a !! roomId with
  | Some room => ovalues room
  | None => []
  end.

(** The [User] that a room holds for an identity: [rooms.get(roomId)] then
    [room.get(userId)]. *)
Definition entry (roomId userId : string) (a : t) : option User :=
  rooms a !! roomId ≫= oget userId.

(** Whether an identity is a member of a room. *)
Definition member (roomId userId : string) (a : t) : bool :=
  bool_decide (is_Some (entry roomId userId a)).

Definition subscribe (roomId : string) (callback : Callback) (a : t) : t :=
  let subs1 :=
    match subscribers a !! roomId with
    | Some _ => subscribers a
    | None => <[roomId := []]> (subscribers a)
    end in
  {| rooms := rooms a;
     subscribers :=
       <[roomId := sadd callback (default [] (subs1 !! roomId))]> subs1 |}.

Definition unsubscribe (roomId : string) (callback : Callback) (a : t) : t :=
  match subscribers a !! roomId with
  | Some callbacks =>
      let callbacks' := sdelete callback callbacks in
      if decide (length callbacks' = 0%nat)
      then {| rooms := rooms a; subscribers := delete roomId (subscribers a) |}
      else {| rooms := rooms a;
              subscribers := <[roomId := callbacks']> (subscribers a) |}
  | None => a
  end.

(** [callbacks.forEach(callback => callback(message))]: the callbacks run in
    insertion order against whatever they act on ([W]); an exception leaves
    the loop. Callbacks do not call back into the adapter. *)
Section Broadcast.
Context {W : Type} (invoke : Callback → ServerMessage → W → Completion W).

Fixpoint forEach (callbacks : list Callback) (message : ServerMessage)
    (w : W) : Completion W :=
  match callbacks with
  | [] => Returned w
  | callback :: rest =>
      match invoke callback message w with
      | Returned w' => forEach rest message w'
      | Threw e w' => Threw e w'
      end
  end.

Definition broadcast (roomId : string) (message : ServerMessage) (a : t)
    (w : W) : Completion W :=
  match subscribers a !! roomId with
  | Some callbacks => forEach callbacks message w
  | None => Returned w
  end.
End Broadcast.
End WithCallbacks.
Arguments t : clear implicits.
End MemoryAdapter.


(** ** The distributed adapter's store operations ([adapters/redis.ts])

    The shared store holds hashes and sets under string keys. A hash field
    holds the [User] that its JSON text encodes ([JSON.parse] after
    [JSON.stringify] gives the record back); a key whose hash or set becomes
    empty no longer exists. The publish/subscribe side crosses processes and
    is left out. *)

Module RedisAdapter.

Record t := {
  hashes : gmap string (gmap string User);
  sets : gmap string (gset string)
}.

Definition empty : t := {| hashes := ∅; sets := ∅ |}.

Definition users_key (roomId : string) : string := "room:" +:+ roomId +:+ ":users".
Definition members_key (roomId : string) : string :=
  "room:" +:+ roomId +:+ ":members".

Definition hget (key field : string) (db : t) : option User :=
  hashes db !! key ≫= λ h, h !! field.

Definition hset (key field : string) (value : User) (db : t) : t :=
  {| hashes := <[key := <[field := value]> (default ∅ (hashes db !! key))]>
                 (hashes db);
     sets := sets db |}.

Definition hdel (key field : string) (db : t) : t :=
  match hashes db !! key with
  | Some h =>
      let h' := delete field h in
      {| hashes := if decide (h' = ∅) then delete key (hashes db)
                   else <[key := h']> (hashes db);
         sets := sets db |}
  | None => db
  end.

Definition sadd (key member : string) (db : t) : t :=
  {| hashes := hashes db;
     sets := <[key := {[member]} ∪ default ∅ (sets db !! key)]> (sets db) |}.

Definition srem (key member : string) (db : t) : t :=
  match sets db !! key with
  | Some s =>
      let s' := s ∖ {[member]} in
      {| hashes := hashes db;
         sets := if decide (s' = ∅) then delete key (sets db)
                 else <[key := s']> (sets db) |}
  | None => db
  end.

Definition smembers (key : string) (db : t) : list string :=
  elements (default ∅ (sets db !! key)).

Definition hmget (key : string) (fields : list string) (db : t)
    : list (option User) :=
  map (λ field, hget key field db) fields.

Definition joinRoom (roomId userId : string)
    (metadata : option UserMetadata) (db : t) : t :=
  let user := {| u_id := userId; u_roomId := roomId; u_cursor := None;
                 u_typing := false; u_metadata := metadata |} in
  sadd (members_key roomId) userId (hset (users_key roomId) userId user db).

Definition leaveRoom (roomId userId : string) (db : t) : t :=
  srem (members_key roomId) userId (hdel (users_key roomId) userId db).

Definition updateUser (roomId userId : string) (updates : PartialUser)
    (db : t) : t :=
  match hget (users_key roomId) userId db with
  | Some user => hset (users_key roomId) userId (assign user updates) db
  | None => db
  end.

Definition getUsers (roomId : string) (db : t) : list User :=
  let members := smembers (members_key roomId) db in
  if decide (length members = 0%nat) then []
  else omap id (hmget (users_key roomId) members db).

(** Whether the store knows an identity in a room: it is listed in the
    members set or has a field in the users hash. *)
Definition member (roomId userId : string) (db : t) : bool :=
  bool_decide (userId ∈ default ∅ (sets db !! members_key roomId)
               ∨ is_Some (hget (users_key roomId) userId db)).

End RedisAdapter.


(** ** The distributed adapter's subscriptions ([adapters/redis.ts])

    One process of the relay: its [subscribers] and the channels that its
    [sub] connection is subscribed to in the shared store. A message
    published to a channel comes back to every process subscribed to it as a
    [message] event; its text is the message that it encodes. *)

Module RedisSubscriber.

(** [s.slice(n)] *)
Fixpoint slice (n : nat) (s : string) : string :=
  match n, s with
  | O, _ => s
  | S n', String _ s' => slice n' s'
  | S _, EmptyString => EmptyString
  end.

(** [s.replace(pattern, replacement)] for a string [pattern] and a
    [replacement] without dollar signs: the first occurrence is replaced. *)
Fixpoint replace (pattern replacement s : string) : string :=
  if String.prefix pattern s
  then replacement +:+ slice (String.length pattern) s
  else match s with
       | EmptyString => EmptyString
       | String c s' => String c (replace pattern replacement s')
       end.

(** The channel of a room. *)
Definition channel (roomId : string) : string := "room:" +:+ roomId.

Section WithCallbacks.
Context {Callback : Type} `{EqDecision Callback}.

Record t := {
  subscribers : gmap string (list Callback);
  channels : gset string
}.

Definition empty : t := {| subscribers := ∅; channels := ∅ |}.

Definition subscribe (roomId : string) (callback : Callback) (a : t) : t :=
  let a1 :=
    match subscribers a !! roomId with
    | Some _ => a
    | None =>
        {| subscribers := <[roomId := []]> (subscribers a);
           channels := {[channel roomId]} ∪ channels a |}
    end in
  {| subscribers :=
       <[roomId := sadd callback (default [] (subscribers a1 !! roomId))]>
         (subscribers a1);
     channels := channels a1 |}.

Definition unsubscribe (roomId : string) (callback : Callback) (a : t) : t :=
  match subscribers a !! roomId with
  | Some callbacks =>
      let callbacks' := sdelete callback callbacks in
      if decide (length callbacks' = 0%nat)
      then {| subscribers := delete roomId (subscribers a);
              channels := channels a ∖ {[channel roomId]} |}
      else {| subscribers := <[roomId := callbacks']> (subscribers a);
              channels := channels a |}
  | None => a
  end.

Section Delivery.
Context {W : Type} (invoke : Callback → ServerMessage → W → Completion W).

(** The handler of the [message] event of the [sub] connection. *)
Definition on_message (channel : string) (data : ServerMessage) (a : t)
    (w : W) : Completion W :=
  let roomId := replace "room:" "" channel in
  match subscribers a !! roomId with
  | Some callbacks => MemoryAdapter.forEach invoke callbacks data w
  | None => Returned w
  end.

(** What a message published to a channel does in this process: the
    [message] event, when the [sub] connection is subscribed to the
    channel. *)
Definition published (channel : string) (data : ServerMessage) (a : t)
    (w : W) : Completion W :=
  if decide (channel ∈ channels a) then on_message channel data a w
  else Returned w.
End Delivery.
End WithCallbacks.
Arguments t : clear implicits.
End RedisSubscriber.


(** ** The relay server ([src/server.ts], with the in-process adapter) *)

Module Server.

(** A transport connection is known by its handle. *)
Definition WebSocket := nat.
Bind Scope nat_scope with WebSocket.

Record ClientConnection := {
  c_ws : WebSocket;
  c_userId : string;
  c_roomId : string;
  c_metadata : option UserMetadata
}.

(** The closure that [subscribeToRoom] creates: its identity and the
    [roomId] it captures. *)
Record Callback := { cb_id : nat; cb_room : string }.

#[global] Instance Callback_eq_dec : EqDecision Callback.
Proof. solve_decision. Defined.

(** [AuthResult], and what calling [auth.verifyToken] comes to: a result, or
    an exception (with its message when it is an [Error]). *)
Record AuthResult := {
  a_userId : string;
  a_metadata : option UserMetadata;
  a_error : option string
}.

Inductive AuthOutcome :=
  | AuthReturned (authResult : AuthResult)
  | AuthThrew (message : option string).

Definition AuthConfig := string → AuthOutcome.

(** The calls made on the adapter, in order. *)
Inductive AdapterCall :=
  | JoinRoom (roomId userId : string) (metadata : option UserMetadata)
  | LeaveRoom (roomId userId : string)
  | UpdateUser (roomId userId : string) (updates : PartialUser)
  | GetUsers (roomId : string)
  | Broadcast (roomId : string) (message : ServerMessage)
  | Subscribe (roomId : string) (callback : Callback)
  | Unsubscribe (roomId : string) (callback : Callback).

(** The state of one server: [connections], [roomSubscriptions], the
    adapter, the ready state of each accepted socket, and what the server has
    done so far: the [ws.send] calls ([outbox], oldest first) and the adapter
    calls ([calls]). The [connection] variable of a socket's handler is the
    object stored in [connections] under that socket. *)
Record ServerState := {
  connections : list (WebSocket * ClientConnection);
  roomSubscriptions : gmap string Callback;
  adapter : MemoryAdapter.t Callback;
  sockets : gmap WebSocket ReadyState;
  callbacks_made : nat;
  outbox : list (WebSocket * ServerMessage);
  calls : list AdapterCall
}.

Definition initial : ServerState :=
  {| connections := []; roomSubscriptions := ∅;
     adapter := MemoryAdapter.empty; sockets := ∅; callbacks_made := 0;
     outbox := []; calls := [] |}.

Definition with_connections (f : list (WebSocket * ClientConnection) →
    list (WebSocket * ClientConnection)) (st : ServerState) : ServerState :=
  {| connections := f (connections st);
     roomSubscriptions := roomSubscriptions st; adapter := adapter st;
     sockets := sockets st; callbacks_made := callbacks_made st;
     outbox := outbox st; calls := calls st |}.

Definition with_roomSubscriptions (f : gmap string Callback →
    gmap string Callback) (st : ServerState) : ServerState :=
  {| connections := connections st;
     roomSubscriptions := f (roomSubscriptions st); adapter := adapter st;
     sockets := sockets st; callbacks_made := callbacks_made st;
     outbox := outbox st; calls := calls st |}.

Definition with_adapter (f : MemoryAdapter.t Callback →
    MemoryAdapter.t Callback) (st : ServerState) : ServerState :=
  {| connections := connections st;
     roomSubscriptions := roomSubscriptions st; adapter := f (adapter st);
     sockets := sockets st; callbacks_made := callbacks_made st;
     outbox := outbox st; calls := calls st |}.

Definition with_sockets (f : gmap WebSocket ReadyState →
    gmap WebSocket ReadyState) (st : ServerState) : ServerState :=
  {| connections := connections st;
     roomSubscriptions := roomSubscriptions st; adapter := adapter st;
     sockets := f (sockets st); callbacks_made := callbacks_made st;
     outbox := outbox st; calls := calls st |}.

Definition with_callbacks_made (n : nat) (st : ServerState) : ServerState :=
  {| connections := connections st;
     roomSubscriptions := roomSubscriptions st; adapter := adapter st;
     sockets := sockets st; callbacks_made := n;
     outbox := outbox st; calls := calls st |}.

Definition with_outbox (f : list (WebSocket * ServerMessage) →
    list (WebSocket * ServerMessage)) (st : ServerState) : ServerState :=
  {| connections := connections st;
     roomSubscriptions := roomSubscriptions st; adapter := adapter st;
     sockets := sockets st; callbacks_made := callbacks_made st;
     outbox := f (outbox st); calls := calls st |}.

Definition with_calls (f : list AdapterCall → list AdapterCall)
    (st : ServerState) : ServerState :=
  {| connections := connections st;
     roomSubscriptions := roomSubscriptions st; adapter := adapter st;
     sockets := sockets st; callbacks_made := callbacks_made st;
     outbox := outbox st; calls := f (calls st) |}.

(** Handlers thread the server state. *)
Definition Srv (A : Type) : Type := ServerState → A * ServerState.

#[global] Instance Srv_ret : MRet Srv := λ A a st, (a, st).
#[global] Instance Srv_bind : MBind Srv :=
  λ A B f m st, let '(a, st') := m st in f a st'.

Definition modify (f : ServerState → ServerState) : Srv unit :=
  λ st, (tt, f st).

Definition exec {A} (m : Srv A) (st : ServerState) : ServerState := (m st).2.

(** [ws.readyState] *)
Definition readyState (ws : WebSocket) (st : ServerState) : ReadyState :=
  default CLOSED (sockets st !! ws).

(** [ws.send(JSON.stringify(message))] *)
Definition ws_send (ws : WebSocket) (message : ServerMessage) : Srv unit :=
  modify (with_outbox (λ o, o ++ [(ws, message)])).

Definition presence (users : list User) : ServerMessage :=
  {| s_type := s_presence; s_users := Some users; s_user := None;
     s_error_text := None; s_event := None; s_data := None;
     _excludeUserId := None |}.

Definition update (user : User) : ServerMessage :=
  {| s_type := s_update; s_users := None; s_user := Some user;
     s_error_text := None; s_event := None; s_data := None;
     _excludeUserId := None |}.

Definition error (text : string) : ServerMessage :=
  {| s_type := s_error; s_users := None; s_user := None;
     s_error_text := Some text; s_event := None; s_data := None;
     _excludeUserId := None |}.

Definition custom (event : string) (data : option string) (user : User)
    : ServerMessage :=
  {| s_type := s_custom; s_users := None; s_user := Some user;
     s_error_text := None; s_event := Some event; s_data := data;
     _excludeUserId := None |}.

Definition pong : ServerMessage := server_message s_pong.

(** [const { _excludeUserId, ...payload } = message] *)
Definition payload_of (message : ServerMessage) : ServerMessage :=
  {| s_type := s_type message; s_users := s_users message;
     s_user := s_user message; s_error_text := s_error_text message;
     s_event := s_event message; s_data := s_data message;
     _excludeUserId := None |}.

(** [{ ...message, _excludeUserId: excludeUserId }] *)
Definition tagged (message : ServerMessage) (excludeUserId : string)
    : ServerMessage :=
  {| s_type := s_type message; s_users := s_users message;
     s_user := s_user message; s_error_text := s_error_text message;
     s_event := s_event message; s_data := s_data message;
     _excludeUserId := Some excludeUserId |}.

(** The loop of the fan-out callback over [roomConnections]. *)
Fixpoint fan_out (excluded : option string) (payload : ServerMessage)
    (roomConnections : list ClientConnection) (st : ServerState)
    : ServerState :=
  match roomConnections with
  | [] => st
  | conn :: rest =>
      if decide (excluded = Some (c_userId conn))
      then fan_out excluded payload rest st
      else if decide (readyState (c_ws conn) st = OPEN)
      then fan_out excluded payload rest (exec (ws_send (c_ws conn) payload) st)
      else fan_out excluded payload rest st
  end.

(** The callback of [subscribeToRoom]. *)
Definition callback_body (callback : Callback) (message : ServerMessage)
    (st : ServerState) : ServerState :=
  let excluded := _excludeUserId message in
  let payload := payload_of message in
  let roomConnections :=
    filter (λ conn, c_roomId conn = cb_room callback)
           (ovalues (connections st)) in
  fan_out excluded payload roomConnections st.

(** The callback is an [async] function: it hands [forEach] a promise and
    never an exception. *)
Definition invoke (callback : Callback) (message : ServerMessage)
    (st : ServerState) : Completion ServerState :=
  Returned (callback_body callback message st).

Definition called (c : AdapterCall) : ServerState → ServerState :=
  with_calls (λ l, l ++ [c]).

Definition adapter_joinRoom (roomId userId : string)
    (metadata : option UserMetadata) : Srv unit :=
  modify (λ st, with_adapter (MemoryAdapter.joinRoom roomId userId metadata)
                  (called (JoinRoom roomId userId metadata) st)).

Definition adapter_leaveRoom (roomId userId : string) : Srv unit :=
  modify (λ st, with_adapter (MemoryAdapter.leaveRoom roomId userId)
                  (called (LeaveRoom roomId userId) st)).

Definition adapter_updateUser (roomId userId : string)
    (updates : PartialUser) : Srv unit :=
  modify (λ st, with_adapter (MemoryAdapter.updateUser roomId userId updates)
                  (called (UpdateUser roomId userId updates) st)).

Definition adapter_getUsers (roomId : string) : Srv (list User) :=
  λ st, (MemoryAdapter.getUsers roomId (adapter st),
         called (GetUsers roomId) st).

Definition adapter_subscribe (roomId : string) (callback : Callback)
    : Srv unit :=
  modify (λ st, with_adapter (MemoryAdapter.subscribe roomId callback)
                  (called (Subscribe roomId callback) st)).

Definition adapter_unsubscribe (roomId : string) (callback : Callback)
    : Srv unit :=
  modify (λ st, with_adapter (MemoryAdapter.unsubscribe roomId callback)
                  (called (Unsubscribe roomId callback) st)).

Definition adapter_broadcast (roomId : string) (message : ServerMessage)
    : Srv unit :=
  modify (λ st,
    let st1 := called (Broadcast roomId message) st in
    match MemoryAdapter.broadcast invoke roomId message (adapter st1) st1 with
    | Returned st2 => st2
    | Threw _ st2 => st2
    end).

Definition subscribeToRoom (roomId : string) : Srv unit :=
  λ st,
    match roomSubscriptions st !! roomId with
    | Some _ => (tt, st)
    | None =>
        let callback := {| cb_id := callbacks_made st; cb_room := roomId |} in
        adapter_subscribe roomId callback
          (with_roomSubscriptions (insert roomId callback)
             (with_callbacks_made (S (callbacks_made st)) st))
    end.

Definition unsubscribeFromRoom (roomId : string) : Srv unit :=
  λ st,
    match roomSubscriptions st !! roomId with
    | Some callback =>
        (adapter_unsubscribe roomId callback ;;
         modify (with_roomSubscriptions (delete roomId))) st
    | None => (tt, st)
    end.

Definition broadcastToRoom (roomId : string) (message : ServerMessage)
    (excludeUserId : option string) : Srv unit :=
  let payload :=
    match truthy excludeUserId with
    | Some e => tagged message e
    | None => message
    end in
  adapter_broadcast roomId payload.

(** What arrives on a socket: a message that [JSON.parse] accepts, or text
    on which it throws (with the message of its [SyntaxError]). *)
Inductive Inbound :=
  | Parsed (data : ClientMessage)
  | Unparseable (message : string).

Definition get_connection (ws : WebSocket) : Srv (option ClientConnection) :=
  λ st, (oget ws (connections st), st).

(** [connections.set(ws, connection)]; also the assignment
    [connection.roomId = data.roomId], which changes the stored object. *)
Definition set_connection (ws : WebSocket) (connection : ClientConnection)
    : Srv unit :=
  modify (with_connections (oset ws connection)).

(** [connection && data.roomId && data.roomId !== connection.roomId] *)
Definition room_switch (connection : option ClientConnection)
    (data : ClientMessage) : option (ClientConnection * string) :=
  match connection, truthy (m_roomId data) with
  | Some conn, Some roomId =>
      if decide (roomId ≠ c_roomId conn) then Some (conn, roomId) else None
  | _, _ => None
  end.

Definition find_user (userId : string) (users : list User) : option User :=
  List.find (λ u, bool_decide (u_id u = userId)) users.

(** The [message] handler of one socket, given what its [connection]
    variable holds. [uuid] is what [crypto.randomUUID()] returns if the
    handler calls it. *)
Definition handle_message (auth : option AuthConfig) (ws : WebSocket)
    (connection : option ClientConnection) (data : ClientMessage)
    (uuid : string) : Srv unit :=
  match m_type data with
  | join_t =>
      match room_switch connection data with
      | Some (conn, roomId) =>
          adapter_leaveRoom (c_roomId conn) (c_userId conn) ;;
          unsubscribeFromRoom (c_roomId conn) ;;
          set_connection ws
            {| c_ws := c_ws conn; c_userId := c_userId conn;
               c_roomId := roomId; c_metadata := c_metadata conn |} ;;
          adapter_joinRoom roomId (c_userId conn) (c_metadata conn) ;;
          subscribeToRoom roomId ;;
          users ← adapter_getUsers roomId;
          broadcastToRoom roomId (presence users) None
      | None =>
          match auth with
          | None =>
              let userId := uuid in
              let roomId := default "default" (truthy (m_roomId data)) in
              set_connection ws
                {| c_ws := ws; c_userId := userId; c_roomId := roomId;
                   c_metadata := m_metadata data |} ;;
              adapter_joinRoom roomId userId (m_metadata data) ;;
              subscribeToRoom roomId ;;
              users ← adapter_getUsers roomId;
              broadcastToRoom roomId (presence users) None
          | Some verifyToken =>
              match truthy (m_token data) with
              | None =>
                  ws_send ws (error "Authentication required. Token missing.")
              | Some token =>
                  match verifyToken token with
                  | AuthThrew e =>
                      ws_send ws (error (default "Invalid message format" e))
                  | AuthReturned authResult =>
                      match truthy (a_error authResult) with
                      | Some e => ws_send ws (error e)
                      | None =>
                          let roomId :=
                            default "default" (truthy (m_roomId data)) in
                          let metadata :=
                            match a_metadata authResult with
                            | Some m => Some m
                            | None => m_metadata data
                            end in
                          set_connection ws
                            {| c_ws := ws; c_userId := a_userId authResult;
                               c_roomId := roomId; c_metadata := metadata |} ;;
                          adapter_joinRoom roomId (a_userId authResult)
                            metadata ;;
                          subscribeToRoom roomId ;;
                          users ← adapter_getUsers roomId;
                          broadcastToRoom roomId (presence users) None
                      end
                  end
              end
          end
      end
  | type =>
      match connection with
      | None =>
          ws_send ws (error "Not authenticated. Send join message first.")
      | Some conn =>
          match type with
          | leave_t =>
              adapter_leaveRoom (c_roomId conn) (c_userId conn) ;;
              unsubscribeFromRoom (c_roomId conn) ;;
              users ← adapter_getUsers (c_roomId conn);
              broadcastToRoom (c_roomId conn) (presence users) None
          | cursor_t =>
              match m_position data with
              | Some position =>
                  adapter_updateUser (c_roomId conn) (c_userId conn)
                    {| p_id := None; p_roomId := None;
                       p_cursor := Some (Some position); p_typing := None;
                       p_metadata := None |} ;;
                  users ← adapter_getUsers (c_roomId conn);
                  match find_user (c_userId conn) users with
                  | Some user =>
                      broadcastToRoom (c_roomId conn) (update user)
                        (Some (c_userId conn))
                  | None => mret tt
                  end
              | None => mret tt
              end
          | typing_t =>
              match m_isTyping data with
              | Some isTyping =>
                  adapter_updateUser (c_roomId conn) (c_userId conn)
                    {| p_id := None; p_roomId := None; p_cursor := None;
                       p_typing := Some isTyping; p_metadata := None |} ;;
                  users ← adapter_getUsers (c_roomId conn);
                  match find_user (c_userId conn) users with
                  | Some user =>
                      broadcastToRoom (c_roomId conn) (update user)
                        (Some (c_userId conn))
                  | None => mret tt
                  end
              | None => mret tt
              end
          | ping_t => ws_send ws pong
          | pong_t => mret tt
          | custom_t =>
              match truthy (m_event data) with
              | Some event =>
                  users ← adapter_getUsers (c_roomId conn);
                  let user :=
                    default {| u_id := c_userId conn;
                               u_roomId := c_roomId conn; u_cursor := None;
                               u_typing := false;
                               u_metadata := c_metadata conn |}
                            (find_user (c_userId conn) users) in
                  broadcastToRoom (c_roomId conn)
                    (custom event (m_data data) user) (Some (c_userId conn))
              | None => mret tt
              end
          | _ => mret tt
          end
      end
  end.

Definition on_message (auth : option AuthConfig) (ws : WebSocket)
    (data : ClientMessage) (uuid : string) : Srv unit :=
  connection ← get_connection ws;
  handle_message auth ws connection data uuid.

(** The [close] handler of one socket. *)
Definition on_close (ws : WebSocket) : Srv unit :=
  connection ← get_connection ws;
  match connection with
  | Some conn =>
      adapter_leaveRoom (c_roomId conn) (c_userId conn) ;;
      unsubscribeFromRoom (c_roomId conn) ;;
      users ← adapter_getUsers (c_roomId conn);
      broadcastToRoom (c_roomId conn) (presence users) None ;;
      modify (with_connections (odelete ws))
  | None => mret tt
  end.

(** What happens to a server: a socket is accepted, a socket delivers a
    message, a socket closes. *)
Inductive Event :=
  | Connection (ws : WebSocket)
  | Message (ws : WebSocket) (msg : Inbound) (uuid : string)
  | Close (ws : WebSocket).

Definition step (auth : option AuthConfig) (ev : Event) (st : ServerState)
    : ServerState :=
  match ev with
  | Connection ws => with_sockets (insert ws OPEN) st
  | Message ws (Parsed data) uuid => exec (on_message auth ws data uuid) st
  | Message ws (Unparseable e) _ => exec (ws_send ws (error e)) st
  | Close ws => exec (on_close ws) (with_sockets (insert ws CLOSED) st)
  end.

Definition run (auth : option AuthConfig) (evs : list Event)
    (st : ServerState) : ServerState :=
  fold_left (λ st ev, step auth ev st) evs st.

(** The states a server goes through. *)
Inductive reachable (auth : option AuthConfig) : ServerState → Prop :=
  | reachable_initial : reachable auth initial
  | reachable_step st ev :
      reachable auth st → reachable auth (step auth ev st).

(** A room's members, as [getUsers] lists them. *)
Definition members (roomId : string) (st : ServerState) : list User :=
  MemoryAdapter.getUsers roomId (adapter st).

(** The connections that [connections] binds to a room. *)
Definition bound_to (roomId : string) (st : ServerState)
    : list ClientConnection :=
  filter (λ conn, c_roomId conn = roomId) (ovalues (connections st)).

(** What a socket has been sent. *)
Definition received (ws : WebSocket) (st : ServerState) : list ServerMessage :=
  map snd (filter (λ e, e.1 = ws) (outbox st)).

Definition join (roomId : option string) : ClientMessage :=
  {| m_type := join_t; m_roomId := roomId; m_position := None;
     m_isTyping := None; m_token := None; m_metadata := None;
     m_event := None; m_data := None |}.

Definition message_of (type : MessageType) : ClientMessage :=
  {| m_type := type; m_roomId := None; m_position := None;
     m_isTyping := None; m_token := None; m_metadata := None;
     m_event := None; m_data := None |}.

End Server.


(** ** The client session ([client.ts])

    The session is driven by transport events, timers and the caller; every
    one of them happens at a time [now] (what [Date.now()] returns, in
    milliseconds). The runtime's timers are a table of pending entries;
    [history] keeps every timer ever set, [sent] every [ws.send] call with
    its time, [emitted] every event handed to the listeners. *)

Module Client.

Record ReconnectConfig := {
  enabled : option bool;
  maxRetries : option Z;
  initialDelay : option Z;
  maxDelay : option Z;
  backoffFactor : option Z
}.

Record ClientConfig := {
  url : string;
  token : option string;
  roomId : option string;
  metadata : option UserMetadata;
  reconnect : option (bool + ReconnectConfig);
  throttleCursor : option Z;
  heartbeatInterval : option Z
}.

Inductive ConnectionState :=
  | connecting | connected | disconnected | reconnecting.

#[global] Instance ConnectionState_eq_dec : EqDecision ConnectionState.
Proof. solve_decision. Defined.

Inductive TimerAction := do_connect | do_heartbeat | do_flushCursorUpdate.

#[global] Instance TimerAction_eq_dec : EqDecision TimerAction.
Proof. solve_decision. Defined.

(** A timer of the runtime: its handle, when it was set, the delay it was
    given, what it runs, and whether it repeats ([setInterval]). *)
Record Timer := {
  t_id : nat;
  t_set : Z;
  t_delay : Z;
  t_action : TimerAction;
  t_repeats : bool
}.

Definition t_due (t : Timer) : Z := t_set t + Z.max 0 (t_delay t).

Record State := {
  ws : option ReadyState;
  currentRoomId : string;
  connectionState : ConnectionState;
  reconnectAttempts : Z;
  reconnectTimer : option nat;
  heartbeatTimer : option nat;
  lastCursorUpdate : Z;
  cursorThrottleTimer : option nat;
  pendingCursorPosition : option Point;
  shouldReconnect : bool;
  timers : list Timer;
  history : list Timer;
  sent : list (Z * ClientMessage);
  emitted : list ServerMessage
}.

(** Assignment to one variable of the session. *)
Definition set_ws (v : option ReadyState) (st : State) : State :=
  {| ws := v; currentRoomId := currentRoomId st;
     connectionState := connectionState st;
     reconnectAttempts := reconnectAttempts st;
     reconnectTimer := reconnectTimer st;
     heartbeatTimer := heartbeatTimer st;
     lastCursorUpdate := lastCursorUpdate st;
     cursorThrottleTimer := cursorThrottleTimer st;
     pendingCursorPosition := pendingCursorPosition st;
     shouldReconnect := shouldReconnect st; timers := timers st;
     history := history st; sent := sent st; emitted := emitted st |}.

Definition set_currentRoomId (v : string) (st : State) : State :=
  {| ws := ws st; currentRoomId := v; connectionState := connectionState st;
     reconnectAttempts := reconnectAttempts st;
     reconnectTimer := reconnectTimer st;
     heartbeatTimer := heartbeatTimer st;
     lastCursorUpdate := lastCursorUpdate st;
     cursorThrottleTimer := cursorThrottleTimer st;
     pendingCursorPosition := pendingCursorPosition st;
     shouldReconnect := shouldReconnect st; timers := timers st;
     history := history st; sent := sent st; emitted := emitted st |}.

Definition set_connectionState (v : ConnectionState) (st : State) : State :=
  {| ws := ws st; currentRoomId := currentRoomId st; connectionState := v;
     reconnectAttempts := reconnectAttempts st;
     reconnectTimer := reconnectTimer st;
     heartbeatTimer := heartbeatTimer st;
     lastCursorUpdate := lastCursorUpdate st;
     cursorThrottleTimer := cursorThrottleTimer st;
     pendingCursorPosition := pendingCursorPosition st;
     shouldReconnect := shouldReconnect st; timers := timers st;
     history := history st; sent := sent st; emitted := emitted st |}.

Definition set_reconnectAttempts (v : Z) (st : State) : State :=
  {| ws := ws st; currentRoomId := currentRoomId st;
     connectionState := connectionState st; reconnectAttempts := v;
     reconnectTimer := reconnectTimer st;
     heartbeatTimer := heartbeatTimer st;
     lastCursorUpdate := lastCursorUpdate st;
     cursorThrottleTimer := cursorThrottleTimer st;
     pendingCursorPosition := pendingCursorPosition st;
     shouldReconnect := shouldReconnect st; timers := timers st;
     history := history st; sent := sent st; emitted := emitted st |}.

Definition set_reconnectTimer (v : option nat) (st : State) : State :=
  {| ws := ws st; currentRoomId := currentRoomId st;
     connectionState := connectionState st;
     reconnectAttempts := reconnectAttempts st; reconnectTimer := v;
     heartbeatTimer := heartbeatTimer st;
     lastCursorUpdate := lastCursorUpdate st;
     cursorThrottleTimer := cursorThrottleTimer st;
     pendingCursorPosition := pendingCursorPosition st;
     shouldReconnect := shouldReconnect st; timers := timers st;
     history := history st; sent := sent st; emitted := emitted st |}.

Definition set_heartbeatTimer (v : option nat) (st : State) : State :=
  {| ws := ws st; currentRoomId := currentRoomId st;
     connectionState := connectionState st;
     reconnectAttempts := reconnectAttempts st;
     reconnectTimer := reconnectTimer st; heartbeatTimer := v;
     lastCursorUpdate := lastCursorUpdate st;
     cursorThrottleTimer := cursorThrottleTimer st;
     pendingCursorPosition := pendingCursorPosition st;
     shouldReconnect := shouldReconnect st; timers := timers st;
     history := history st; sent := sent st; emitted := emitted st |}.

Definition set_lastCursorUpdate (v : Z) (st : State) : State :=
  {| ws := ws st; currentRoomId := currentRoomId st;
     connectionState := connectionState st;
     reconnectAttempts := reconnectAttempts st;
     reconnectTimer := reconnectTimer st;
     heartbeatTimer := heartbeatTimer st; lastCursorUpdate := v;
     cursorThrottleTimer := cursorThrottleTimer st;
     pendingCursorPosition := pendingCursorPosition st;
     shouldReconnect := shouldReconnect st; timers := timers st;
     history := history st; sent := sent st; emitted := emitted st |}.

Definition set_cursorThrottleTimer (v : option nat) (st : State) : State :=
  {| ws := ws st; currentRoomId := currentRoomId st;
     connectionState := connectionState st;
     reconnectAttempts := reconnectAttempts st;
     reconnectTimer := reconnectTimer st;
     heartbeatTimer := heartbeatTimer st;
     lastCursorUpdate := lastCursorUpdate st; cursorThrottleTimer := v;
     pendingCursorPosition := pendingCursorPosition st;
     shouldReconnect := shouldReconnect st; timers := timers st;
     history := history st; sent := sent st; emitted := emitted st |}.

Definition set_pendingCursorPosition (v : option Point) (st : State) : State :=
  {| ws := ws st; currentRoomId := currentRoomId st;
     connectionState := connectionState st;
     reconnectAttempts := reconnectAttempts st;
     reconnectTimer := reconnectTimer st;
     heartbeatTimer := heartbeatTimer st;
     lastCursorUpdate := lastCursorUpdate st;
     cursorThrottleTimer := cursorThrottleTimer st;
     pendingCursorPosition := v; shouldReconnect := shouldReconnect st;
     timers := timers st; history := history st; sent := sent st;
     emitted := emitted st |}.

Definition set_shouldReconnect (v : bool) (st : State) : State :=
  {| ws := ws st; currentRoomId := currentRoomId st;
     connectionState := connectionState st;
     reconnectAttempts := reconnectAttempts st;
     reconnectTimer := reconnectTimer st;
     heartbeatTimer := heartbeatTimer st;
     lastCursorUpdate := lastCursorUpdate st;
     cursorThrottleTimer := cursorThrottleTimer st;
     pendingCursorPosition := pendingCursorPosition st;
     shouldReconnect := v; timers := timers st; history := history st;
     sent := sent st; emitted := emitted st |}.

Definition set_timers (v : list Timer) (st : State) : State :=
  {| ws := ws st; currentRoomId := currentRoomId st;
     connectionState := connectionState st;
     reconnectAttempts := reconnectAttempts st;
     reconnectTimer := reconnectTimer st;
     heartbeatTimer := heartbeatTimer st;
     lastCursorUpdate := lastCursorUpdate st;
     cursorThrottleTimer := cursorThrottleTimer st;
     pendingCursorPosition := pendingCursorPosition st;
     shouldReconnect := shouldReconnect st; timers := v;
     history := history st; sent := sent st; emitted := emitted st |}.

Definition set_history (v : list Timer) (st : State) : State :=
  {| ws := ws st; currentRoomId := currentRoomId st;
     connectionState := connectionState st;
     reconnectAttempts := reconnectAttempts st;
     reconnectTimer := reconnectTimer st;
     heartbeatTimer := heartbeatTimer st;
     lastCursorUpdate := lastCursorUpdate st;
     cursorThrottleTimer := cursorThrottleTimer st;
     pendingCursorPosition := pendingCursorPosition st;
     shouldReconnect := shouldReconnect st; timers := timers st;
     history := v; sent := sent st; emitted := emitted st |}.

Definition set_sent (v : list (Z * ClientMessage)) (st : State) : State :=
  {| ws := ws st; currentRoomId := currentRoomId st;
     connectionState := connectionState st;
     reconnectAttempts := reconnectAttempts st;
     reconnectTimer := reconnectTimer st;
     heartbeatTimer := heartbeatTimer st;
     lastCursorUpdate := lastCursorUpdate st;
     cursorThrottleTimer := cursorThrottleTimer st;
     pendingCursorPosition := pendingCursorPosition st;
     shouldReconnect := shouldReconnect st; timers := timers st;
     history := history st; sent := v; emitted := emitted st |}.

Definition set_emitted (v : list ServerMessage) (st : State) : State :=
  {| ws := ws st; currentRoomId := currentRoomId st;
     connectionState := connectionState st;
     reconnectAttempts := reconnectAttempts st;
     reconnectTimer := reconnectTimer st;
     heartbeatTimer := heartbeatTimer st;
     lastCursorUpdate := lastCursorUpdate st;
     cursorThrottleTimer := cursorThrottleTimer st;
     pendingCursorPosition := pendingCursorPosition st;
     shouldReconnect := shouldReconnect st; timers := timers st;
     history := history st; sent := sent st; emitted := v |}.

Section Session.
Variable config : ClientConfig.

(** The defaults of the destructured [config]. *)
Definition the_roomId : string := default "default" (roomId config).
Definition the_throttleCursor : Z := default 50 (throttleCursor config).
Definition the_heartbeatInterval : Z := default 30000 (heartbeatInterval config).

(** The normalised [reconnect]. *)
Definition the_reconnect : ReconnectConfig :=
  match default (inr {| enabled := Some true; maxRetries := None;
                        initialDelay := None; maxDelay := None;
                        backoffFactor := None |}) (reconnect config) with
  | inl b =>
      {| enabled := Some b; maxRetries := None; initialDelay := None;
         maxDelay := None; backoffFactor := None |}
  | inr rc =>
      {| enabled := Some (bool_decide (enabled rc ≠ Some false));
         maxRetries := Some (default 10 (maxRetries rc));
         initialDelay := Some (default 1000 (initialDelay rc));
         maxDelay := Some (default 30000 (maxDelay rc));
         backoffFactor := Some (default 2 (backoffFactor rc)) |}
  end.

Definition initial : State :=
  {| ws := None; currentRoomId := the_roomId; connectionState := connecting;
     reconnectAttempts := 0; reconnectTimer := None; heartbeatTimer := None;
     lastCursorUpdate := 0; cursorThrottleTimer := None;
     pendingCursorPosition := None; shouldReconnect := true; timers := [];
     history := []; sent := []; emitted := [] |}.

(** [emit(type, data)], with [type] the type of [data]. *)
Definition emit (data : ServerMessage) (st : State) : State :=
  set_emitted (emitted st ++ [data]) st.

Definition setState (newState : ConnectionState) (st : State) : State :=
  if decide (connectionState st ≠ newState) then
    let st1 := set_connectionState newState st in
    match newState with
    | connected => emit (server_message s_connected) st1
    | disconnected => emit (server_message s_disconnected) st1
    | _ => st1
    end
  else st.

Definition client_message (type : MessageType) : ClientMessage :=
  {| m_type := type; m_roomId := None; m_position := None;
     m_isTyping := None; m_token := None; m_metadata := None;
     m_event := None; m_data := None |}.

(** [sendMessage(type, payload)]; [message] is [{ type, ...payload }]. *)
Definition sendMessage (now : Z) (message : ClientMessage) (st : State)
    : State :=
  if decide (ws st = Some OPEN) then set_sent (sent st ++ [(now, message)]) st
  else st.

(** [setTimeout] and [setInterval]: a fresh handle, and the timer pending. *)
Definition set_timer (now delay : Z) (action : TimerAction) (repeats : bool)
    (st : State) : nat * State :=
  let handle := length (history st) in
  let timer := {| t_id := handle; t_set := now; t_delay := delay;
                  t_action := action; t_repeats := repeats |} in
  (handle,
   set_history (history st ++ [timer]) (set_timers (timers st ++ [timer]) st)).

(** [clearTimeout] and [clearInterval]: a handle that is no longer pending
    is ignored. *)
Definition clear_timer (handle : nat) (st : State) : State :=
  set_timers (filter (λ t, t_id t ≠ handle) (timers st)) st.

(** [connect()]; [new WebSocket(url)] gives a socket that is connecting. *)
Definition connect (st : State) : State :=
  if decide (ws st = Some OPEN ∨ ws st = Some CONNECTING) then st
  else
    setState (if decide (reconnectAttempts st > 0) then reconnecting
              else connecting)
             (set_ws (Some CONNECTING) st).

Definition stopHeartbeat (st : State) : State :=
  match heartbeatTimer st with
  | Some handle => set_heartbeatTimer None (clear_timer handle st)
  | None => st
  end.

Definition startHeartbeat (now : Z) (st : State) : State :=
  if decide (the_heartbeatInterval > 0) then
    let '(handle, st1) :=
      set_timer now the_heartbeatInterval do_heartbeat true
        (stopHeartbeat st) in
    set_heartbeatTimer (Some handle) st1
  else st.

Definition flushCursorUpdate (now : Z) (st : State) : State :=
  match pendingCursorPosition st with
  | Some position =>
      set_pendingCursorPosition None
        (sendMessage now
           {| m_type := cursor_t; m_roomId := Some (currentRoomId st);
              m_position := Some position; m_isTyping := None;
              m_token := None; m_metadata := None; m_event := None;
              m_data := None |} st)
  | None => st
  end.

(** [ws.onopen] *)
Definition onopen (now : Z) (st : State) : State :=
  let st1 := setState connected (set_reconnectAttempts 0 st) in
  let st2 :=
    sendMessage now
      {| m_type := join_t; m_roomId := Some (currentRoomId st1);
         m_position := None; m_isTyping := None;
         m_token := truthy (token config); m_metadata := metadata config;
         m_event := None; m_data := None |} st1 in
  startHeartbeat now st2.

(** The delay that [ws.onclose] computes. *)
Definition reconnect_delay (attempts : Z) : Z :=
  Z.min (default 1000 (initialDelay the_reconnect)
         * default 2 (backoffFactor the_reconnect) ^ attempts)
        (default 30000 (maxDelay the_reconnect)).

Definition client_error (text : string) : ServerMessage :=
  {| s_type := s_error; s_users := None; s_user := None;
     s_error_text := Some text; s_event := None; s_data := None;
     _excludeUserId := None |}.

(** [ws.onclose] *)
Definition onclose (now : Z) (st : State) : State :=
  let st1 := stopHeartbeat (setState disconnected st) in
  if decide (shouldReconnect st1 = true ∧ enabled the_reconnect = Some true
             ∧ reconnectAttempts st1 < default 10 (maxRetries the_reconnect))
  then
    let delay := reconnect_delay (reconnectAttempts st1) in
    let st2 := set_reconnectAttempts (reconnectAttempts st1 + 1) st1 in
    let '(handle, st3) := set_timer now delay do_connect false st2 in
    set_reconnectTimer (Some handle) st3
  else if decide (reconnectAttempts st1
                  >= default 10 (maxRetries the_reconnect))
  then emit (client_error "Max reconnection attempts reached") st1
  else st1.

(** [ws.onmessage], for a message that parses. *)
Definition onmessage (now : Z) (data : ServerMessage) (st : State) : State :=
  match s_type data with
  | s_ping => sendMessage now (client_message pong_t) st
  | s_pong => st
  | s_error => emit data (emit data st)
  | _ => emit data st
  end.

(** [ws.onerror] *)
Definition onerror (st : State) : State :=
  emit (client_error "WebSocket connection error") st.

(** The session's [cursor] method. *)
Definition cursor (now : Z) (position : Point) (st : State) : State :=
  let st1 := set_pendingCursorPosition (Some position) st in
  if decide (now - lastCursorUpdate st1 >= the_throttleCursor) then
    set_lastCursorUpdate now (flushCursorUpdate now st1)
  else
    let st2 :=
      match cursorThrottleTimer st1 with
      | Some handle => clear_timer handle st1
      | None => st1
      end in
    let '(handle, st3) :=
      set_timer now (the_throttleCursor - (now - lastCursorUpdate st2))
        do_flushCursorUpdate false st2 in
    set_cursorThrottleTimer (Some handle) st3.

Definition typing (now : Z) (isTyping : bool) (st : State) : State :=
  sendMessage now
    {| m_type := typing_t; m_roomId := Some (currentRoomId st);
       m_position := None; m_isTyping := Some isTyping; m_token := None;
       m_metadata := None; m_event := None; m_data := None |} st.

Definition send (now : Z) (event : string) (data : option string)
    (st : State) : State :=
  sendMessage now
    {| m_type := custom_t; m_roomId := Some (currentRoomId st);
       m_position := None; m_isTyping := None; m_token := None;
       m_metadata := None; m_event := Some event; m_data := data |} st.

Definition joinRoom (now : Z) (newRoomId : string) (st : State) : State :=
  sendMessage now
    {| m_type := join_t; m_roomId := Some newRoomId; m_position := None;
       m_isTyping := None; m_token := None; m_metadata := None;
       m_event := None; m_data := None |}
    (set_currentRoomId newRoomId st).

Definition leaveRoom (now : Z) (st : State) : State :=
  sendMessage now
    {| m_type := leave_t; m_roomId := Some (currentRoomId st);
       m_position := None; m_isTyping := None; m_token := None;
       m_metadata := None; m_event := None; m_data := None |} st.

Definition disconnect (st : State) : State :=
  let st1 := stopHeartbeat (set_shouldReconnect false st) in
  let st2 :=
    match reconnectTimer st1 with
    | Some handle => set_reconnectTimer None (clear_timer handle st1)
    | None => st1
    end in
  let st3 :=
    match cursorThrottleTimer st2 with
    | Some handle => set_cursorThrottleTimer None (clear_timer handle st2)
    | None => st2
    end in
  setState disconnected (set_ws None st3).

(** [createCollabClient(config)]: the variables at their first values, then
    [connect()]. *)
Definition createCollabClient : State := connect initial.

(** What a pending timer does when the runtime runs it. *)
Definition run_timer (now : Z) (action : TimerAction) (st : State) : State :=
  match action with
  | do_connect => connect st
  | do_heartbeat =>
      if decide (ws st = Some OPEN) then sendMessage now (client_message ping_t) st
      else st
  | do_flushCursorUpdate => flushCursorUpdate now st
  end.

(** What happens to a session. *)
Inductive Event :=
  | Opened
  | Closed
  | Errored
  | Received (data : ServerMessage)
  | Fired (handle : nat)
  | CallCursor (position : Point)
  | CallTyping (isTyping : bool)
  | CallSend (event : string) (data : option string)
  | CallJoinRoom (newRoomId : string)
  | CallLeaveRoom
  | CallDisconnect.

(** One event at time [now]. A timer runs only while pending and not before
    it is due; a timer that repeats is set again. The [open] and [close]
    events are those of the socket held in [ws]. *)
Definition step (now : Z) (ev : Event) (st : State) : option State :=
  match ev with
  | Opened => Some (onopen now (set_ws (Some OPEN) st))
  | Closed =>
      Some (onclose now
              (set_ws (match ws st with Some _ => Some CLOSED | None => None end)
                 st))
  | Errored => Some (onerror st)
  | Received data => Some (onmessage now data st)
  | Fired handle =>
      match List.find (λ t, bool_decide (t_id t = handle)) (timers st) with
      | Some t =>
          if decide (t_due t <= now) then
            let pending :=
              if t_repeats t then
                map (λ t', if decide (t_id t' = handle)
                           then {| t_id := handle; t_set := now;
                                   t_delay := t_delay t;
                                   t_action := t_action t;
                                   t_repeats := true |}
                           else t') (timers st)
              else filter (λ t', t_id t' ≠ handle) (timers st) in
            Some (run_timer now (t_action t) (set_timers pending st))
          else None
      | None => None
      end
  | CallCursor position => Some (cursor now position st)
  | CallTyping isTyping => Some (typing now isTyping st)
  | CallSend event data => Some (send now event data st)
  | CallJoinRoom newRoomId => Some (joinRoom now newRoomId st)
  | CallLeaveRoom => Some (leaveRoom now st)
  | CallDisconnect => Some (disconnect st)
  end.

Fixpoint run (evs : list (Z * Event)) (st : State) : option State :=
  match evs with
  | [] => Some st
  | (now, ev) :: rest =>
      match step now ev st with
      | Some st' => run rest st'
      | None => None
      end
  end.

(** The cursor messages among the [ws.send] calls, with their times. *)
Definition cursors_sent (st : State) : list (Z * Point) :=
  omap (λ e : Z * ClientMessage,
          match m_type e.2, m_position e.2 with
          | cursor_t, Some p => Some (e.1, p)
          | _, _ => None
          end) (sent st).

(** The delays of the reconnect timers set so far. *)
Definition reconnect_delays (st : State) : list Z :=
  map t_delay (filter (λ t, t_action t = do_connect) (history st)).

End Session.
End Client.


(** * The vocabulary of the properties, and the runs they are checked on *)

Definition fresh_user (roomId userId : string)
    (metadata : option UserMetadata) : User :=
  {| u_id := userId; u_roomId := roomId; u_cursor := None; u_typing := false;
     u_metadata := metadata |}.

Section BroadcastVocabulary.
Context {Callback W : Type}.
Variable invoke : Callback → ServerMessage → W → Completion W.

(** [invoke], noting the callbacks that have been invoked. *)
Definition noting (callback : Callback) (message : ServerMessage)
    (w : W * list Callback) : Completion (W * list Callback) :=
  match invoke callback message w.1 with
  | Returned w' => Returned (w', w.2 ++ [callback])
  | Threw e w' => Threw e (w', w.2 ++ [callback])
  end.

Definition returns (message : ServerMessage) (callback : Callback) : Prop :=
  ∀ w, ∃ w', invoke callback message w = Returned w'.

Definition throws (message : ServerMessage) (callback : Callback) : Prop :=
  ∀ w, ∃ e w', invoke callback message w = Threw e w'.
End BroadcastVocabulary.

(** Three callbacks, of which the second throws. *)
Definition second_throws (callback : nat) (message : ServerMessage)
    (w : unit) : Completion unit :=
  if decide (callback = 2%nat) then Threw "boom" w else Returned w.

Definition three_subscribers : MemoryAdapter.t nat :=
  MemoryAdapter.subscribe "r1" 3%nat
    (MemoryAdapter.subscribe "r1" 2%nat
       (MemoryAdapter.subscribe "r1" 1%nat MemoryAdapter.empty)).

(** An identity that has joined and is typing. *)
Definition typing_member : MemoryAdapter.t nat :=
  MemoryAdapter.updateUser "r1" "u1"
    {| p_id := None; p_roomId := None; p_cursor := None;
       p_typing := Some true; p_metadata := None |}
    (MemoryAdapter.joinRoom "r1" "u1" None MemoryAdapter.empty).

Section ServerVocabulary.
Import Server.

(** The [ws.send] calls of one run of a room's callback. *)
Definition deliveries (excluded : option string) (payload : ServerMessage)
    (roomConnections : list ClientConnection) (st : ServerState)
    : list (WebSocket * ServerMessage) :=
  map (λ conn, (c_ws conn, payload))
      (filter (λ conn, excluded ≠ Some (c_userId conn)
                       ∧ readyState (c_ws conn) st = OPEN) roomConnections).

(** The [ws.send] calls of one broadcast: every callback of the room in
    turn. *)
Definition broadcast_deliveries (callbacks : list Callback)
    (message : ServerMessage) (st : ServerState)
    : list (WebSocket * ServerMessage) :=
  concat (map (λ callback,
                 deliveries (_excludeUserId message) (payload_of message)
                   (bound_to (cb_room callback) st) st) callbacks).

(** The adapter holds for a room exactly the callback that
    [roomSubscriptions] records, that callback serves the room it is
    recorded under, [connections] holds each socket once, under its own
    handle, and a room holds each [User] under its own [id]. *)
Record inv (st : ServerState) : Prop := {
  inv_subscribers : ∀ roomId,
    MemoryAdapter.subscribers (adapter st) !! roomId
    = (λ callback, [callback]) <$> roomSubscriptions st !! roomId;
  inv_cb_room : ∀ roomId callback,
    roomSubscriptions st !! roomId = Some callback →
    cb_room callback = roomId;
  inv_sockets_once : NoDup (okeys (connections st));
  inv_own_handle : ∀ ws conn, (ws, conn) ∈ connections st → c_ws conn = ws;
  inv_own_id : ∀ roomId room userId user,
    MemoryAdapter.rooms (adapter st) !! roomId = Some room →
    (userId, user) ∈ room → u_id user = userId
}.

Definition preserves {A} (m : Srv A) : Prop :=
  ∀ st, inv st → inv (m st).2.

(** Two sockets join room r1 without authentication. *)
Definition two_in_r1 : ServerState :=
  run None
    [Connection 1; Message 1 (Parsed (join (Some "r1"))) "u1";
     Connection 2; Message 2 (Parsed (join (Some "r1"))) "u2"] initial.

(** Three sockets join room r1 without authentication. *)
Definition three_in_r1 : ServerState :=
  run None
    [Connection 3; Message 3 (Parsed (join (Some "r1"))) "u3"] two_in_r1.
End ServerVocabulary.

Section ClientVocabulary.
Import Client.

(** A session with the reconnect settings of the specification's example
    and a cursor throttle of 50 ms. *)
Definition example_config : ClientConfig :=
  {| url := "ws://localhost:3001"; token := None; roomId := None;
     metadata := None;
     reconnect := Some (inr {| enabled := Some true; maxRetries := None;
                               initialDelay := Some 1000;
                               maxDelay := Some 30000;
                               backoffFactor := Some 2 |});
     throttleCursor := Some 50; heartbeatInterval := None |}.

(** The connection fails six times in a row: each close sets the reconnect
    timer, which runs when due and opens a socket that closes in turn. *)
Definition six_closes : list (Z * Event) :=
  [(100, Closed); (1100, Fired 0); (1200, Closed); (3200, Fired 1);
   (3300, Closed); (7300, Fired 2); (7400, Closed); (15400, Fired 3);
   (15500, Closed); (31500, Fired 4); (31600, Closed)].

Definition p11 : Point := {| px := 1; py := 1 |}.
Definition p22 : Point := {| px := 2; py := 2 |}.
Definition p33 : Point := {| px := 3; py := 3 |}.

(** A session whose socket has opened. *)
Definition opened_session : State :=
  onopen example_config 1000
    (set_ws (Some OPEN) (createCollabClient example_config)).
End ClientVocabulary.

(** A store of rooms in order: no room is kept without a member, and no
    identity is held twice in a room. *)
Definition kept {Callback} (a : MemoryAdapter.t Callback) : Prop :=
  ∀ roomId room,
    MemoryAdapter.rooms a !! roomId = Some room →
    room ≠ [] ∧ NoDup (okeys room).

(** The same for the callbacks: no room is kept without a callback, and no
    callback is held twice for a room. *)
Definition subscribed_once {Callback} (a : MemoryAdapter.t Callback) : Prop :=
  ∀ roomId callbacks,
    MemoryAdapter.subscribers a !! roomId = Some callbacks →
    callbacks ≠ [] ∧ NoDup callbacks.

(** A callback that returns. *)
Definition quiet (callback : nat) (message : ServerMessage) (w : unit)
    : Completion unit := Returned w.

(** A shared store whose two keys of every room agree: the members set
    lists exactly the fields of the users hash. *)
Definition consistent (db : RedisAdapter.t) : Prop :=
  ∀ roomId userId,
    userId ∈ default ∅ (RedisAdapter.sets db !! RedisAdapter.members_key roomId)
    ↔ is_Some (RedisAdapter.hget (RedisAdapter.users_key roomId) userId db).

(** A shared store as the server holds it: a key with nothing under it does
    not exist. *)
Definition compact (db : RedisAdapter.t) : Prop :=
  (∀ key h, RedisAdapter.hashes db !! key = Some h → h ≠ ∅)
  ∧ (∀ key s, RedisAdapter.sets db !! key = Some s → s ≠ ∅).

(** The channels of a process are those of the rooms it has callbacks for,
    no room is kept without a callback and no callback is held twice. *)
Definition channels_in_step {Callback} (a : RedisSubscriber.t Callback)
    : Prop :=
  (∀ ch, ch ∈ RedisSubscriber.channels a
         ↔ ∃ roomId, ch = RedisSubscriber.channel roomId
                     ∧ is_Some (RedisSubscriber.subscribers a !! roomId))
  ∧ (∀ roomId callbacks,
       RedisSubscriber.subscribers a !! roomId = Some callbacks →
       callbacks ≠ [] ∧ NoDup callbacks).

(** The in-process adapter with the same callbacks. *)
Definition in_process {Callback} (a : RedisSubscriber.t Callback)
    : MemoryAdapter.t Callback :=
  {| MemoryAdapter.rooms := ∅;
     MemoryAdapter.subscribers := RedisSubscriber.subscribers a |}.

Section ServerVocabularyMore.
Import Server.

(** Nothing that was sent to a socket carries the [_excludeUserId] key. *)
Definition wire_clean (st : ServerState) : Prop :=
  Forall (λ e : WebSocket * ServerMessage, _excludeUserId e.2 = None)
    (outbox st).

Definition keeps (P : ServerState → Prop) {A} (m : Srv A) : Prop :=
  ∀ st, P st → P (m st).2.

(** A join that the authentication turns down: no token, a token that
    [verifyToken] answers with an error, or a [verifyToken] that throws. *)
Definition rejected (verifyToken : AuthConfig) (data : ClientMessage) : Prop :=
  match truthy (m_token data) with
  | None => True
  | Some token =>
      match verifyToken token with
      | AuthThrew _ => True
      | AuthReturned authResult => is_Some (truthy (a_error authResult))
      end
  end.

(** An authentication that knows one token. *)
Definition one_token : AuthConfig :=
  λ token,
    if decide (token = "secret")
    then AuthReturned {| a_userId := "ann"; a_metadata := None;
                         a_error := None |}
    else AuthReturned {| a_userId := ""; a_metadata := None;
                         a_error := Some "Invalid token" |}.
End ServerVocabularyMore.

Section ClientVocabularyMore.
Import Client.
Variable config : ClientConfig.

(** The events of a socket come in the order of its life: it opens only
    while connecting, and closes once. The socket is the one that [ws]
    holds; after [disconnect()], which drops the socket, it is the dropped
    one, which still closes. *)
Definition possible (ev : Event) (st : State) : Prop :=
  match ev with
  | Opened => ws st = Some CONNECTING
  | Closed => ws st ≠ Some CLOSED
  | _ => True
  end.

(** The states that a session goes through from a given one. *)
Inductive later (st0 : State) : State → Prop :=
  | later_now : later st0 st0
  | later_step st now ev st' :
      later st0 st → possible ev st → step config now ev st = Some st' →
      later st0 st'.

(** The states of a session. *)
Definition session : State → Prop := later (createCollabClient config).

(** The variable that holds the handle of a timer of each kind. *)
Definition holder (action : TimerAction) (st : State) : option nat :=
  match action with
  | do_connect => reconnectTimer st
  | do_heartbeat => heartbeatTimer st
  | do_flushCursorUpdate => cursorThrottleTimer st
  end.

(** A session whose timers are in order: handles are not used twice, each
    pending timer is the one that the variable of its kind holds, a
    reconnection is pending only while the socket is closed, the heartbeat
    runs only while the socket is open and is the only timer that repeats,
    a session without socket has been disconnected, and the attempts are
    within their bounds. *)
Record tidy (st : State) : Prop := {
  tidy_fresh : ∀ t, t ∈ timers st → (t_id t < length (history st))%nat;
  tidy_once : NoDup (map t_id (timers st));
  tidy_held : ∀ t, t ∈ timers st → holder (t_action t) st = Some (t_id t);
  tidy_connect :
    ∀ t, t ∈ timers st → t_action t = do_connect → ws st = Some CLOSED;
  tidy_heartbeat :
    ∀ t, t ∈ timers st → t_action t = do_heartbeat → ws st = Some OPEN;
  tidy_repeats :
    ∀ t, t ∈ timers st → t_repeats t = true → t_action t = do_heartbeat;
  tidy_dropped : ws st = None → shouldReconnect st = false;
  tidy_attempts :
    (0 ≤ reconnectAttempts st
     ≤ Z.max 0 (default 10 (maxRetries (the_reconnect config))))%Z
}.
End ClientVocabularyMore.

(** A session that never reconnects. *)
Definition single_connection : Client.ClientConfig :=
  {| Client.url := "ws://localhost:3001"; Client.token := None;
     Client.roomId := None; Client.metadata := None;
     Client.reconnect := Some (inl false); Client.throttleCursor := None;
     Client.heartbeatInterval := None |}.

(** An integer that a JavaScript number holds exactly
    ([Number.isSafeInteger]). *)
Definition safe_integer (n : Z) : Prop := Z.abs n <= 2 ^ 53 - 1.

(** A session with reconnect settings of its own, none of them a default
    value, and the [enabled] field left out. *)
Definition patient_config : Client.ClientConfig :=
  {| Client.url := "ws://localhost:3001"; Client.token := None;
     Client.roomId := None; Client.metadata := None;
     Client.reconnect :=
       Some (inr {| Client.enabled := None; Client.maxRetries := Some 5;
                    Client.initialDelay := Some 500;
                    Client.maxDelay := Some 10000;
                    Client.backoffFactor := Some 3 |});
     Client.throttleCursor := None; Client.heartbeatInterval := None |}.

(** The connection fails twice, and a third socket is connecting. *)
Definition two_closes : list (Z * Client.Event) :=
  [(100, Client.Closed); (600, Client.Fired 0); (700, Client.Closed);
   (2200, Client.Fired 1)].

(** * Properties *)

(** ** Insertion-ordered maps *)

Section OrderedFacts.
Context {K V : Type} `{EqDecision K}.
Implicit Types (k : K) (v : V) (m : list (K * V)).

Lemma oget_oset_eq k v m : oget k (oset k v m) = Some v.
Proof.
  induction m as [|[k' v'] m IH]; simpl.
  - by rewrite decide_True.
  - destruct (decide (k = k')) as [->|Hne]; simpl.
    + by rewrite decide_True.
    + by rewrite decide_False.
Qed.

Lemma oget_oset_ne k k' v m : k ≠ k' → oget k' (oset k v m) = oget k' m.
Proof.
  intros Hne. induction m as [|[k2 v2] m IH]; simpl.
  - rewrite decide_False; [done | congruence].
  - destruct (decide (k = k2)) as [->|Hk]; simpl.
    + rewrite !decide_False; [done | congruence | congruence].
    + by rewrite IH.
Qed.

Lemma oget_odelete_eq k m : oget k (odelete k m) = None.
Proof.
  induction m as [|[k' v'] m IH]; simpl; [done|].
  destruct (decide (k = k')); simpl; [done|]. by rewrite decide_False.
Qed.

Lemma oget_odelete_ne k k' m : k ≠ k' → oget k' (odelete k m) = oget k' m.
Proof.
  intros Hne. induction m as [|[k2 v2] m IH]; simpl; [done|].
  destruct (decide (k = k2)) as [->|Hk]; simpl.
  - rewrite decide_False; [done | congruence].
  - by rewrite IH.
Qed.

Lemma oset_present k v m : oget k m = Some v → oset k v m = m.
Proof.
  induction m as [|[k' v'] m IH]; simpl; [done|].
  destruct (decide (k = k')) as [->|Hk]; [by intros [= ->]|].
  intros Hm. by rewrite IH.
Qed.

Lemma oget_None_okeys k m : oget k m = None ↔ k ∉ okeys m.
Proof.
  induction m as [|[k' v'] m IH]; simpl.
  - split; [intros _; apply not_elem_of_nil | done].
  - rewrite not_elem_of_cons. destruct (decide (k = k')) as [->|Hk].
    + split; [done | intros [? _]; done].
    + rewrite IH. split; [by intros ? | by intros [_ ?]].
Qed.

Lemma okeys_oset k v m :
  okeys (oset k v m) = if ohas k m then okeys m else okeys m ++ [k].
Proof.
  unfold ohas. induction m as [|[k' v'] m IH]; simpl; [done|].
  destruct (decide (k = k')) as [->|Hk]; simpl; [done|].
  rewrite IH. by destruct (oget k m).
Qed.

Lemma okeys_odelete k m : okeys (odelete k m) = filter (λ k', k ≠ k') (okeys m).
Proof.
  induction m as [|[k' v'] m IH]; simpl; [done|].
  rewrite filter_cons. destruct (decide (k = k')) as [->|Hk]; simpl.
  - rewrite decide_False; [done | naive_solver].
  - rewrite decide_True; [|done]. by rewrite IH.
Qed.

Lemma NoDup_okeys_oset k v m : NoDup (okeys m) → NoDup (okeys (oset k v m)).
Proof.
  intros Hnd. rewrite okeys_oset. unfold ohas.
  destruct (oget k m) eqn:Hk; [done|].
  apply NoDup_app. split_and!; [done | | apply NoDup_singleton].
  intros x Hx ->%list_elem_of_singleton. by apply oget_None_okeys in Hk.
Qed.

Lemma NoDup_okeys_odelete k m : NoDup (okeys m) → NoDup (okeys (odelete k m)).
Proof. intros Hnd. rewrite okeys_odelete. by apply NoDup_filter. Qed.

Lemma oget_Some_elem_of k v m : oget k m = Some v → (k, v) ∈ m.
Proof.
  induction m as [|[k' v'] m IH]; simpl; [done|].
  destruct (decide (k = k')) as [->|Hk].
  - intros [= ->]. apply list_elem_of_here.
  - intros Hm. apply list_elem_of_further. by apply IH.
Qed.

Lemma elem_of_oget k v m : NoDup (okeys m) → (k, v) ∈ m → oget k m = Some v.
Proof.
  induction m as [|[k' v'] m IH]; simpl.
  - intros _ Hin. by apply elem_of_nil in Hin.
  - intros [Hk' Hnd]%NoDup_cons [Heq|Hin]%elem_of_cons.
    + injection Heq as -> ->. by rewrite decide_True.
    + destruct (decide (k = k')) as [->|Hk]; [|by apply IH].
      exfalso. apply Hk'. apply list_elem_of_fmap. by exists (k', v).
Qed.

Lemma elem_of_oset k v k' v' m :
  (k', v') ∈ oset k v m → (k' = k ∧ v' = v) ∨ (k', v') ∈ m.
Proof.
  induction m as [|[k2 v2] m IH]; simpl.
  - intros ?%list_elem_of_singleton. naive_solver.
  - destruct (decide (k = k2)) as [->|Hk].
    + intros [?|?]%elem_of_cons; [naive_solver|].
      right. by apply list_elem_of_further.
    + intros [Heq|Hin]%elem_of_cons.
      * right. simplify_eq. apply list_elem_of_here.
      * destruct (IH Hin); [by left|]. right. by apply list_elem_of_further.
Qed.

Lemma elem_of_odelete k k' v' m : (k', v') ∈ odelete k m → (k', v') ∈ m.
Proof.
  induction m as [|[k2 v2] m IH]; simpl; [done|].
  destruct (decide (k = k2)) as [->|Hk].
  - intros ?. apply list_elem_of_further. by apply IH.
  - intros [?|?]%elem_of_cons.
    + simplify_eq. apply list_elem_of_here.
    + apply list_elem_of_further. by apply IH.
Qed.
End OrderedFacts.

(** ** The adapters' membership operations *)

Section MemoryFacts.
Context {Callback : Type} `{EqDecision Callback}.
Implicit Types (a : MemoryAdapter.t Callback) (roomId userId : string).

Lemma member_false_entry roomId userId a :
  MemoryAdapter.member roomId userId a = false →
  MemoryAdapter.entry roomId userId a = None.
Proof.
  unfold MemoryAdapter.member. intros Hm%bool_decide_eq_false.
  destruct (MemoryAdapter.entry roomId userId a) eqn:He; [|done].
  destruct Hm. by eexists.
Qed.

Lemma memory_updateUser_absent roomId userId updates a :
  MemoryAdapter.entry roomId userId a = None →
  MemoryAdapter.updateUser roomId userId updates a = a.
Proof.
  unfold MemoryAdapter.entry, MemoryAdapter.updateUser.
  destruct (MemoryAdapter.rooms a !! roomId) as [room|]; simpl; [|done].
  by intros ->.
Qed.

Lemma memory_joinRoom_entry roomId userId metadata a :
  MemoryAdapter.entry roomId userId
    (MemoryAdapter.joinRoom roomId userId metadata a)
  = Some (default (fresh_user roomId userId metadata)
            (MemoryAdapter.entry roomId userId a)).
Proof.
  unfold MemoryAdapter.entry, MemoryAdapter.joinRoom, ohas.
  destruct (MemoryAdapter.rooms a !! roomId) as [room|] eqn:Hroom; simpl.
  - rewrite Hroom. simpl. destruct (oget userId room) as [user|] eqn:Huser.
    + simpl. rewrite Hroom. simpl. by rewrite Huser.
    + simpl. rewrite lookup_insert_eq. simpl. by rewrite oget_oset_eq.
  - rewrite lookup_insert_eq. simpl. rewrite lookup_insert_eq. simpl.
    by rewrite decide_True.
Qed.

Lemma memory_joinRoom_other roomId userId metadata roomId' userId' a :
  (roomId', userId') ≠ (roomId, userId) →
  MemoryAdapter.entry roomId' userId'
    (MemoryAdapter.joinRoom roomId userId metadata a)
  = MemoryAdapter.entry roomId' userId' a.
Proof.
  intros Hne. unfold MemoryAdapter.entry, MemoryAdapter.joinRoom, ohas.
  destruct (decide (roomId = roomId')) as [<-|Hr].
  - assert (userId ≠ userId') by congruence.
    destruct (MemoryAdapter.rooms a !! roomId) as [room|] eqn:Hroom; simpl.
    + rewrite Hroom. simpl. destruct (oget userId room); simpl.
      * by rewrite Hroom.
      * rewrite lookup_insert_eq. simpl. by rewrite oget_oset_ne.
    + rewrite lookup_insert_eq. simpl. rewrite lookup_insert_eq. simpl.
      by rewrite decide_False.
  - destruct (MemoryAdapter.rooms a !! roomId) as [room|] eqn:Hroom; simpl.
    + rewrite Hroom. simpl. destruct (oget userId room); simpl; [done|].
      by rewrite lookup_insert_ne.
    + rewrite lookup_insert_eq. simpl. by rewrite !lookup_insert_ne.
Qed.

Lemma memory_joinRoom_idempotent roomId userId metadata a :
  let a' := MemoryAdapter.joinRoom roomId userId metadata a in
  MemoryAdapter.joinRoom roomId userId metadata a' = a'.
Proof.
  simpl. unfold MemoryAdapter.joinRoom at 1.
  pose proof (memory_joinRoom_entry roomId userId metadata a) as He.
  unfold MemoryAdapter.entry in He.
  destruct (MemoryAdapter.rooms _ !! roomId) as [room|] eqn:Hroom;
    [|done].
  simpl in He. unfold ohas. rewrite Hroom. simpl. rewrite He.
  by destruct (MemoryAdapter.joinRoom roomId userId metadata a).
Qed.

Lemma memory_getUsers_entry roomId userId user a :
  MemoryAdapter.entry roomId userId a = Some user →
  user ∈ MemoryAdapter.getUsers roomId a.
Proof.
  unfold MemoryAdapter.entry, MemoryAdapter.getUsers.
  destruct (MemoryAdapter.rooms a !! roomId) as [room|]; simpl; [|done].
  intros Hu%oget_Some_elem_of. unfold ovalues.
  apply list_elem_of_fmap. by exists (userId, user).
Qed.
End MemoryFacts.

Section RedisFacts.
Implicit Types (db : RedisAdapter.t) (roomId userId : string).

Lemma redis_member_false_hget roomId userId db :
  RedisAdapter.member roomId userId db = false →
  RedisAdapter.hget (RedisAdapter.users_key roomId) userId db = None.
Proof.
  unfold RedisAdapter.member. intros Hm%bool_decide_eq_false.
  destruct (RedisAdapter.hget _ _ _) eqn:He; [|done].
  destruct Hm. right. by eexists.
Qed.

Lemma redis_updateUser_absent roomId userId updates db :
  RedisAdapter.member roomId userId db = false →
  RedisAdapter.updateUser roomId userId updates db = db.
Proof.
  intros Hm%redis_member_false_hget. unfold RedisAdapter.updateUser.
  by rewrite Hm.
Qed.

Lemma redis_joinRoom_hget roomId userId metadata db :
  RedisAdapter.hget (RedisAdapter.users_key roomId) userId
    (RedisAdapter.joinRoom roomId userId metadata db)
  = Some (fresh_user roomId userId metadata).
Proof.
  unfold RedisAdapter.joinRoom, RedisAdapter.hget, RedisAdapter.sadd,
    RedisAdapter.hset. simpl.
  rewrite lookup_insert_eq. simpl. by rewrite lookup_insert_eq.
Qed.

Lemma redis_joinRoom_smembers roomId userId metadata db :
  userId ∈ RedisAdapter.smembers (RedisAdapter.members_key roomId)
             (RedisAdapter.joinRoom roomId userId metadata db).
Proof.
  unfold RedisAdapter.joinRoom, RedisAdapter.smembers, RedisAdapter.sadd,
    RedisAdapter.hset. simpl.
  rewrite lookup_insert_eq. simpl. apply elem_of_elements. set_solver.
Qed.

Lemma redis_joinRoom_idempotent roomId userId metadata db :
  let db' := RedisAdapter.joinRoom roomId userId metadata db in
  RedisAdapter.joinRoom roomId userId metadata db' = db'.
Proof.
  unfold RedisAdapter.joinRoom, RedisAdapter.sadd, RedisAdapter.hset. simpl.
  rewrite !lookup_insert_eq. simpl.
  rewrite !insert_insert_eq. f_equal. f_equal.
  by rewrite (assoc_L (∪)), (idemp_L (∪)).
Qed.

Lemma redis_getUsers_joined roomId userId metadata db :
  fresh_user roomId userId metadata
  ∈ RedisAdapter.getUsers roomId
      (RedisAdapter.joinRoom roomId userId metadata db).
Proof.
  unfold RedisAdapter.getUsers.
  pose proof (redis_joinRoom_smembers roomId userId metadata db) as Hin.
  set (db' := RedisAdapter.joinRoom roomId userId metadata db) in *.
  destruct (decide _) as [Hlen|_].
  - apply nil_length_inv in Hlen. rewrite Hlen in Hin.
    by apply elem_of_nil in Hin.
  - apply list_elem_of_omap. exists (Some (fresh_user roomId userId metadata)).
    split; [|done]. unfold RedisAdapter.hmget. apply list_elem_of_fmap.
    exists userId. split; [|done].
    symmetry. apply redis_joinRoom_hget.
Qed.
End RedisFacts.

(** ** The relay server: what a broadcast delivers *)

Section ServerFacts.
Import Server.
Implicit Types (st : ServerState) (ws : WebSocket) (conn : ClientConnection).

Lemma with_outbox_id st : with_outbox (λ _, outbox st) st = st.
Proof. by destruct st. Qed.

Lemma fan_out_spec excluded payload roomConnections st :
  fan_out excluded payload roomConnections st
  = with_outbox
      (λ _, outbox st ++ deliveries excluded payload roomConnections st) st.
Proof.
  unfold deliveries.
  revert st. induction roomConnections as [|conn rest IH]; intros st; simpl.
  - rewrite app_nil_r. by rewrite with_outbox_id.
  - rewrite filter_cons.
    destruct (decide (excluded = Some (c_userId conn))) as [He|He].
    + rewrite decide_False by (by intros [? _]). apply IH.
    + destruct (decide (readyState (c_ws conn) st = OPEN)) as [Ho|Ho].
      * rewrite decide_True by done. rewrite IH. simpl.
        unfold exec, ws_send, modify, with_outbox. simpl.
        by rewrite <- app_assoc.
      * rewrite decide_False by (by intros [_ ?]). apply IH.
Qed.

Lemma forEach_invoke_spec callbacks message st :
  MemoryAdapter.forEach invoke callbacks message st
  = Returned (with_outbox
                (λ _, outbox st ++ broadcast_deliveries callbacks message st)
                st).
Proof.
  unfold broadcast_deliveries.
  revert st. induction callbacks as [|callback rest IH]; intros st; simpl.
  - rewrite app_nil_r. by rewrite with_outbox_id.
  - unfold callback_body. rewrite fan_out_spec, IH. f_equal.
    unfold with_outbox, bound_to, deliveries, readyState. simpl.
    by rewrite <- app_assoc.
Qed.

Lemma adapter_broadcast_spec roomId message st :
  adapter_broadcast roomId message st
  = (tt, with_outbox
           (λ _, outbox st
                 ++ broadcast_deliveries
                      (default [] (MemoryAdapter.subscribers (adapter st)
                                   !! roomId)) message st)
           (called (Broadcast roomId message) st)).
Proof.
  unfold adapter_broadcast, modify, MemoryAdapter.broadcast. f_equal. simpl.
  destruct (MemoryAdapter.subscribers (adapter st) !! roomId) as [cbs|];
    simpl.
  - by rewrite forEach_invoke_spec.
  - unfold broadcast_deliveries. simpl. rewrite app_nil_r.
    by destruct st.
Qed.

Lemma broadcastToRoom_spec roomId message excludeUserId st :
  broadcastToRoom roomId message excludeUserId st
  = let payload := match truthy excludeUserId with
                   | Some e => tagged message e
                   | None => message
                   end in
    (tt, with_outbox
           (λ _, outbox st
                 ++ broadcast_deliveries
                      (default [] (MemoryAdapter.subscribers (adapter st)
                                   !! roomId)) payload st)
           (called (Broadcast roomId payload) st)).
Proof. unfold broadcastToRoom. apply adapter_broadcast_spec. Qed.
End ServerFacts.

(** ** The relay server: what holds in every state *)

Section ServerInvariant.
Import Server.
Implicit Types (st : ServerState) (ws : WebSocket) (conn : ClientConnection).

Lemma preserves_ret {A} (a : A) : preserves (mret a).
Proof. by intros st. Qed.

Lemma preserves_bind {A B} (m : Srv A) (f : A → Srv B) :
  preserves m → (∀ a, preserves (f a)) → preserves (m ≫= f).
Proof.
  intros Hm Hf st Hinv. unfold mbind, Srv_bind.
  specialize (Hm st Hinv). destruct (m st) as [a st']. by apply Hf.
Qed.

Lemma inv_initial : inv initial.
Proof.
  split; simpl.
  - intros roomId. by rewrite !lookup_empty.
  - intros roomId callback. by rewrite lookup_empty.
  - apply NoDup_nil_2.
  - intros ws conn Hin. by apply elem_of_nil in Hin.
  - intros roomId room userId user. by rewrite lookup_empty.
Qed.

Lemma inv_frame st st' :
  MemoryAdapter.subscribers (adapter st')
  = MemoryAdapter.subscribers (adapter st) →
  MemoryAdapter.rooms (adapter st') = MemoryAdapter.rooms (adapter st) →
  roomSubscriptions st' = roomSubscriptions st →
  connections st' = connections st →
  inv st → inv st'.
Proof.
  intros Hs Ha Hr Hc [H1 H2 H3 H4 H5].
  split; rewrite ?Hs, ?Ha, ?Hr, ?Hc; done.
Qed.

(** The same, when only the rooms of the adapter change. *)
Lemma inv_rooms st (f : MemoryAdapter.t Callback → MemoryAdapter.t Callback)
    (g : ServerState → ServerState) :
  (∀ a, MemoryAdapter.subscribers (f a) = MemoryAdapter.subscribers a) →
  adapter (g st) = adapter st →
  roomSubscriptions (g st) = roomSubscriptions st →
  connections (g st) = connections st →
  (∀ roomId room userId user,
     MemoryAdapter.rooms (f (adapter st)) !! roomId = Some room →
     (userId, user) ∈ room → u_id user = userId) →
  inv st → inv (with_adapter f (g st)).
Proof.
  intros Hs Ha Hr Hc H5' [H1 H2 H3 H4 H5].
  split; simpl; rewrite ?Ha, ?Hs, ?Hr, ?Hc; done.
Qed.

Lemma preserves_get_connection ws : preserves (get_connection ws).
Proof. by intros st. Qed.

Lemma preserves_ws_send ws message : preserves (ws_send ws message).
Proof. intros st. by apply inv_frame. Qed.

Lemma preserves_sockets f st : inv st → inv (with_sockets f st).
Proof. by apply inv_frame. Qed.

Lemma preserves_adapter_joinRoom roomId userId metadata :
  preserves (adapter_joinRoom roomId userId metadata).
Proof.
  intros st Hinv. unfold adapter_joinRoom, modify. simpl.
  apply inv_rooms; try done.
  - intros a. unfold MemoryAdapter.joinRoom. by destruct (ohas _ _).
  - intros roomId' room userId' user. unfold MemoryAdapter.joinRoom, ohas.
    destruct (MemoryAdapter.rooms (adapter st) !! roomId) as [room0|]
      eqn:Hroom; simpl.
    + rewrite Hroom. simpl.
      destruct (oget userId room0) eqn:Huser; simpl;
        [apply (inv_own_id st Hinv)|].
      destruct (decide (roomId = roomId')) as [<-|Hne].
      * rewrite lookup_insert_eq. intros [= <-] [[-> ->]|Hin]%elem_of_oset;
          [done|]. by eapply (inv_own_id st Hinv).
      * rewrite lookup_insert_ne by done. apply (inv_own_id st Hinv).
    + rewrite lookup_insert_eq. simpl.
      destruct (decide (roomId = roomId')) as [<-|Hne].
      * rewrite lookup_insert_eq.
        intros [= <-] [= -> ->]%list_elem_of_singleton. done.
      * rewrite !lookup_insert_ne by done. apply (inv_own_id st Hinv).
Qed.

Lemma preserves_adapter_leaveRoom roomId userId :
  preserves (adapter_leaveRoom roomId userId).
Proof.
  intros st Hinv. unfold adapter_leaveRoom, modify. simpl.
  apply inv_rooms; try done.
  - intros a. unfold MemoryAdapter.leaveRoom. destruct (_ !! roomId); [|done].
    by destruct (decide _).
  - intros roomId' room userId' user. unfold MemoryAdapter.leaveRoom.
    destruct (MemoryAdapter.rooms (adapter st) !! roomId) as [room0|]
      eqn:Hroom; [|apply (inv_own_id st Hinv)].
    destruct (decide _); simpl.
    + destruct (decide (roomId = roomId')) as [<-|Hne].
      * by rewrite lookup_delete_eq.
      * rewrite lookup_delete_ne by done. apply (inv_own_id st Hinv).
    + destruct (decide (roomId = roomId')) as [<-|Hne].
      * rewrite lookup_insert_eq. intros [= <-] Hin%elem_of_odelete.
        by eapply (inv_own_id st Hinv).
      * rewrite lookup_insert_ne by done. apply (inv_own_id st Hinv).
Qed.

Lemma preserves_adapter_updateUser roomId userId updates :
  p_id updates = None →
  preserves (adapter_updateUser roomId userId updates).
Proof.
  intros Hid st Hinv. unfold adapter_updateUser, modify. simpl.
  apply inv_rooms; try done.
  - intros a. unfold MemoryAdapter.updateUser. destruct (_ !! roomId); [|done].
    by destruct (oget _ _).
  - intros roomId' room userId' user. unfold MemoryAdapter.updateUser.
    destruct (MemoryAdapter.rooms (adapter st) !! roomId) as [room0|]
      eqn:Hroom; [|apply (inv_own_id st Hinv)].
    destruct (oget userId room0) as [user0|] eqn:Huser;
      [|apply (inv_own_id st Hinv)]. simpl.
    destruct (decide (roomId = roomId')) as [<-|Hne].
    + rewrite lookup_insert_eq. intros [= <-] [[-> ->]|Hin]%elem_of_oset.
      * unfold assign. simpl. rewrite Hid. simpl.
        eapply (inv_own_id st Hinv); [done|]. by apply oget_Some_elem_of.
      * by eapply (inv_own_id st Hinv).
    + rewrite lookup_insert_ne by done. apply (inv_own_id st Hinv).
Qed.

Lemma preserves_adapter_getUsers roomId : preserves (adapter_getUsers roomId).
Proof. intros st. by apply inv_frame. Qed.

Lemma preserves_broadcastToRoom roomId message excludeUserId :
  preserves (broadcastToRoom roomId message excludeUserId).
Proof. intros st. rewrite broadcastToRoom_spec. by apply inv_frame. Qed.

Lemma preserves_subscribeToRoom roomId : preserves (subscribeToRoom roomId).
Proof.
  intros st [H1 H2 H3 H4 H5]. unfold subscribeToRoom.
  destruct (roomSubscriptions st !! roomId) as [callback|] eqn:Hsub;
    [done|].
  pose proof (H1 roomId) as Hnone. rewrite Hsub in Hnone. simpl in Hnone.
  split; simpl; [| |done|done|done].
  - intros roomId'. unfold MemoryAdapter.subscribe. simpl. rewrite Hnone.
    rewrite lookup_insert_eq. simpl.
    destruct (decide (roomId = roomId')) as [<-|Hne].
    + by rewrite !lookup_insert_eq.
    + rewrite !lookup_insert_ne by done. apply H1.
  - intros roomId' callback.
    destruct (decide (roomId = roomId')) as [<-|Hne].
    + rewrite lookup_insert_eq. by intros [= <-].
    + rewrite lookup_insert_ne by done. apply H2.
Qed.

Lemma preserves_unsubscribeFromRoom roomId :
  preserves (unsubscribeFromRoom roomId).
Proof.
  intros st [H1 H2 H3 H4 H5]. unfold unsubscribeFromRoom.
  destruct (roomSubscriptions st !! roomId) as [callback|] eqn:Hsub;
    [|done].
  pose proof (H1 roomId) as Hsome. rewrite Hsub in Hsome. simpl in Hsome.
  split; simpl; [| |done|done|].
  - intros roomId'. unfold MemoryAdapter.unsubscribe. simpl. rewrite Hsome.
    simpl. destruct (decide (callback = callback)); [simpl|done].
    destruct (decide (roomId = roomId')) as [<-|Hne].
    + by rewrite !lookup_delete_eq.
    + rewrite !lookup_delete_ne by done. apply H1.
  - intros roomId' callback'.
    destruct (decide (roomId = roomId')) as [<-|Hne].
    + by rewrite lookup_delete_eq.
    + rewrite lookup_delete_ne by done. apply H2.
  - intros roomId' room userId user. unfold MemoryAdapter.unsubscribe.
    rewrite Hsome. destruct (decide _); apply H5.
Qed.

Lemma preserves_set_connection ws conn :
  c_ws conn = ws → preserves (set_connection ws conn).
Proof.
  intros Hws st [H1 H2 H3 H4 H5]. split; simpl; [done|done| | |done].
  - by apply NoDup_okeys_oset.
  - intros ws' conn' [[-> ->]|Hin]%elem_of_oset; [done | by apply H4].
Qed.

Lemma preserves_delete_connection ws :
  preserves (modify (with_connections (odelete ws))).
Proof.
  intros st [H1 H2 H3 H4 H5]. split; simpl; [done|done| | |done].
  - by apply NoDup_okeys_odelete.
  - intros ws' conn' Hin%elem_of_odelete. by apply H4.
Qed.
End ServerInvariant.

Create HintDb preserves.

Section ServerReachable.
Import Server.
Implicit Types (st : ServerState) (ws : WebSocket) (conn : ClientConnection).

Local Hint Resolve preserves_ret preserves_get_connection preserves_ws_send
  preserves_adapter_joinRoom preserves_adapter_leaveRoom
  preserves_adapter_getUsers
  preserves_broadcastToRoom preserves_subscribeToRoom
  preserves_unsubscribeFromRoom preserves_delete_connection : preserves.

Ltac preserves_step :=
  match goal with
  | |- preserves (_ ≫= _) => apply preserves_bind; [|intros ?]
  | |- preserves (set_connection _ _) =>
      apply preserves_set_connection; simpl; done
  | |- preserves (adapter_updateUser _ _ _) =>
      apply preserves_adapter_updateUser; simpl; done
  | |- preserves (match (match ?y with _ => _ end) with _ => _ end) =>
      destruct y; simpl
  | |- preserves (match ?x with _ => _ end) => destruct x
  | |- preserves _ => solve [auto with preserves]
  end.

Lemma inv_own_handle_oget st ws conn :
  inv st → oget ws (connections st) = Some conn → c_ws conn = ws.
Proof. intros Hinv Hget%oget_Some_elem_of. by apply (inv_own_handle st). Qed.

Lemma preserves_handle_message auth ws connection data uuid :
  (∀ conn, connection = Some conn → c_ws conn = ws) →
  preserves (handle_message auth ws connection data uuid).
Proof.
  intros Hws. unfold handle_message, room_switch.
  destruct connection as [conn|].
  - specialize (Hws conn eq_refl).
    destruct (m_type data); repeat preserves_step.
  - destruct (m_type data); repeat preserves_step.
Qed.

Lemma inv_on_message auth ws data uuid st :
  inv st → inv (exec (on_message auth ws data uuid) st).
Proof.
  intros Hinv. unfold exec, on_message, mbind, Srv_bind, get_connection.
  apply preserves_handle_message; [|done].
  intros conn Hconn. by eapply inv_own_handle_oget.
Qed.

Lemma inv_on_close ws st : inv st → inv (exec (on_close ws) st).
Proof.
  intros Hinv. unfold exec, on_close, mbind at 1, Srv_bind at 1,
    get_connection.
  revert Hinv. generalize st at 1 3. intros st' Hinv. revert st' Hinv.
  change (preserves
    (match oget ws (connections st) with
     | Some conn =>
         adapter_leaveRoom (c_roomId conn) (c_userId conn) ;;
         unsubscribeFromRoom (c_roomId conn) ;;
         users ← adapter_getUsers (c_roomId conn);
         broadcastToRoom (c_roomId conn) (presence users) None ;;
         modify (with_connections (odelete ws))
     | None => mret tt
     end)).
  repeat preserves_step.
Qed.

Lemma inv_step auth ev st : inv st → inv (step auth ev st).
Proof.
  intros Hinv. destruct ev as [ws|ws [data|e] uuid|ws]; simpl.
  - by apply preserves_sockets.
  - by apply inv_on_message.
  - by apply preserves_ws_send.
  - by apply inv_on_close, preserves_sockets.
Qed.

Lemma reachable_inv auth st : reachable auth st → inv st.
Proof.
  induction 1 as [|st ev _ IH]; [apply inv_initial | by apply inv_step].
Qed.

Lemma reachable_run auth evs st :
  reachable auth st → reachable auth (run auth evs st).
Proof.
  revert st. induction evs as [|ev evs IH]; intros st Hst; simpl; [done|].
  apply IH. by constructor.
Qed.
End ServerReachable.

(** ** The relay server: the handlers *)

Section ServerHandlers.
Import Server.
Implicit Types (st : ServerState) (ws : WebSocket) (conn : ClientConnection).

Lemma exec_bind {A B} (m : Srv A) (f : A → Srv B) st :
  exec (m ≫= f) st = exec (f (m st).1) (exec m st).
Proof. unfold exec, mbind, Srv_bind. by destruct (m st). Qed.

Lemma exec_broadcastToRoom roomId message excludeUserId st :
  exec (broadcastToRoom roomId message excludeUserId) st
  = let payload := match truthy excludeUserId with
                   | Some e => tagged message e
                   | None => message
                   end in
    with_outbox
      (λ _, outbox st
            ++ broadcast_deliveries
                 (default [] (MemoryAdapter.subscribers (adapter st)
                              !! roomId)) payload st)
      (called (Broadcast roomId payload) st).
Proof. unfold exec. by rewrite broadcastToRoom_spec. Qed.

Lemma subscribeToRoom_frame roomId st :
  let st' := exec (subscribeToRoom roomId) st in
  connections st' = connections st
  ∧ MemoryAdapter.rooms (adapter st') = MemoryAdapter.rooms (adapter st)
  ∧ outbox st' = outbox st ∧ sockets st' = sockets st.
Proof.
  unfold exec, subscribeToRoom. by destruct (roomSubscriptions st !! roomId).
Qed.

Lemma unsubscribeFromRoom_frame roomId st :
  let st' := exec (unsubscribeFromRoom roomId) st in
  connections st' = connections st
  ∧ MemoryAdapter.rooms (adapter st') = MemoryAdapter.rooms (adapter st)
  ∧ outbox st' = outbox st ∧ sockets st' = sockets st.
Proof.
  unfold exec, unsubscribeFromRoom.
  destruct (roomSubscriptions st !! roomId); [|done]. simpl.
  split_and!; try done. unfold MemoryAdapter.unsubscribe.
  destruct (_ !! roomId); [|done]. by destruct (decide _).
Qed.

(** A user that a room does not hold under its identity is not found in
    the list of the room either. *)
Lemma find_user_absent st roomId userId :
  inv st →
  MemoryAdapter.entry roomId userId (adapter st) = None →
  find_user userId (members roomId st) = None.
Proof.
  intros Hinv. unfold MemoryAdapter.entry, members, MemoryAdapter.getUsers.
  destruct (MemoryAdapter.rooms (adapter st) !! roomId) as [room|] eqn:Hroom;
    simpl; [|done].
  intros Hnone. unfold find_user.
  destruct (find _ _) as [user|] eqn:Hfind; [|done]. exfalso.
  apply find_some in Hfind as [Hin Hid].
  apply bool_decide_eq_true in Hid.
  apply list_elem_of_In, list_elem_of_fmap in Hin as ([k user'] & -> & Hin).
  simpl in Hid. pose proof (inv_own_id st Hinv _ _ _ _ Hroom Hin) as Hk.
  simpl in Hk. apply oget_None_okeys in Hnone. apply Hnone.
  apply list_elem_of_fmap. exists (k, user'). split; [|done]. simpl.
  congruence.
Qed.

(** What one socket gets from a run of a room's callback. *)
Lemma received_deliveries ws excluded payload roomId st :
  NoDup (okeys (connections st)) →
  (∀ ws' conn, (ws', conn) ∈ connections st → c_ws conn = ws') →
  map snd (filter (λ e, e.1 = ws)
             (deliveries excluded payload (bound_to roomId st) st))
  = match oget ws (connections st) with
    | Some conn =>
        if decide (c_roomId conn = roomId
                   ∧ excluded ≠ Some (c_userId conn)
                   ∧ readyState ws st = OPEN)
        then [payload] else []
    | None => []
    end.
Proof.
  unfold deliveries, bound_to, readyState.
  generalize (sockets st) as socks. generalize (connections st) as m.
  induction m as [|[ws' conn'] m IH]; intros socks Hnd Hown; simpl; [done|].
  simpl in Hnd. apply NoDup_cons in Hnd as [Hnotin Hnd].
  assert (c_ws conn' = ws') as Hc by (apply Hown, list_elem_of_here).
  assert (∀ ws2 conn, (ws2, conn) ∈ m → c_ws conn = ws2) as Hown'
    by (intros ???; apply Hown; by apply list_elem_of_further).
  specialize (IH socks Hnd Hown').
  destruct (decide (ws = ws')) as [->|Hne].
  - apply oget_None_okeys in Hnotin. rewrite Hnotin in IH.
    rewrite filter_cons.
    destruct (decide (c_roomId conn' = roomId)) as [Hr|Hr];
      [|rewrite decide_False by tauto; exact IH].
    rewrite filter_cons. rewrite Hc.
    destruct (decide (excluded ≠ Some (c_userId conn')
                      ∧ default CLOSED (socks !! ws') = OPEN)) as [Hq|Hq].
    + rewrite decide_True by tauto. simpl. rewrite filter_cons. simpl.
      rewrite Hc. rewrite decide_True by done. simpl. by rewrite IH.
    + rewrite decide_False by tauto. exact IH.
  - rewrite filter_cons.
    destruct (decide (c_roomId conn' = roomId)) as [Hr|Hr]; [|exact IH].
    rewrite filter_cons.
    destruct (decide (excluded ≠ Some (c_userId conn')
                      ∧ default CLOSED (socks !! c_ws conn') = OPEN))
      as [Hq|Hq]; [|exact IH].
    simpl. rewrite filter_cons. simpl. rewrite Hc.
    rewrite decide_False by congruence. exact IH.
Qed.

Lemma received_app ws st (extra : list (WebSocket * ServerMessage)) f :
  received ws (with_outbox (λ _, outbox st ++ extra) (f st))
  = received ws st ++ map snd (filter (λ e, e.1 = ws) extra).
Proof. unfold received. simpl. by rewrite filter_app, map_app. Qed.
End ServerHandlers.

(** ** The relay server: the properties of the specification *)

Section ServerClaims.
Import Server.
Implicit Types (st : ServerState) (ws : WebSocket) (conn : ClientConnection).

(** C3. A broadcast tagged with an excluded identity: every connection of
    the room whose socket is open and whose identity differs from the
    excluded one is sent the message once, as long as the room has its
    subscriber registered; a connection whose identity is the excluded one
    is sent nothing; and whatever the broadcast sends is the message itself,
    field by field, without the [_excludeUserId] key. *)
Theorem C3_broadcast_excludes_tagged_identity auth st roomId message e :
  reachable auth st →
  e ≠ "" →
  let st' := exec (broadcastToRoom roomId message (Some e)) st in
  let delivered :=
    {| s_type := s_type message; s_users := s_users message;
       s_user := s_user message; s_error_text := s_error_text message;
       s_event := s_event message; s_data := s_data message;
       _excludeUserId := None |} in
  (∀ ws conn,
     oget ws (connections st) = Some conn → c_roomId conn = roomId →
     is_Some (roomSubscriptions st !! roomId) →
     c_userId conn ≠ e → readyState ws st = OPEN →
     received ws st' = received ws st ++ [delivered])
  ∧ (∀ ws conn,
       oget ws (connections st) = Some conn → c_userId conn = e →
       received ws st' = received ws st)
  ∧ (∀ ws m,
       (ws, m) ∈ drop (length (outbox st)) (outbox st') →
       m = delivered ∧ _excludeUserId m = None
       ∧ ∃ conn, oget ws (connections st) = Some conn
                 ∧ c_roomId conn = roomId ∧ c_userId conn ≠ e).
Proof.
  intros Hreach He st' delivered.
  pose proof (reachable_inv auth st Hreach) as Hinv.
  pose proof (inv_subscribers st Hinv roomId) as Hsubs.
  destruct (roomSubscriptions st !! roomId) as [callback|] eqn:Hsub;
    simpl in Hsubs.
  - pose proof (inv_cb_room st Hinv roomId callback Hsub) as Hroom.
    assert (st' = with_outbox
              (λ _, outbox st
                    ++ deliveries (Some e) delivered (bound_to roomId st) st)
              (called (Broadcast roomId (tagged message e)) st)) as Hst'.
    { subst st'. rewrite exec_broadcastToRoom. simpl.
      rewrite decide_False by done. rewrite Hsubs. simpl.
      unfold broadcast_deliveries. simpl. rewrite Hroom.
      by rewrite app_nil_r. }
    pose proof (λ ws, received_deliveries ws (Some e) delivered
                        roomId st (inv_sockets_once st Hinv)
                        (inv_own_handle st Hinv)) as Hrecv.
    split_and!.
    + intros ws conn Hget Hr _ Hu Hopen.
      rewrite Hst', received_app, Hrecv, Hget.
      rewrite decide_True; [done|]. split_and!; [done| |done]. congruence.
    + intros ws conn Hget Hu. rewrite Hst', received_app, Hrecv, Hget.
      rewrite decide_False; [by rewrite app_nil_r|].
      intros (_ & Hne & _). by rewrite Hu in Hne.
    + intros ws m. rewrite Hst'. simpl. rewrite drop_app_length.
      unfold deliveries, bound_to.
      intros (conn & [= -> ->]
              & [[Hne _] [Hr Hin]%list_elem_of_filter]%list_elem_of_filter)
             %list_elem_of_fmap.
      split_and!; [done..|]. exists conn. split_and!; [|done|congruence].
      apply list_elem_of_fmap in Hin as ([ws' conn'] & -> & Hin).
      simpl. rewrite (inv_own_handle st Hinv ws' conn' Hin).
      by apply elem_of_oget; [apply (inv_sockets_once st Hinv)|].
  - assert (st' = with_outbox (λ _, outbox st ++ [])
              (called (Broadcast roomId (tagged message e)) st)) as Hst'.
    { subst st'. rewrite exec_broadcastToRoom. simpl.
      rewrite decide_False by done. by rewrite Hsubs. }
    split_and!.
    + by intros ws conn _ _ [? ?].
    + intros ws conn _ _. rewrite Hst', received_app. apply app_nil_r.
    + intros ws m. rewrite Hst'. simpl. rewrite drop_app_length.
      by intros ?%elem_of_nil.
Qed.

Lemma C3_broadcast_excludes_tagged_identity_witness :
  let message :=
    {| s_type := s_update; s_users := None;
       s_user := Some (fresh_user "r1" "u1" None); s_error_text := None;
       s_event := None; s_data := None; _excludeUserId := Some "u2" |} in
  let st' := exec (broadcastToRoom "r1" message (Some "u1")) two_in_r1 in
  received 2 st'
  = received 2 two_in_r1 ++ [update (fresh_user "r1" "u1" None)]
  ∧ received 1 st' = received 1 two_in_r1.
Proof.
  intros message. cbv zeta.
  assert (reachable None two_in_r1) as Hreach
    by apply reachable_run, reachable_initial.
  assert ("u1" ≠ "") as Hne by done.
  destruct (C3_broadcast_excludes_tagged_identity None two_in_r1 "r1"
              message "u1" Hreach Hne) as (Hothers & Hself & _).
  split.
  - apply (Hothers 2%nat
             {| c_ws := 2; c_userId := "u2"; c_roomId := "r1";
                c_metadata := None |}); try by vm_compute.
    vm_compute. by eexists.
  - apply (Hself 1%nat
             {| c_ws := 1; c_userId := "u1"; c_roomId := "r1";
                c_metadata := None |}); by vm_compute.
Defined.
(** C9, as stated, fails: a socket that has not joined and sends a ping is
    answered with the error of the unauthenticated guard, not with a pong. *)
Lemma C9_ping_before_join_counterexample :
  let st := step None (Connection 1) initial in
  let st' := step None (Message 1 (Parsed (message_of ping_t)) "") st in
  received 1 st' = [error "Not authenticated. Send join message first."]
  ∧ pong ∉ received 1 st'.
Proof.
  split; [by vm_compute|]. vm_compute.
  intros [Heq|Hin%elem_of_nil]%elem_of_cons; [discriminate | done].
Qed.

(** C9, amended. A ping is answered to its sender alone, and nothing else
    of the server changes (no adapter call, no broadcast, the binding as it
    was): with a pong when the socket has joined, with the error of the
    unauthenticated guard when it has not. *)
Theorem C9_ping_answered_to_sender auth st ws data uuid :
  m_type data = ping_t →
  exec (on_message auth ws data uuid) st
  = with_outbox
      (λ o, o ++ [(ws, match oget ws (connections st) with
                       | Some _ => pong
                       | None =>
                           error "Not authenticated. Send join message first."
                       end)]) st.
Proof.
  intros Htype.
  unfold exec, on_message, handle_message, mbind, Srv_bind, get_connection.
  rewrite Htype. by destruct (oget ws (connections st)).
Qed.

Lemma C9_ping_answered_to_sender_witness :
  exec (on_message None 1 (message_of ping_t) "") two_in_r1
  = with_outbox (λ o, o ++ [(1%nat, pong)]) two_in_r1.
Proof.
  exact (C9_ping_answered_to_sender None two_in_r1 1 (message_of ping_t) ""
           eq_refl).
Defined.

(** C10, as stated, fails when the room is left out by a connection bound
    to a room other than default: the new identity joins default, and no
    room holds both the new and the previous identity. *)
Lemma C10_join_without_room_counterexample :
  let st := run None [Connection 1; Message 1 (Parsed (join (Some "r1"))) "u1"]
              initial in
  let st' := step None (Message 1 (Parsed (join None)) "u2") st in
  map c_roomId (ovalues (connections st)) = ["r1"]
  ∧ map u_id (members "r1" st') = ["u1"]
  ∧ find_user "u2" (members "r1" st') = None
  ∧ map u_id (members "default" st') = ["u2"]
  ∧ map c_roomId (ovalues (connections st')) = ["default"].
Proof. by vm_compute. Qed.

(** C10, amended. Without authentication, a join from a bound connection
    that names its current room or no room (then the room is default) binds
    the connection to a fresh identity in that room and makes the identity a
    member of that room; the entry of the previous identity, in the room the
    connection was bound to, stays as it was. When a room is named, it is
    the room the connection was bound to. *)
Theorem C10_second_join_leaves_previous_identity st ws conn data uuid :
  oget ws (connections st) = Some conn →
  m_type data = join_t →
  room_switch (Some conn) data = None →
  let roomId := default "default" (truthy (m_roomId data)) in
  let st' := exec (on_message None ws data uuid) st in
  oget ws (connections st')
  = Some {| c_ws := ws; c_userId := uuid; c_roomId := roomId;
            c_metadata := m_metadata data |}
  ∧ MemoryAdapter.member roomId uuid (adapter st') = true
  ∧ (∀ old,
       MemoryAdapter.entry (c_roomId conn) (c_userId conn) (adapter st)
       = Some old →
       MemoryAdapter.entry (c_roomId conn) (c_userId conn) (adapter st')
       = Some old)
  ∧ (is_Some (truthy (m_roomId data)) → roomId = c_roomId conn).
Proof.
  intros Hget Htype Hswitch roomId.
  unfold on_message, handle_message. rewrite exec_bind.
  unfold get_connection at 1 2. simpl. rewrite Hget, Htype, Hswitch.
  fold roomId. rewrite !exec_bind, exec_broadcastToRoom.
  set (st1 := exec (adapter_joinRoom _ _ _) _).
  destruct (subscribeToRoom_frame roomId st1) as (Hc & Hr & _).
  unfold MemoryAdapter.member, MemoryAdapter.entry. simpl.
  rewrite Hc, Hr. subst st1. simpl.
  pose proof (memory_joinRoom_entry roomId uuid (m_metadata data) (adapter st))
    as Hnew. unfold MemoryAdapter.entry in Hnew.
  split_and!.
  - apply oget_oset_eq.
  - apply bool_decide_eq_true. unfold exec, get_connection. simpl.
    rewrite Hnew. by eexists.
  - intros old Hold. unfold exec, get_connection. simpl.
    destruct (decide ((c_roomId conn, c_userId conn) = (roomId, uuid)))
      as [[= Hroom Huser]|Hne].
    + rewrite Hroom, Huser in Hold |- *. rewrite Hnew. by rewrite Hold.
    + pose proof (memory_joinRoom_other roomId uuid (m_metadata data)
                    (c_roomId conn) (c_userId conn) (adapter st) Hne) as Ho.
      unfold MemoryAdapter.entry in Ho. by rewrite Ho.
  - intros [r Hr']. subst roomId. rewrite Hr'. simpl.
    unfold room_switch in Hswitch. rewrite Hr' in Hswitch.
    destruct (decide (r ≠ c_roomId conn)) as [|Heq]; [done|].
    by apply dec_stable in Heq.
Qed.

Lemma C10_second_join_leaves_previous_identity_witness :
  let st' := exec (on_message None 1 (join (Some "r1")) "u9") two_in_r1 in
  oget 1%nat (connections st')
  = Some {| c_ws := 1; c_userId := "u9"; c_roomId := "r1";
            c_metadata := None |}
  ∧ MemoryAdapter.member "r1" "u9" (adapter st') = true
  ∧ MemoryAdapter.entry "r1" "u1" (adapter st')
    = Some (fresh_user "r1" "u1" None).
Proof.
  destruct (C10_second_join_leaves_previous_identity two_in_r1 1
              {| c_ws := 1; c_userId := "u1"; c_roomId := "r1";
                 c_metadata := None |} (join (Some "r1")) "u9"
              eq_refl eq_refl eq_refl) as (Hbound & Hmember & Hold & _).
  split_and!; [exact Hbound | exact Hmember | by apply Hold].
Defined.

(** Whatever connections remain bound to it, a room has no subscriber once
    [unsubscribeFromRoom] has run for it. *)
Lemma unsubscribeFromRoom_drops_subscriber st roomId :
  inv st →
  let st' := exec (unsubscribeFromRoom roomId) st in
  roomSubscriptions st' !! roomId = None
  ∧ MemoryAdapter.subscribers (adapter st') !! roomId = None
  ∧ connections st' = connections st.
Proof.
  intros Hinv st'.
  pose proof (preserves_unsubscribeFromRoom roomId st Hinv) as Hinv'.
  fold (exec (unsubscribeFromRoom roomId) st) in Hinv'. fold st' in Hinv'.
  assert (roomSubscriptions st' !! roomId = None) as Hnone.
  { subst st'. unfold exec, unsubscribeFromRoom.
    destruct (roomSubscriptions st !! roomId) eqn:Hsub; [|done].
    simpl. apply lookup_delete_eq. }
  split_and!; [done| |].
  - rewrite (inv_subscribers st' Hinv'). by rewrite Hnone.
  - by destruct (unsubscribeFromRoom_frame roomId st) as (Hc & _).
Qed.

Lemma subscribeToRoom_broadcasts roomId st r m :
  Broadcast r m ∈ calls (exec (subscribeToRoom roomId) st) →
  Broadcast r m ∈ calls st.
Proof.
  unfold exec, subscribeToRoom.
  destruct (roomSubscriptions st !! roomId); [done|]. simpl.
  rewrite elem_of_app, list_elem_of_singleton. by intros [?|?].
Qed.

Lemma unsubscribeFromRoom_broadcasts roomId st r m :
  Broadcast r m ∈ calls (exec (unsubscribeFromRoom roomId) st) →
  Broadcast r m ∈ calls st.
Proof.
  unfold exec, unsubscribeFromRoom.
  destruct (roomSubscriptions st !! roomId); [|done]. simpl.
  rewrite elem_of_app, list_elem_of_singleton. by intros [?|?].
Qed.

(** In any state, the broadcasts of a room switch all go to the new room. *)
Lemma room_switch_broadcasts_to_new_room auth st ws conn data uuid roomId :
  oget ws (connections st) = Some conn →
  m_type data = join_t →
  room_switch (Some conn) data = Some (conn, roomId) →
  let st' := exec (on_message auth ws data uuid) st in
  ∀ r m, Broadcast r m ∈ calls st' → Broadcast r m ∈ calls st ∨ r = roomId.
Proof.
  intros Hget Htype Hswitch st' r m. subst st'.
  unfold on_message, handle_message. rewrite exec_bind.
  unfold get_connection at 1 2. simpl. rewrite Hget, Htype, Hswitch.
  rewrite !exec_bind, exec_broadcastToRoom. simpl.
  rewrite elem_of_app, list_elem_of_singleton.
  intros [Hin|[= -> _]]; [left | by right].
  unfold exec at 1, adapter_getUsers in Hin. simpl in Hin.
  rewrite elem_of_app, list_elem_of_singleton in Hin.
  destruct Hin as [Hin|?]; [|done].
  apply subscribeToRoom_broadcasts in Hin.
  unfold exec at 1, adapter_joinRoom, modify in Hin. simpl in Hin.
  rewrite elem_of_app, list_elem_of_singleton in Hin.
  destruct Hin as [Hin|?]; [|done].
  unfold exec at 1, set_connection, modify in Hin. simpl in Hin.
  apply unsubscribeFromRoom_broadcasts in Hin.
  unfold exec, adapter_leaveRoom, modify in Hin. simpl in Hin.
  rewrite elem_of_app, list_elem_of_singleton in Hin.
  by destruct Hin as [Hin|?].
Qed.

(** C1: the failing run. Of two connections bound to room r1, one switches
    to room r2, or closes: the callback of r1 is taken out of
    [roomSubscriptions] and out of the adapter although the other
    connection is still bound to r1. With three connections, after one has
    closed, a typing update of the second no longer reaches the third. *)
Theorem C1_subscriber_removed_while_room_is_occupied :
  let switched :=
    step None (Message 1 (Parsed (join (Some "r2"))) "") two_in_r1 in
  let closed := step None (Close 1) two_in_r1 in
  let closed3 := step None (Close 1) three_in_r1 in
  let typed :=
    step None
      (Message 2
         (Parsed {| m_type := typing_t; m_roomId := Some "r1";
                    m_position := None; m_isTyping := Some true;
                    m_token := None; m_metadata := None; m_event := None;
                    m_data := None |}) "") closed3 in
  (map c_userId (bound_to "r1" switched) = ["u2"]
   ∧ roomSubscriptions switched !! "r1" = None
   ∧ MemoryAdapter.subscribers (adapter switched) !! "r1" = None)
  ∧ (map c_userId (bound_to "r1" closed) = ["u2"]
     ∧ roomSubscriptions closed !! "r1" = None
     ∧ MemoryAdapter.subscribers (adapter closed) !! "r1" = None)
  ∧ (map c_userId (bound_to "r1" closed3) = ["u2"; "u3"]
     ∧ readyState 3 typed = OPEN
     ∧ received 3 typed = received 3 closed3).
Proof. by vm_compute. Qed.

(** C2: the failing run. Of two connections bound to room r1, the first
    sends a join for room r2. The adapter is called to leave r1, to
    unsubscribe r1, to join r2, to subscribe r2, to list r2 and to
    broadcast the presence of r2; no presence is broadcast to r1, and the
    connection that stays in r1 is sent nothing. *)
Theorem C2_room_switch_broadcasts_to_new_room_only :
  let st := two_in_r1 in
  let st' := step None (Message 1 (Parsed (join (Some "r2"))) "") st in
  let u1 := fresh_user "r2" "u1" None in
  drop (length (calls st)) (calls st')
  = [LeaveRoom "r1" "u1";
     Unsubscribe "r1" {| cb_id := 0; cb_room := "r1" |};
     JoinRoom "r2" "u1" None;
     Subscribe "r2" {| cb_id := 1; cb_room := "r2" |};
     GetUsers "r2";
     Broadcast "r2" (presence [u1])]
  ∧ drop (length (outbox st)) (outbox st') = [(1%nat, presence [u1])]
  ∧ received 2 st' = received 2 st
  ∧ map c_userId (bound_to "r1" st') = ["u2"]
  ∧ map c_userId (bound_to "r2" st') = ["u1"].
Proof. by vm_compute. Qed.
(** A cursor or typing message from a connection whose identity the room
    does not hold: the store stays as it is, nothing is sent, and no
    broadcast is asked of the adapter. *)
Lemma update_of_absent_user_is_silent auth st ws conn data uuid :
  reachable auth st →
  oget ws (connections st) = Some conn →
  MemoryAdapter.member (c_roomId conn) (c_userId conn) (adapter st) = false →
  m_type data = cursor_t ∨ m_type data = typing_t →
  let st' := exec (on_message auth ws data uuid) st in
  adapter st' = adapter st ∧ outbox st' = outbox st
  ∧ (∀ roomId message,
       Broadcast roomId message ∈ calls st' →
       Broadcast roomId message ∈ calls st).
Proof.
  intros Hinv%reachable_inv Hget Habsent%member_false_entry Htype.
  pose proof (find_user_absent st _ _ Hinv Habsent) as Hfind.
  unfold members in Hfind.
  unfold on_message, handle_message. rewrite exec_bind.
  unfold get_connection at 1 2. simpl. rewrite Hget.
  assert (∀ updates,
    exec (adapter_updateUser (c_roomId conn) (c_userId conn) updates ;;
          users ← adapter_getUsers (c_roomId conn);
          match find_user (c_userId conn) users with
          | Some user =>
              broadcastToRoom (c_roomId conn) (update user)
                (Some (c_userId conn))
          | None => mret tt
          end) st
    = called (GetUsers (c_roomId conn))
        (called (UpdateUser (c_roomId conn) (c_userId conn) updates) st))
    as Hrun.
  { intros updates. rewrite !exec_bind. unfold adapter_updateUser, modify.
    simpl. rewrite (memory_updateUser_absent _ _ _ _ Habsent).
    rewrite Hfind. unfold exec, called, with_adapter, with_calls. simpl.
    by rewrite (memory_updateUser_absent _ _ _ _ Habsent). }
  destruct Htype as [Htype|Htype]; rewrite Htype.
  - destruct (m_position data); [rewrite Hrun; simpl|done].
    split_and!; [done|done|]. intros roomId message.
    rewrite !elem_of_app, !list_elem_of_singleton.
    by intros [[?|?]|?].
  - destruct (m_isTyping data); [rewrite Hrun; simpl|done].
    split_and!; [done|done|]. intros roomId message.
    rewrite !elem_of_app, !list_elem_of_singleton.
    by intros [[?|?]|?].
Qed.

(** C5. [updateUser] for an identity that the room does not hold changes
    nothing: the store is as before (no entry is created, the room has as
    many members), nothing is sent and the only call on the adapter is the
    update itself; the same for the store of the distributed adapter; and
    the handlers of cursor and typing messages, which follow the update
    with a broadcast, broadcast nothing then. *)
Theorem C5_updateUser_of_absent_user_changes_nothing st roomId userId updates :
  MemoryAdapter.member roomId userId (adapter st) = false →
  let st' := exec (adapter_updateUser roomId userId updates) st in
  adapter st' = adapter st
  ∧ MemoryAdapter.member roomId userId (adapter st') = false
  ∧ length (members roomId st') = length (members roomId st)
  ∧ outbox st' = outbox st
  ∧ calls st' = calls st ++ [UpdateUser roomId userId updates]
  ∧ (∀ db, RedisAdapter.member roomId userId db = false →
           RedisAdapter.updateUser roomId userId updates db = db)
  ∧ (∀ auth ws conn data uuid,
       reachable auth st →
       oget ws (connections st) = Some conn →
       c_roomId conn = roomId → c_userId conn = userId →
       m_type data = cursor_t ∨ m_type data = typing_t →
       let st2 := exec (on_message auth ws data uuid) st in
       adapter st2 = adapter st ∧ outbox st2 = outbox st
       ∧ (∀ r m, Broadcast r m ∈ calls st2 → Broadcast r m ∈ calls st)).
Proof.
  intros Habsent st'.
  assert (adapter st' = adapter st) as Hsame.
  { subst st'. unfold exec, adapter_updateUser, modify. simpl.
    by apply memory_updateUser_absent, member_false_entry. }
  split_and!; try done.
  - by rewrite Hsame.
  - unfold members. by rewrite Hsame.
  - intros db. apply redis_updateUser_absent.
  - intros auth ws conn data uuid Hreach Hget <- <- Htype.
    by apply (update_of_absent_user_is_silent auth st ws conn).
Qed.

Lemma C5_updateUser_of_absent_user_changes_nothing_witness :
  let updates := {| p_id := None; p_roomId := None; p_cursor := None;
                    p_typing := Some true; p_metadata := None |} in
  let st' := exec (adapter_updateUser "r1" "u7" updates) two_in_r1 in
  adapter st' = adapter two_in_r1
  ∧ length (members "r1" st') = 2%nat
  ∧ outbox st' = outbox two_in_r1.
Proof.
  destruct (C5_updateUser_of_absent_user_changes_nothing two_in_r1 "r1" "u7"
              {| p_id := None; p_roomId := None; p_cursor := None;
                 p_typing := Some true; p_metadata := None |} eq_refl)
    as (Hstore & _ & Hsize & Hsent & _).
  split_and!; [exact Hstore | by rewrite Hsize | exact Hsent].
Defined.
End ServerClaims.

(** ** The adapters: the properties of the specification *)

Section BroadcastOrder.
Context {Callback W : Type} `{EqDecision Callback}.
Variable invoke : Callback → ServerMessage → W → Completion W.

Lemma forEach_all_return callbacks message w noted :
  Forall (returns invoke message) callbacks →
  ∃ w', MemoryAdapter.forEach (noting invoke) callbacks message (w, noted)
        = Returned (w', noted ++ callbacks).
Proof.
  intros Hall. revert w noted.
  induction Hall as [|callback rest Hret _ IH]; intros w noted; simpl.
  - exists w. by rewrite app_nil_r.
  - unfold noting at 1. simpl. destruct (Hret w) as [w1 ->].
    destruct (IH w1 (noted ++ [callback])) as [w2 ->].
    exists w2. by rewrite <- app_assoc.
Qed.

Lemma forEach_first_throw before callback after message w noted :
  Forall (returns invoke message) before →
  throws invoke message callback →
  ∃ e w', MemoryAdapter.forEach (noting invoke) (before ++ callback :: after) message
            (w, noted)
          = Threw e (w', noted ++ before ++ [callback]).
Proof.
  intros Hall Hthrow. revert w noted.
  induction Hall as [|c rest Hret _ IH]; intros w noted; simpl.
  - unfold noting. simpl. destruct (Hthrow w) as (e & w' & ->).
    by exists e, w'.
  - unfold noting at 1. simpl. destruct (Hret w) as [w1 ->].
    destruct (IH w1 (noted ++ [c])) as (e & w2 & ->).
    exists e, w2. by rewrite <- app_assoc.
Qed.

(** C4, amended. [broadcast] invokes the callbacks of the room in the order
    of their registration, up to and including the first that throws: the
    exception ends the iteration and leaves [broadcast], and the callbacks
    registered after it are not invoked. When no callback throws, every one
    is invoked once. *)
Theorem C4_broadcast_stops_at_first_throw (a : MemoryAdapter.t Callback)
    roomId message w before after :
  MemoryAdapter.subscribers a !! roomId = Some (before ++ after) →
  Forall (returns invoke message) before →
  match after with [] => True | callback :: _ => throws invoke message callback end →
  match after with
  | [] =>
      ∃ w', MemoryAdapter.broadcast (noting invoke) roomId message a (w, [])
            = Returned (w', before)
  | callback :: _ =>
      ∃ e w', MemoryAdapter.broadcast (noting invoke) roomId message a (w, [])
              = Threw e (w', before ++ [callback])
  end.
Proof.
  intros Hsubs Hbefore Hafter. unfold MemoryAdapter.broadcast. rewrite Hsubs.
  destruct after as [|callback after].
  - rewrite app_nil_r. by apply forEach_all_return.
  - by apply forEach_first_throw.
Qed.
End BroadcastOrder.

Section AdapterClaims.

(** C4, as stated, fails: the callback registered after a throwing one is
    not invoked. *)
Lemma C4_throwing_callback_counterexample :
  MemoryAdapter.subscribers three_subscribers !! "r1"
  = Some [1%nat; 2%nat; 3%nat]
  ∧ MemoryAdapter.broadcast (noting second_throws) "r1"
      (server_message s_ping) three_subscribers (tt, [])
    = Threw "boom" (tt, [1%nat; 2%nat]).
Proof. by vm_compute. Qed.

Lemma C4_broadcast_stops_at_first_throw_witness :
  ∃ e w', MemoryAdapter.broadcast (noting second_throws) "r1"
            (server_message s_ping) three_subscribers (tt, [])
          = Threw e (w', [1%nat; 2%nat]).
Proof.
  apply (C4_broadcast_stops_at_first_throw second_throws three_subscribers
           "r1" (server_message s_ping) tt [1%nat] [2%nat; 3%nat]).
  - by vm_compute.
  - repeat constructor. intros w. by exists w.
  - intros w. by exists "boom", w.
Defined.

(** C6, as stated, fails with the in-process adapter: joining again does
    not reset a member; its entry keeps its typing flag and its metadata. *)
Lemma C6_join_of_member_counterexample :
  let metadata := Some [("name", "Ann")] in
  let a := MemoryAdapter.joinRoom "r1" "u1" metadata typing_member in
  MemoryAdapter.getUsers "r1" a
  = [{| u_id := "u1"; u_roomId := "r1"; u_cursor := None; u_typing := true;
        u_metadata := None |}]
  ∧ fresh_user "r1" "u1" metadata ∉ MemoryAdapter.getUsers "r1" a.
Proof.
  split; [by vm_compute|]. vm_compute.
  intros [Heq|Hin%elem_of_nil]%elem_of_cons; [discriminate | done].
Qed.

(** C6, amended. [joinRoom] is idempotent: the same call a second time
    leaves the store as it is. With the in-process adapter the room then
    holds a [User] for the identity, which is the entry it already had when
    the identity was a member, and otherwise a [User] with no cursor, not
    typing and with the given metadata. With the distributed adapter the
    entry is always such a new [User]. *)
Theorem C6_joinRoom_idempotent_keeps_member {Callback} `{EqDecision Callback}
    (a : MemoryAdapter.t Callback) (db : RedisAdapter.t) roomId userId
    metadata :
  let a' := MemoryAdapter.joinRoom roomId userId metadata a in
  let db' := RedisAdapter.joinRoom roomId userId metadata db in
  let user := default (fresh_user roomId userId metadata)
                (MemoryAdapter.entry roomId userId a) in
  MemoryAdapter.joinRoom roomId userId metadata a' = a'
  ∧ MemoryAdapter.entry roomId userId a' = Some user
  ∧ user ∈ MemoryAdapter.getUsers roomId a'
  ∧ RedisAdapter.joinRoom roomId userId metadata db' = db'
  ∧ RedisAdapter.hget (RedisAdapter.users_key roomId) userId db'
    = Some (fresh_user roomId userId metadata)
  ∧ fresh_user roomId userId metadata ∈ RedisAdapter.getUsers roomId db'.
Proof.
  simpl. split_and!.
  - apply memory_joinRoom_idempotent.
  - apply memory_joinRoom_entry.
  - eapply memory_getUsers_entry, memory_joinRoom_entry.
  - apply redis_joinRoom_idempotent.
  - apply redis_joinRoom_hget.
  - apply redis_getUsers_joined.
Qed.
End AdapterClaims.

(** ** The client session: the properties of the specification *)

Section ClientClaims.
Import Client.
Implicit Types (st : State) (config : ClientConfig).

Lemma setState_frame newState st :
  let st' := setState newState st in
  ws st' = ws st ∧ reconnectAttempts st' = reconnectAttempts st
  ∧ shouldReconnect st' = shouldReconnect st ∧ timers st' = timers st
  ∧ history st' = history st ∧ heartbeatTimer st' = heartbeatTimer st
  ∧ sent st' = sent st.
Proof.
  unfold setState. destruct (decide _); [|done]. by destruct newState.
Qed.

Lemma stopHeartbeat_frame st :
  let st' := stopHeartbeat st in
  ws st' = ws st ∧ reconnectAttempts st' = reconnectAttempts st
  ∧ shouldReconnect st' = shouldReconnect st
  ∧ history st' = history st ∧ sent st' = sent st.
Proof. unfold stopHeartbeat. by destruct (heartbeatTimer st). Qed.

(** What [onclose] does when it schedules a reconnection, in the terms of
    the normalised [reconnect]. *)
Lemma onclose_schedules_reconnect config st now :
  shouldReconnect st = true →
  enabled (the_reconnect config) = Some true →
  reconnectAttempts st < default 10 (maxRetries (the_reconnect config)) →
  let attempts := reconnectAttempts st in
  let delay :=
    Z.min (default 1000 (initialDelay (the_reconnect config))
           * default 2 (backoffFactor (the_reconnect config)) ^ attempts)
          (default 30000 (maxDelay (the_reconnect config))) in
  let st' := onclose config now st in
  reconnectAttempts st' = attempts + 1
  ∧ reconnectTimer st' = Some (length (history st))
  ∧ last (timers st')
    = Some {| t_id := length (history st); t_set := now; t_delay := delay;
              t_action := do_connect; t_repeats := false |}
  ∧ reconnect_delays st' = reconnect_delays st ++ [delay].
Proof.
  intros Hshould Henabled Hleft attempts delay st'.
  subst st'. unfold onclose.
  set (st1 := stopHeartbeat (setState disconnected st)).
  destruct (setState_frame disconnected st) as (_ & Ha & Hs & _ & Hh & _).
  destruct (stopHeartbeat_frame (setState disconnected st))
    as (_ & Ha' & Hs' & Hh' & _).
  fold st1 in Ha', Hs', Hh'.
  rewrite decide_True by (rewrite Hs', Hs, Ha', Ha; done).
  unfold set_timer, reconnect_delays, reconnect_delay.
  cbn [reconnectAttempts set_reconnectAttempts set_reconnectTimer set_history
       set_timers timers history reconnectTimer].
  rewrite Ha', Ha, Hh', Hh. fold attempts. fold delay.
  split_and!; [done | done | apply last_snoc |].
  rewrite filter_app, map_app. f_equal.
Qed.

(** The normalised [reconnect] holds the values of the configuration, and
    the defaults for the values that the configuration leaves out. *)
Lemma the_reconnect_values config :
  let configured :=
    match reconnect config with
    | Some (inr rc) => rc
    | _ => {| enabled := None; maxRetries := None; initialDelay := None;
              maxDelay := None; backoffFactor := None |}
    end in
  default 10 (maxRetries (the_reconnect config))
  = default 10 (maxRetries configured)
  ∧ default 1000 (initialDelay (the_reconnect config))
    = default 1000 (initialDelay configured)
  ∧ default 30000 (maxDelay (the_reconnect config))
    = default 30000 (maxDelay configured)
  ∧ default 2 (backoffFactor (the_reconnect config))
    = default 2 (backoffFactor configured).
Proof. unfold the_reconnect. by destruct (reconnect config) as [[b|rc]|]. Qed.

Lemma the_reconnect_enabled config :
  match reconnect config with
  | Some (inl b) => b = true
  | Some (inr rc) => enabled rc ≠ Some false
  | None => True
  end →
  enabled (the_reconnect config) = Some true.
Proof.
  unfold the_reconnect. destruct (reconnect config) as [[b|rc]|]; simpl.
  - by intros ->.
  - intros Hon. by rewrite bool_decide_eq_true_2.
  - done.
Qed.

(** C7. When the socket closes without [disconnect()] having been called,
    reconnection is enabled and attempts remain, the handler counts one more
    attempt and sets the reconnect timer with the delay
    [min(initialDelay * backoffFactor^attempts, maxDelay)] for the count
    before the increment, where the three values are those of the
    configuration ([reconnect] given as an object), or 1000, 2 and 30000
    for a value that it leaves out. The values, the power and the product
    are integers that a number holds exactly. With 1000, 2 and 30000 the
    six delays of six closes in a row are 1000, 2000, 4000, 8000, 16000 and
    30000. *)
Theorem C7_reconnect_delay_is_capped_backoff config st now :
  let configured :=
    match reconnect config with
    | Some (inr rc) => rc
    | _ => {| enabled := None; maxRetries := None; initialDelay := None;
              maxDelay := None; backoffFactor := None |}
    end in
  let given_initialDelay := default 1000 (initialDelay configured) in
  let given_backoffFactor := default 2 (backoffFactor configured) in
  let given_maxDelay := default 30000 (maxDelay configured) in
  let attempts := reconnectAttempts st in
  shouldReconnect st = true →
  match reconnect config with
  | Some (inl b) => b = true
  | Some (inr rc) => enabled rc ≠ Some false
  | None => True
  end →
  0 <= attempts < default 10 (maxRetries configured) →
  safe_integer given_initialDelay → safe_integer given_maxDelay →
  safe_integer (given_backoffFactor ^ attempts) →
  safe_integer (given_initialDelay * given_backoffFactor ^ attempts) →
  let delay :=
    Z.min (given_initialDelay * given_backoffFactor ^ attempts)
          given_maxDelay in
  let st' := onclose config now st in
  reconnectAttempts st' = attempts + 1
  ∧ reconnectTimer st' = Some (length (history st))
  ∧ last (timers st')
    = Some {| t_id := length (history st); t_set := now; t_delay := delay;
              t_action := do_connect; t_repeats := false |}
  ∧ reconnect_delays st' = reconnect_delays st ++ [delay]
  ∧ (reconnect_delays
       <$> run example_config six_closes (createCollabClient example_config))
    = Some [1000; 2000; 4000; 8000; 16000; 30000].
Proof.
  intros configured given_initialDelay given_backoffFactor given_maxDelay
    attempts Hshould Hon [_ Hleft] _ _ _ _ delay st'.
  assert (reconnect_delays
            <$> run example_config six_closes
                  (createCollabClient example_config)
          = Some [1000; 2000; 4000; 8000; 16000; 30000]) as Hsix
    by (by vm_compute).
  revert Hsix. generalize (run example_config six_closes
                             (createCollabClient example_config)).
  intros six Hsix.
  destruct (the_reconnect_values config)
    as (Hretries & Hinitial & Hmax & Hfactor).
  fold configured in Hretries, Hinitial, Hmax, Hfactor.
  destruct (onclose_schedules_reconnect config st now Hshould
              (the_reconnect_enabled config Hon))
    as (Hcount & Hhandle & Htimer & Hdelays).
  { by rewrite Hretries. }
  rewrite Hinitial, Hmax, Hfactor in Htimer, Hdelays.
  by split_and!.
Qed.

Lemma C7_reconnect_delay_is_capped_backoff_witness :
  ∃ st,
    run patient_config two_closes (createCollabClient patient_config)
    = Some st
    ∧ reconnectAttempts st = 2
    ∧ reconnectAttempts (onclose patient_config 2300 st) = 3
    ∧ last (timers (onclose patient_config 2300 st))
      = Some {| t_id := 2; t_set := 2300; t_delay := 4500;
                t_action := do_connect; t_repeats := false |}
    ∧ reconnect_delays (onclose patient_config 2300 st) = [500; 1500; 4500].
Proof.
  eexists. split; [by vm_compute|]. split; [done|].
  match goal with
  | |- reconnectAttempts (onclose _ _ ?st) = _ ∧ _ =>
      destruct (C7_reconnect_delay_is_capped_backoff patient_config st 2300)
        as (Hcount & _ & Htimer & Hdelays & _)
  end.
  - done.
  - done.
  - by vm_compute.
  - by vm_compute.
  - by vm_compute.
  - by vm_compute.
  - by vm_compute.
  - split_and!; [exact Hcount | exact Htimer | exact Hdelays].
Defined.
Lemma find_last_issued (l : list Timer) (t0 : Timer) (handle : nat) :
  t_id t0 = handle →
  Forall (λ t, (t_id t < handle)%nat) l →
  List.find (λ t, bool_decide (t_id t = handle)) (l ++ [t0]) = Some t0.
Proof.
  intros Hid. induction 1 as [|t l Hlt _ IH]; simpl.
  - by rewrite bool_decide_eq_true_2.
  - rewrite bool_decide_eq_false_2 by lia. exact IH.
Qed.

(** A call of [cursor] either sends its position at once or leaves it as the
    pending position, in place of an older one. *)
Lemma cursor_keeps_freshest config st now p :
  let st' := cursor config now p st in
  pendingCursorPosition st' = Some p
  ∨ (pendingCursorPosition st' = None
     ∧ (ws st = Some OPEN → last (cursors_sent st') = Some (now, p))).
Proof.
  unfold cursor. simpl. destruct (decide _) as [Hnow|Hsoon].
  - right. unfold flushCursorUpdate, sendMessage. simpl. split; [done|].
    intros Hopen. rewrite decide_True by done. unfold cursors_sent. simpl.
    rewrite omap_app. simpl. apply last_snoc.
  - left. by destruct (cursorThrottleTimer st).
Qed.

(** C8, as stated, fails: of the two calls 10 ms apart the first is sent at
    once, so two cursor messages are sent, the first of them with the
    position of the first call. *)
Lemma C8_first_cursor_sent_at_once_counterexample :
  let sent :=
    cursors_sent
      <$> run example_config
            [(1000, Opened); (2000, CallCursor p11); (2010, CallCursor p22);
             (2050, Fired 1)]
            (createCollabClient example_config) in
  sent = Some [(2000, p11); (2050, p22)]
  ∧ ¬ ∃ t, sent = Some [(t, p22)].
Proof.
  assert (cursors_sent
            <$> run example_config
                  [(1000, Opened); (2000, CallCursor p11);
                   (2010, CallCursor p22); (2050, Fired 1)]
                  (createCollabClient example_config)
          = Some [(2000, p11); (2050, p22)]) as Hsent by (by vm_compute).
  intros sent. subst sent. rewrite Hsent. split; [done|]. by intros [t [=]].
Qed.

(** The flush of a deferred position does not move [lastCursorUpdate]: a
    call 1 ms after the flush is sent at once, 1 ms after the flushed
    message. *)
Lemma cursor_sent_twice_within_a_window :
  cursors_sent
    <$> run example_config
          [(1000, Opened); (2000, CallCursor p11); (2049, CallCursor p22);
           (2050, Fired 1); (2051, CallCursor p33)]
          (createCollabClient example_config)
  = Some [(2000, p11); (2050, p22); (2051, p33)].
Proof. by vm_compute. Qed.

(** C8, amended. With a throttle of 50 ms, on an open socket and at least
    50 ms after the time recorded for the last cursor sent at once (0 on a
    new session): [cursor(p1)] at time [T] is sent at once; [cursor(p2)]
    10 ms later is not sent but becomes the pending position, behind one
    flush timer due at [T + 50]; that timer cannot run before, and when it
    runs it sends [p2]. Two cursor messages are sent, the second no earlier
    than 50 ms after the first call. In general a call of [cursor] sends its
    position at once or makes it the pending one. *)
Theorem C8_cursor_sent_at_once_then_deferred config st T F p1 p2 :
  the_throttleCursor config = 50 →
  ws st = Some OPEN →
  T - lastCursorUpdate st >= 50 →
  Forall (λ t, (t_id t < length (history st))%nat) (timers st) →
  T + 50 <= F →
  let handle := length (history st) in
  let st1 := cursor config T p1 st in
  let st2 := cursor config (T + 10) p2 st1 in
  cursors_sent st1 = cursors_sent st ++ [(T, p1)]
  ∧ cursors_sent st2 = cursors_sent st1
  ∧ pendingCursorPosition st2 = Some p2
  ∧ cursorThrottleTimer st2 = Some handle
  ∧ last (timers st2)
    = Some {| t_id := handle; t_set := T + 10; t_delay := 40;
              t_action := do_flushCursorUpdate; t_repeats := false |}
  ∧ (∀ F', F' < T + 50 → step config F' (Fired handle) st2 = None)
  ∧ (∃ st3, step config F (Fired handle) st2 = Some st3
            ∧ cursors_sent st3 = cursors_sent st ++ [(T, p1); (F, p2)]
            ∧ pendingCursorPosition st3 = None)
  ∧ (∀ st0 now p,
       pendingCursorPosition (cursor config now p st0) = Some p
       ∨ (pendingCursorPosition (cursor config now p st0) = None
          ∧ (ws st0 = Some OPEN →
             last (cursors_sent (cursor config now p st0)) = Some (now, p)))).
Proof.
  intros Hthrottle Hopen Hdue Hissued HF handle st1 st2.
  assert (st1 = set_lastCursorUpdate T
            (set_pendingCursorPosition None
               (set_sent (sent st ++
                  [(T, {| m_type := cursor_t;
                          m_roomId := Some (currentRoomId st);
                          m_position := Some p1; m_isTyping := None;
                          m_token := None; m_metadata := None;
                          m_event := None; m_data := None |})])
                  (set_pendingCursorPosition (Some p1) st)))) as Hst1.
  { subst st1. unfold cursor. simpl. rewrite Hthrottle.
    rewrite decide_True by done. unfold flushCursorUpdate, sendMessage. simpl.
    by rewrite decide_True. }
  set (timer0 := {| t_id := handle; t_set := T + 10; t_delay := 40;
                    t_action := do_flushCursorUpdate; t_repeats := false |}).
  set (pending := match cursorThrottleTimer st with
                  | Some h => filter (λ t, t_id t ≠ h) (timers st)
                  | None => timers st
                  end).
  assert (Forall (λ t, (t_id t < handle)%nat) pending) as Hpending.
  { subst pending. destruct (cursorThrottleTimer st); [|done].
    apply Forall_forall. intros t [_ Hin]%list_elem_of_filter.
    by eapply Forall_forall in Hissued. }
  assert (timers st2 = pending ++ [timer0]
          ∧ sent st2 = sent st1 ∧ pendingCursorPosition st2 = Some p2
          ∧ cursorThrottleTimer st2 = Some handle ∧ ws st2 = Some OPEN
          ∧ currentRoomId st2 = currentRoomId st) as (Ht & Hs & Hp & Hc & Hw & Hr).
  { subst st2. unfold cursor. rewrite Hst1. simpl. rewrite Hthrottle.
    rewrite decide_False by lia.
    subst pending timer0 handle.
    destruct (cursorThrottleTimer st); simpl;
      by replace (50 - (T + 10 - T)) with 40 by lia. }
  assert (cursors_sent st1 = cursors_sent st ++ [(T, p1)]) as Hsent1.
  { rewrite Hst1. unfold cursors_sent. simpl. by rewrite omap_app. }
  split_and!; try done; [| | | |apply cursor_keeps_freshest].
  - unfold cursors_sent. by rewrite Hs.
  - rewrite Ht. apply last_snoc.
  - intros F' HF'. unfold step. rewrite Ht.
    rewrite (find_last_issued pending timer0 handle eq_refl Hpending).
    rewrite decide_False; [done|]. unfold t_due. simpl. lia.
  - unfold step. rewrite Ht.
    rewrite (find_last_issued pending timer0 handle eq_refl Hpending).
    rewrite decide_True by (unfold t_due; simpl; lia). simpl.
    eexists. split; [done|].
    unfold flushCursorUpdate, sendMessage. simpl. rewrite Hp. simpl.
    rewrite Hw, decide_True by done. simpl. split; [|done].
    unfold cursors_sent in *. simpl. rewrite omap_app, Hs, Hsent1. simpl.
    by rewrite <- app_assoc.
Qed.

Lemma C8_cursor_sent_at_once_then_deferred_witness :
  ∃ st3,
    step example_config 2050 (Fired 1)
      (cursor example_config (2000 + 10) p22
         (cursor example_config 2000 p11 opened_session))
    = Some st3
    ∧ cursors_sent st3 = cursors_sent opened_session
                         ++ [(2000, p11); (2050, p22)]
    ∧ pendingCursorPosition st3 = None.
Proof.
  assert (2000 - lastCursorUpdate opened_session >= 50) as Hdue
    by (vm_compute; discriminate).
  assert (2000 + 50 <= 2050) as HF by lia.
  assert (Forall (λ t, (t_id t < length (history opened_session))%nat)
            (timers opened_session)) as Hissued
    by (vm_compute; repeat constructor).
  destruct (C8_cursor_sent_at_once_then_deferred example_config
              opened_session 2000 2050 p11 p22 eq_refl eq_refl Hdue Hissued
              HF) as (_ & _ & _ & _ & _ & _ & Hflush & _).
  exact Hflush.
Defined.
End ClientClaims.

(** * More properties of the code *)

Set Warnings "-clear-no-such-hyp".

(** ** The in-process adapter *)

Section OrderedMore.
Context {K V : Type} `{EqDecision K}.
Implicit Types (k : K) (v : V) (m : list (K * V)).

Lemma oset_nonempty k v m : oset k v m ≠ [].
Proof. destruct m as [|[k' v'] m]; simpl; [done|]. by destruct (decide _). Qed.

Lemma oset_absent k v m : oget k m = None → oset k v m = m ++ [(k, v)].
Proof.
  induction m as [|[k' v'] m IH]; simpl; [done|].
  destruct (decide (k = k')); [done|]. intros Hm. by rewrite IH.
Qed.

Lemma odelete_absent k m : oget k m = None → odelete k m = m.
Proof.
  induction m as [|[k' v'] m IH]; simpl; [done|].
  destruct (decide (k = k')); [done|]. intros Hm. by rewrite IH.
Qed.

Lemma odelete_app k m m' : odelete k (m ++ m') = odelete k m ++ odelete k m'.
Proof.
  induction m as [|[k' v'] m IH]; simpl; [done|].
  destruct (decide (k = k')); [done|]. simpl. by rewrite IH.
Qed.

Lemma ovalues_oset_present k v v0 m :
  oget k m = Some v0 → length (ovalues (oset k v m)) = length (ovalues m).
Proof.
  revert v0. induction m as [|[k' v'] m IH]; intros v0; simpl; [done|].
  destruct (decide (k = k')); [done|]. intros Hm. simpl.
  f_equal. by eapply IH.
Qed.

Lemma okeys_oset_present k v v0 m :
  oget k m = Some v0 → okeys (oset k v m) = okeys m.
Proof. intros Hm. rewrite okeys_oset. unfold ohas. by rewrite Hm. Qed.

Lemma sdelete_absent (k : K) (s : list K) : k ∉ s → sdelete k s = s.
Proof.
  induction s as [|k' s IH]; simpl; [done|].
  intros [Hne Hs]%not_elem_of_cons.
  rewrite decide_False by done. by rewrite IH.
Qed.

Lemma sdelete_app (k : K) (s s' : list K) :
  sdelete k (s ++ s') = sdelete k s ++ sdelete k s'.
Proof.
  induction s as [|k' s IH]; simpl; [done|].
  destruct (decide (k = k')); [done|]. simpl. by rewrite IH.
Qed.

Lemma elem_of_sdelete (k k' : K) (s : list K) :
  k' ∈ sdelete k s ↔ k' ≠ k ∧ k' ∈ s.
Proof.
  induction s as [|k2 s IH]; simpl.
  - split; [by intros ?%elem_of_nil | by intros [_ ?%elem_of_nil]].
  - destruct (decide (k = k2)) as [->|Hne].
    + rewrite IH, elem_of_cons. naive_solver.
    + rewrite !elem_of_cons, IH. naive_solver.
Qed.

Lemma NoDup_sdelete (k : K) (s : list K) : NoDup s → NoDup (sdelete k s).
Proof.
  induction 1 as [|k' s Hnotin Hnd IH]; simpl; [constructor|].
  destruct (decide (k = k')); [done|]. constructor; [|done].
  rewrite elem_of_sdelete. tauto.
Qed.

Lemma NoDup_sadd (k : K) (s : list K) : NoDup s → NoDup (sadd k s).
Proof.
  intros Hnd. unfold sadd. destruct (decide (k ∈ s)); [done|].
  apply NoDup_app. split_and!; [done| |apply NoDup_singleton].
  by intros x Hx ->%list_elem_of_singleton.
Qed.
End OrderedMore.

Section MemoryMore.
Context {Callback : Type} `{EqDecision Callback}.
Implicit Types (a : MemoryAdapter.t Callback) (roomId userId : string).

Lemma memory_joinRoom_subscribers roomId userId metadata a :
  MemoryAdapter.subscribers (MemoryAdapter.joinRoom roomId userId metadata a)
  = MemoryAdapter.subscribers a.
Proof. unfold MemoryAdapter.joinRoom. by destruct (ohas _ _). Qed.

Lemma memory_leaveRoom_subscribers roomId userId a :
  MemoryAdapter.subscribers (MemoryAdapter.leaveRoom roomId userId a)
  = MemoryAdapter.subscribers a.
Proof.
  unfold MemoryAdapter.leaveRoom. destruct (_ !! roomId); [|done].
  by destruct (decide _).
Qed.

Lemma memory_updateUser_subscribers roomId userId updates a :
  MemoryAdapter.subscribers (MemoryAdapter.updateUser roomId userId updates a)
  = MemoryAdapter.subscribers a.
Proof.
  unfold MemoryAdapter.updateUser. destruct (_ !! roomId); [|done].
  by destruct (oget _ _).
Qed.

Lemma memory_unsubscribe_rooms roomId (callback : Callback) a :
  MemoryAdapter.rooms (MemoryAdapter.unsubscribe roomId callback a)
  = MemoryAdapter.rooms a.
Proof.
  unfold MemoryAdapter.unsubscribe. destruct (_ !! roomId); [|done].
  by destruct (decide _).
Qed.

Lemma kept_joinRoom roomId userId metadata a :
  kept a → kept (MemoryAdapter.joinRoom roomId userId metadata a).
Proof.
  intros Hkept roomId' room. unfold MemoryAdapter.joinRoom, ohas.
  destruct (MemoryAdapter.rooms a !! roomId) as [room0|] eqn:Hroom; simpl.
  - rewrite Hroom. simpl. destruct (oget userId room0); simpl; [apply Hkept|].
    destruct (decide (roomId = roomId')) as [<-|Hne].
    + rewrite lookup_insert_eq. intros [= <-]. split; [apply oset_nonempty|].
      apply NoDup_okeys_oset. by apply (Hkept roomId).
    + rewrite lookup_insert_ne by done. apply Hkept.
  - rewrite lookup_insert_eq. simpl.
    destruct (decide (roomId = roomId')) as [<-|Hne].
    + rewrite lookup_insert_eq. intros [= <-]. split; [done|].
      apply NoDup_singleton.
    + rewrite !lookup_insert_ne by done. apply Hkept.
Qed.

Lemma kept_leaveRoom roomId userId a :
  kept a → kept (MemoryAdapter.leaveRoom roomId userId a).
Proof.
  intros Hkept roomId' room. unfold MemoryAdapter.leaveRoom.
  destruct (MemoryAdapter.rooms a !! roomId) as [room0|] eqn:Hroom;
    [|apply Hkept].
  destruct (decide _) as [Hempty|Hsome]; simpl.
  - destruct (decide (roomId = roomId')) as [<-|Hne].
    + by rewrite lookup_delete_eq.
    + rewrite lookup_delete_ne by done. apply Hkept.
  - destruct (decide (roomId = roomId')) as [<-|Hne].
    + rewrite lookup_insert_eq. intros [= <-]. split.
      * intros Hnil. apply Hsome. unfold osize. by rewrite Hnil.
      * apply NoDup_okeys_odelete. by apply (Hkept roomId).
    + rewrite lookup_insert_ne by done. apply Hkept.
Qed.

Lemma kept_updateUser roomId userId updates a :
  kept a → kept (MemoryAdapter.updateUser roomId userId updates a).
Proof.
  intros Hkept roomId' room. unfold MemoryAdapter.updateUser.
  destruct (MemoryAdapter.rooms a !! roomId) as [room0|] eqn:Hroom;
    [|apply Hkept].
  destruct (oget userId room0); [|apply Hkept]. simpl.
  destruct (decide (roomId = roomId')) as [<-|Hne].
  - rewrite lookup_insert_eq. intros [= <-]. split; [apply oset_nonempty|].
    apply NoDup_okeys_oset. by apply (Hkept roomId).
  - rewrite lookup_insert_ne by done. apply Hkept.
Qed.

Lemma subscribed_once_subscribe roomId (callback : Callback) a :
  subscribed_once a →
  subscribed_once (MemoryAdapter.subscribe roomId callback a).
Proof.
  intros Honce roomId' callbacks. unfold MemoryAdapter.subscribe. simpl.
  destruct (decide (roomId = roomId')) as [<-|Hne].
  - rewrite lookup_insert_eq. intros [= <-].
    destruct (MemoryAdapter.subscribers a !! roomId) as [cbs|] eqn:Hsubs.
    + rewrite Hsubs. simpl. split; [|by apply NoDup_sadd, (Honce roomId)].
      unfold sadd. destruct (decide _) as [Hin|Hnotin].
      * intros ->. by apply elem_of_nil in Hin.
      * by destruct cbs.
    + rewrite lookup_insert_eq. simpl. split; [done|]. apply NoDup_singleton.
  - rewrite lookup_insert_ne by done.
    destruct (MemoryAdapter.subscribers a !! roomId); [apply Honce|].
    rewrite lookup_insert_ne by done. apply Honce.
Qed.

Lemma subscribed_once_unsubscribe roomId (callback : Callback) a :
  subscribed_once a →
  subscribed_once (MemoryAdapter.unsubscribe roomId callback a).
Proof.
  intros Honce roomId' callbacks. unfold MemoryAdapter.unsubscribe.
  destruct (MemoryAdapter.subscribers a !! roomId) as [cbs|] eqn:Hsubs;
    [|apply Honce].
  destruct (decide _) as [Hempty|Hsome]; simpl.
  - destruct (decide (roomId = roomId')) as [<-|Hne].
    + by rewrite lookup_delete_eq.
    + rewrite lookup_delete_ne by done. apply Honce.
  - destruct (decide (roomId = roomId')) as [<-|Hne].
    + rewrite lookup_insert_eq. intros [= <-]. split.
      * intros Hnil. apply Hsome. by rewrite Hnil.
      * apply NoDup_sdelete. by apply (Honce roomId).
    + rewrite lookup_insert_ne by done. apply Honce.
Qed.

(** X1. Every operation of the in-process adapter keeps the store in order:
    no room is kept without a member (the room of the last member is
    released), no identity is held twice in a room, no room is kept without
    a callback and no callback is held twice for a room. *)
Theorem memory_store_stays_in_order a roomId userId metadata updates
    (callback : Callback) :
  kept a → subscribed_once a →
  let results :=
    [MemoryAdapter.joinRoom roomId userId metadata a;
     MemoryAdapter.leaveRoom roomId userId a;
     MemoryAdapter.updateUser roomId userId updates a;
     MemoryAdapter.subscribe roomId callback a;
     MemoryAdapter.unsubscribe roomId callback a] in
  Forall (λ a', kept a' ∧ subscribed_once a') results.
Proof.
  intros Hkept Honce results. subst results.
  repeat (apply Forall_cons; split; [split|]); [..|by apply Forall_nil].
  - by apply kept_joinRoom.
  - unfold subscribed_once. by rewrite memory_joinRoom_subscribers.
  - by apply kept_leaveRoom.
  - unfold subscribed_once. by rewrite memory_leaveRoom_subscribers.
  - by apply kept_updateUser.
  - unfold subscribed_once. by rewrite memory_updateUser_subscribers.
  - done.
  - by apply subscribed_once_subscribe.
  - unfold kept. by rewrite memory_unsubscribe_rooms.
  - by apply subscribed_once_unsubscribe.
Qed.

Lemma kept_empty : kept (MemoryAdapter.empty (Callback := Callback)).
Proof. intros roomId room. simpl. by rewrite lookup_empty. Qed.

Lemma subscribed_once_empty :
  subscribed_once (MemoryAdapter.empty (Callback := Callback)).
Proof. intros roomId callbacks. simpl. by rewrite lookup_empty. Qed.

(** X2. [leaveRoom] takes the identity out of the room and nothing else:
    every other entry is as before, and when the identity was the only
    member the room itself is released. *)
Theorem memory_leaveRoom_removes_only_the_member a roomId userId :
  MemoryAdapter.member roomId userId a = true →
  let a' := MemoryAdapter.leaveRoom roomId userId a in
  MemoryAdapter.entry roomId userId a' = None
  ∧ (∀ roomId' userId',
       (roomId', userId') ≠ (roomId, userId) →
       MemoryAdapter.entry roomId' userId' a'
       = MemoryAdapter.entry roomId' userId' a)
  ∧ (length (MemoryAdapter.getUsers roomId a) = 1%nat →
     MemoryAdapter.rooms a' !! roomId = None
     ∧ MemoryAdapter.getUsers roomId a' = []).
Proof.
  unfold MemoryAdapter.member, MemoryAdapter.entry, MemoryAdapter.leaveRoom,
    MemoryAdapter.getUsers.
  intros [user Huser]%bool_decide_eq_true.
  destruct (MemoryAdapter.rooms a !! roomId) as [room|] eqn:Hroom;
    [|done]. simpl in Huser. simpl.
  split_and!.
  - destruct (decide _); simpl.
    + by rewrite lookup_delete_eq.
    + rewrite lookup_insert_eq. simpl. apply oget_odelete_eq.
  - intros roomId' userId' Hne.
    destruct (decide (roomId = roomId')) as [<-|Hr].
    + assert (userId ≠ userId') by congruence. rewrite Hroom. simpl.
      destruct (decide _) as [Hempty|Hsome]; simpl.
      * rewrite lookup_delete_eq. simpl.
        apply nil_length_inv in Hempty.
        rewrite <- (oget_odelete_ne userId userId' room) by done.
        by rewrite Hempty.
      * rewrite lookup_insert_eq. simpl. by apply oget_odelete_ne.
    + destruct (decide _); simpl.
      * by rewrite lookup_delete_ne.
      * by rewrite lookup_insert_ne.
  - unfold ovalues. rewrite length_map. intros Hone.
    destruct room as [|[k v] [|? ?]]; simplify_eq/=.
    destruct (decide (userId = k)) as [->|]; [|done]. simpl.
    by rewrite lookup_delete_eq.
Qed.

End MemoryMore.

Lemma memory_store_stays_in_order_witness :
  Forall (λ a', kept a' ∧ subscribed_once a')
    [MemoryAdapter.joinRoom "r1" "u1" None (MemoryAdapter.empty (Callback := nat));
     MemoryAdapter.leaveRoom "r1" "u1" MemoryAdapter.empty;
     MemoryAdapter.updateUser "r1" "u1" no_updates MemoryAdapter.empty;
     MemoryAdapter.subscribe "r1" 1%nat MemoryAdapter.empty;
     MemoryAdapter.unsubscribe "r1" 1%nat MemoryAdapter.empty].
Proof.
  exact (memory_store_stays_in_order MemoryAdapter.empty "r1" "u1" None
           no_updates 1%nat kept_empty subscribed_once_empty).
Defined.

Lemma memory_leaveRoom_removes_only_the_member_witness :
  let a := MemoryAdapter.joinRoom "r1" "u2" None typing_member in
  MemoryAdapter.entry "r1" "u1" (MemoryAdapter.leaveRoom "r1" "u1" a) = None
  ∧ MemoryAdapter.entry "r1" "u2" (MemoryAdapter.leaveRoom "r1" "u1" a)
    = MemoryAdapter.entry "r1" "u2" a.
Proof.
  destruct (memory_leaveRoom_removes_only_the_member
              (MemoryAdapter.joinRoom "r1" "u2" None typing_member)
              "r1" "u1" eq_refl) as (Hgone & Hothers & _).
  split; [exact Hgone | by apply Hothers].
Defined.

Section MemoryRoundTrips.
Context {Callback : Type} `{EqDecision Callback}.
Implicit Types (a : MemoryAdapter.t Callback) (roomId userId : string).

(** X3. For an identity that is not a member, [joinRoom] followed by
    [leaveRoom] gives the store back as it was, the room included when the
    join had created it. *)
Theorem memory_join_then_leave_restores a roomId userId metadata :
  kept a →
  MemoryAdapter.member roomId userId a = false →
  MemoryAdapter.leaveRoom roomId userId
    (MemoryAdapter.joinRoom roomId userId metadata a) = a.
Proof.
  intros Hkept Habsent%member_false_entry.
  unfold MemoryAdapter.entry in Habsent.
  unfold MemoryAdapter.joinRoom, MemoryAdapter.leaveRoom, ohas.
  destruct (MemoryAdapter.rooms a !! roomId) as [room|] eqn:Hroom; simpl.
  - simpl in Habsent. rewrite Hroom. simpl. rewrite Habsent. simpl.
    rewrite lookup_insert_eq.
    rewrite (oset_absent _ _ _ Habsent), odelete_app. simpl.
    destruct (decide (userId = userId)); [|done].
    rewrite app_nil_r, odelete_absent by done.
    destruct (Hkept roomId room Hroom) as [Hnonempty _].
    rewrite decide_False by (unfold osize; by destruct room). simpl.
    rewrite insert_insert_eq, insert_id by done. by destruct a.
  - rewrite lookup_insert_eq. simpl. rewrite lookup_insert_eq. simpl.
    destruct (decide (userId = userId)); [simpl|done].
    rewrite !delete_insert_eq, delete_id by done. by destruct a.
Qed.

(** X4. [updateUser] for a member merges the given fields into its entry
    and leaves the rest alone: every other entry, the number of members of
    the room and the callbacks are as before. *)
Theorem memory_updateUser_merges a roomId userId user updates :
  MemoryAdapter.entry roomId userId a = Some user →
  let a' := MemoryAdapter.updateUser roomId userId updates a in
  MemoryAdapter.entry roomId userId a' = Some (assign user updates)
  ∧ (∀ roomId' userId',
       (roomId', userId') ≠ (roomId, userId) →
       MemoryAdapter.entry roomId' userId' a'
       = MemoryAdapter.entry roomId' userId' a)
  ∧ length (MemoryAdapter.getUsers roomId a')
    = length (MemoryAdapter.getUsers roomId a)
  ∧ MemoryAdapter.subscribers a' = MemoryAdapter.subscribers a.
Proof.
  unfold MemoryAdapter.entry, MemoryAdapter.updateUser,
    MemoryAdapter.getUsers.
  destruct (MemoryAdapter.rooms a !! roomId) as [room|] eqn:Hroom;
    simpl; [|done].
  intros Huser. rewrite Huser. simpl. split_and!; [| | |done].
  - rewrite lookup_insert_eq. simpl. apply oget_oset_eq.
  - intros roomId' userId' Hne.
    destruct (decide (roomId = roomId')) as [<-|Hr].
    + rewrite lookup_insert_eq, Hroom. simpl. apply oget_oset_ne. congruence.
    + by rewrite lookup_insert_ne.
  - rewrite lookup_insert_eq. by eapply ovalues_oset_present.
Qed.

(** X5. [joinRoom] of an identity that is not a member puts its new [User]
    last in the list of the room, after the members it had, and leaves the
    lists of the other rooms alone. *)
Theorem memory_joinRoom_appends_new_member a roomId userId metadata :
  MemoryAdapter.member roomId userId a = false →
  let a' := MemoryAdapter.joinRoom roomId userId metadata a in
  MemoryAdapter.getUsers roomId a'
  = MemoryAdapter.getUsers roomId a ++ [fresh_user roomId userId metadata]
  ∧ (∀ roomId', roomId' ≠ roomId →
       MemoryAdapter.getUsers roomId' a' = MemoryAdapter.getUsers roomId' a).
Proof.
  intros Habsent%member_false_entry. unfold MemoryAdapter.entry in Habsent.
  unfold MemoryAdapter.joinRoom, MemoryAdapter.getUsers, ohas.
  destruct (MemoryAdapter.rooms a !! roomId) as [room|] eqn:Hroom; simpl.
  - simpl in Habsent. rewrite Hroom. simpl. rewrite Habsent. simpl. split.
    + rewrite lookup_insert_eq, (oset_absent _ _ _ Habsent).
      unfold ovalues. by rewrite map_app.
    + intros roomId' Hne. by rewrite lookup_insert_ne.
  - rewrite lookup_insert_eq. simpl. split.
    + by rewrite lookup_insert_eq.
    + intros roomId' Hne. by rewrite !lookup_insert_ne.
Qed.

(** X6. The callbacks of a room are a set: subscribing a callback a second
    time changes nothing, and unsubscribing a callback that was not
    subscribed before gives the store back as it was. *)
Theorem memory_subscribe_is_a_set_insertion a roomId (callback : Callback) :
  subscribed_once a →
  let a' := MemoryAdapter.subscribe roomId callback a in
  MemoryAdapter.subscribe roomId callback a' = a'
  ∧ (callback ∉ default [] (MemoryAdapter.subscribers a !! roomId) →
     MemoryAdapter.unsubscribe roomId callback a' = a).
Proof.
  intros Honce. unfold MemoryAdapter.subscribe, MemoryAdapter.unsubscribe.
  simpl.
  destruct (MemoryAdapter.subscribers a !! roomId) as [cbs|] eqn:Hsubs;
    simpl.
  - rewrite Hsubs. simpl. rewrite !lookup_insert_eq. simpl. split.
    + rewrite insert_insert_eq. do 2 f_equal.
      unfold sadd at 1. rewrite decide_True; [done|].
      unfold sadd. destruct (decide (callback ∈ cbs)); [done|].
      apply elem_of_app. right. apply list_elem_of_here.
    + intros Hnotin. unfold sadd.
      destruct (decide (callback ∈ cbs)) as [|_]; [done|].
      rewrite sdelete_app, (sdelete_absent _ _ Hnotin). simpl.
      destruct (decide (callback = callback)); [|done]. rewrite app_nil_r.
      destruct (Honce roomId cbs Hsubs) as [Hnonempty _].
      rewrite decide_False by (by destruct cbs).
      rewrite insert_insert_eq, insert_id by done. by destruct a.
  - rewrite !lookup_insert_eq. simpl. split.
    + rewrite !insert_insert_eq. do 2 f_equal.
      unfold sadd. simpl. rewrite decide_True; [done|].
      apply list_elem_of_here.
    + intros _. unfold sadd. simpl.
      destruct (decide (callback ∈ [])) as [Hin|_];
        [by apply elem_of_nil in Hin|].
      simpl. destruct (decide (callback = callback)); [simpl|done].
      rewrite !delete_insert_eq, delete_id by done. by destruct a.
Qed.
End MemoryRoundTrips.

Lemma memory_join_then_leave_restores_witness :
  MemoryAdapter.leaveRoom "r1" "u2"
    (MemoryAdapter.joinRoom "r1" "u2" None typing_member) = typing_member.
Proof.
  apply memory_join_then_leave_restores; [|done].
  unfold typing_member.
  apply kept_updateUser, kept_joinRoom, kept_empty.
Defined.

Lemma memory_updateUser_merges_witness :
  MemoryAdapter.entry "r1" "u1"
    (MemoryAdapter.updateUser "r1" "u1"
       {| p_id := None; p_roomId := None; p_cursor := Some (Some p11);
          p_typing := None; p_metadata := None |} typing_member)
  = Some {| u_id := "u1"; u_roomId := "r1"; u_cursor := Some p11;
            u_typing := true; u_metadata := None |}.
Proof.
  destruct (memory_updateUser_merges typing_member "r1" "u1"
              {| u_id := "u1"; u_roomId := "r1"; u_cursor := None;
                 u_typing := true; u_metadata := None |}
              {| p_id := None; p_roomId := None; p_cursor := Some (Some p11);
                 p_typing := None; p_metadata := None |} eq_refl)
    as (Hmerged & _).
  exact Hmerged.
Defined.

Lemma memory_joinRoom_appends_new_member_witness :
  MemoryAdapter.getUsers "r1"
    (MemoryAdapter.joinRoom "r1" "u2" None typing_member)
  = MemoryAdapter.getUsers "r1" typing_member ++ [fresh_user "r1" "u2" None].
Proof.
  destruct (memory_joinRoom_appends_new_member typing_member "r1" "u2" None
              eq_refl) as (Hlist & _).
  exact Hlist.
Defined.

Lemma memory_subscribe_is_a_set_insertion_witness :
  let a' := MemoryAdapter.subscribe "r1" 4%nat three_subscribers in
  MemoryAdapter.subscribe "r1" 4%nat a' = a'
  ∧ MemoryAdapter.unsubscribe "r1" 4%nat a' = three_subscribers.
Proof.
  assert (subscribed_once three_subscribers) as Honce.
  { unfold three_subscribers.
    do 3 apply subscribed_once_subscribe. apply subscribed_once_empty. }
  destruct (memory_subscribe_is_a_set_insertion three_subscribers "r1"
              4%nat Honce) as (Hagain & Hback).
  split; [exact Hagain|]. apply Hback. vm_compute.
  intros Hin. repeat (apply elem_of_cons in Hin as [?|Hin]; [done|]).
  by apply elem_of_nil in Hin.
Defined.

Section MemoryDelivery.
Context {Callback W : Type} `{EqDecision Callback}.
Variable invoke : Callback → ServerMessage → W → Completion W.

Lemma filter_eq_absent (x : Callback) (l : list Callback) :
  x ∉ l → filter (λ y, y = x) l = [].
Proof.
  induction l as [|y l IH]; [done|].
  intros [Hne Hl]%not_elem_of_cons.
  rewrite filter_cons, decide_False by done. by apply IH.
Qed.

Lemma filter_eq_once (x : Callback) (l : list Callback) :
  NoDup l → x ∈ l → length (filter (λ y, y = x) l) = 1%nat.
Proof.
  induction 1 as [|y l Hnotin Hnd IH]; [by intros ?%elem_of_nil|].
  rewrite filter_cons. intros [->|Hin]%elem_of_cons.
  - rewrite decide_True by done. simpl. by rewrite filter_eq_absent.
  - rewrite decide_False by (by intros ->). by apply IH.
Qed.

Lemma subscribe_lookup a roomId (callback : Callback) :
  ∃ callbacks,
    MemoryAdapter.subscribers (MemoryAdapter.subscribe roomId callback a)
    !! roomId = Some callbacks
    ∧ callback ∈ callbacks.
Proof.
  unfold MemoryAdapter.subscribe. simpl. rewrite lookup_insert_eq.
  eexists. split; [done|]. unfold sadd.
  destruct (decide _) as [Hin|_]; [done|].
  apply elem_of_app. right. apply list_elem_of_here.
Qed.

(** X7. After [subscribe], a broadcast to the room runs the callback
    exactly once, however often it was subscribed; after [unsubscribe] a
    broadcast does not run it. (The callbacks are taken to return.) *)
Theorem memory_subscribed_callback_runs_once a roomId (callback : Callback)
    message w :
  subscribed_once a →
  (∀ c, returns invoke message c) →
  let a1 := MemoryAdapter.subscribe roomId callback a in
  let a2 := MemoryAdapter.unsubscribe roomId callback a1 in
  (∃ w' noted,
     MemoryAdapter.broadcast (noting invoke) roomId message a1 (w, [])
     = Returned (w', noted)
     ∧ length (filter (λ c, c = callback) noted) = 1%nat)
  ∧ (∃ w' noted,
       MemoryAdapter.broadcast (noting invoke) roomId message a2 (w, [])
       = Returned (w', noted)
       ∧ callback ∉ noted).
Proof.
  intros Honce Hreturn a1 a2.
  destruct (subscribe_lookup a roomId callback) as (cbs & Hcbs & Hin).
  fold a1 in Hcbs.
  pose proof (subscribed_once_subscribe roomId callback a Honce) as Honce1.
  fold a1 in Honce1. destruct (Honce1 roomId cbs Hcbs) as [_ Hnd].
  split.
  - unfold MemoryAdapter.broadcast. rewrite Hcbs.
    destruct (forEach_all_return invoke cbs message w [])
      as [w' Hrun]; [by apply Forall_forall|].
    exists w', cbs. split; [exact Hrun|]. by apply filter_eq_once.
  - subst a2. unfold MemoryAdapter.broadcast, MemoryAdapter.unsubscribe.
    rewrite Hcbs. destruct (decide _) as [Hempty|Hsome]; simpl.
    + rewrite lookup_delete_eq. exists w, []. split; [done|].
      apply not_elem_of_nil.
    + rewrite lookup_insert_eq.
      destruct (forEach_all_return invoke (sdelete callback cbs) message w [])
        as [w' Hrun]; [by apply Forall_forall|].
      exists w', (sdelete callback cbs). split; [exact Hrun|].
      rewrite elem_of_sdelete. tauto.
Qed.
End MemoryDelivery.

Lemma memory_subscribed_callback_runs_once_witness :
  ∃ w' noted,
    MemoryAdapter.broadcast (noting quiet) "r1" (server_message s_ping)
      (MemoryAdapter.subscribe "r1" 2%nat three_subscribers) (tt, [])
    = Returned (w', noted)
    ∧ length (filter (λ c, c = 2%nat) noted) = 1%nat.
Proof.
  assert (subscribed_once three_subscribers) as Honce.
  { unfold three_subscribers.
    do 3 apply subscribed_once_subscribe. apply subscribed_once_empty. }
  assert (∀ c, returns quiet (server_message s_ping) c) as Hquiet.
  { intros c w. by exists w. }
  destruct (memory_subscribed_callback_runs_once quiet three_subscribers
              "r1" 2%nat (server_message s_ping) tt Honce Hquiet)
    as (Honce' & _).
  exact Honce'.
Defined.

(** ** The store of the distributed adapter *)

Section RedisMore.
Implicit Types (db : RedisAdapter.t) (roomId userId key field : string).

Lemma length_append (s1 s2 : string) :
  String.length (s1 +:+ s2) = (String.length s1 + String.length s2)%nat.
Proof. induction s1 as [|c s1 IH]; simpl; [done|]. by rewrite IH. Qed.

Lemma append_inj_r (s1 s2 t : string) : s1 +:+ t = s2 +:+ t → s1 = s2.
Proof.
  revert s2. induction s1 as [|c s1 IH]; intros [|c2 s2]; simpl.
  - done.
  - intros Heq. apply (f_equal String.length) in Heq.
    rewrite ?length_append in Heq. simpl in Heq.
    rewrite ?length_append in Heq. lia.
  - intros Heq. apply (f_equal String.length) in Heq.
    rewrite ?length_append in Heq. simpl in Heq.
    rewrite ?length_append in Heq. lia.
  - intros [= -> Heq]. f_equal. by apply IH.
Qed.

Lemma users_key_inj roomId roomId' :
  RedisAdapter.users_key roomId = RedisAdapter.users_key roomId' →
  roomId = roomId'.
Proof.
  unfold RedisAdapter.users_key. intros Heq.
  apply (inj (String.append "room:")) in Heq. by apply append_inj_r in Heq.
Qed.

Lemma members_key_inj roomId roomId' :
  RedisAdapter.members_key roomId = RedisAdapter.members_key roomId' →
  roomId = roomId'.
Proof.
  unfold RedisAdapter.members_key. intros Heq.
  apply (inj (String.append "room:")) in Heq. by apply append_inj_r in Heq.
Qed.

Lemma hget_hset key field value key' field' db :
  RedisAdapter.hget key' field' (RedisAdapter.hset key field value db)
  = if decide (key = key' ∧ field = field') then Some value
    else RedisAdapter.hget key' field' db.
Proof.
  unfold RedisAdapter.hget, RedisAdapter.hset. simpl.
  destruct (decide (key = key')) as [<-|Hk].
  - rewrite lookup_insert_eq. simpl.
    destruct (decide (field = field')) as [<-|Hf].
    + rewrite lookup_insert_eq. by rewrite decide_True.
    + rewrite lookup_insert_ne by done. rewrite decide_False by tauto.
      by destruct (RedisAdapter.hashes db !! key).
  - rewrite lookup_insert_ne by done. by rewrite decide_False by tauto.
Qed.

Lemma hget_hdel key field key' field' db :
  RedisAdapter.hget key' field' (RedisAdapter.hdel key field db)
  = if decide (key = key' ∧ field = field') then None
    else RedisAdapter.hget key' field' db.
Proof.
  unfold RedisAdapter.hget, RedisAdapter.hdel.
  destruct (RedisAdapter.hashes db !! key) as [h|] eqn:Hh; simpl.
  - destruct (decide (key = key')) as [<-|Hk].
    + rewrite Hh. simpl. destruct (decide (delete field h = ∅)) as [He|He].
      * rewrite lookup_delete_eq. simpl.
        destruct (decide (field = field')) as [<-|Hf].
        -- by rewrite decide_True.
        -- rewrite decide_False by tauto.
           rewrite <- (lookup_delete_ne h field field') by done.
           by rewrite He.
      * rewrite lookup_insert_eq. simpl.
        destruct (decide (field = field')) as [<-|Hf].
        -- rewrite decide_True by done. apply lookup_delete_eq.
        -- rewrite decide_False by tauto. by apply lookup_delete_ne.
    + destruct (decide (delete field h = ∅)); simpl;
        rewrite ?lookup_delete_ne, ?lookup_insert_ne by done;
        by rewrite decide_False by tauto.
  - destruct (decide (key = key' ∧ field = field')) as [[<- <-]|]; [|done].
    by rewrite Hh.
Qed.

Lemma members_sadd key member key' db :
  default ∅ (RedisAdapter.sets (RedisAdapter.sadd key member db) !! key')
  = if decide (key = key')
    then {[member]} ∪ default ∅ (RedisAdapter.sets db !! key')
    else default ∅ (RedisAdapter.sets db !! key').
Proof.
  unfold RedisAdapter.sadd. simpl. destruct (decide (key = key')) as [<-|Hk].
  - by rewrite lookup_insert_eq.
  - by rewrite lookup_insert_ne.
Qed.

Lemma members_srem key member key' db :
  default ∅ (RedisAdapter.sets (RedisAdapter.srem key member db) !! key')
  = if decide (key = key')
    then default ∅ (RedisAdapter.sets db !! key') ∖ {[member]}
    else default ∅ (RedisAdapter.sets db !! key').
Proof.
  unfold RedisAdapter.srem.
  destruct (RedisAdapter.sets db !! key) as [s|] eqn:Hs; simpl.
  - destruct (decide (key = key')) as [<-|Hk].
    + rewrite Hs. simpl. destruct (decide (s ∖ {[member]} = ∅)) as [He|He].
      * rewrite lookup_delete_eq. simpl. by rewrite He.
      * by rewrite lookup_insert_eq.
    + destruct (decide _); by rewrite ?lookup_delete_ne, ?lookup_insert_ne.
  - destruct (decide (key = key')) as [<-|Hk]; [|done].
    rewrite Hs. simpl. set_solver.
Qed.

Lemma consistent_empty : consistent RedisAdapter.empty.
Proof.
  intros roomId userId. unfold RedisAdapter.hget. simpl.
  rewrite !lookup_empty. simpl. split; [set_solver|by intros [? ?]].
Qed.

Lemma hget_sadd key field key' member db :
  RedisAdapter.hget key field (RedisAdapter.sadd key' member db)
  = RedisAdapter.hget key field db.
Proof. done. Qed.

Lemma hget_srem key field key' member db :
  RedisAdapter.hget key field (RedisAdapter.srem key' member db)
  = RedisAdapter.hget key field db.
Proof.
  unfold RedisAdapter.hget, RedisAdapter.srem. by destruct (_ !! key').
Qed.

Lemma sets_hset key field value db :
  RedisAdapter.sets (RedisAdapter.hset key field value db)
  = RedisAdapter.sets db.
Proof. done. Qed.

Lemma sets_hdel key field db :
  RedisAdapter.sets (RedisAdapter.hdel key field db) = RedisAdapter.sets db.
Proof. unfold RedisAdapter.hdel. by destruct (_ !! key). Qed.

Lemma consistent_joinRoom db roomId userId metadata :
  consistent db →
  consistent (RedisAdapter.joinRoom roomId userId metadata db).
Proof.
  intros Hcons roomId' userId'. unfold RedisAdapter.joinRoom.
  rewrite members_sadd, hget_sadd, hget_hset, sets_hset.
  specialize (Hcons roomId' userId').
  destruct (decide (RedisAdapter.members_key roomId
                    = RedisAdapter.members_key roomId')) as [Hk|Hk].
  - apply members_key_inj in Hk as <-.
    destruct (decide (userId = userId')) as [<-|Hu].
    + rewrite decide_True by done. split; [by eexists | set_solver].
    + rewrite decide_False by tauto. rewrite <- Hcons. set_solver.
  - rewrite decide_False; [done|]. intros [Hk' _]. apply Hk.
    apply users_key_inj in Hk'. by rewrite Hk'.
Qed.

Lemma consistent_leaveRoom db roomId userId :
  consistent db →
  consistent (RedisAdapter.leaveRoom roomId userId db).
Proof.
  intros Hcons roomId' userId'. unfold RedisAdapter.leaveRoom.
  rewrite members_srem, hget_srem, hget_hdel, sets_hdel.
  specialize (Hcons roomId' userId').
  destruct (decide (RedisAdapter.members_key roomId
                    = RedisAdapter.members_key roomId')) as [Hk|Hk].
  - apply members_key_inj in Hk as <-.
    destruct (decide (userId = userId')) as [<-|Hu].
    + rewrite decide_True by done. split; [set_solver | by intros [? ?]].
    + rewrite decide_False by tauto. rewrite <- Hcons. set_solver.
  - rewrite decide_False; [done|]. intros [Hk' _]. apply Hk.
    apply users_key_inj in Hk'. by rewrite Hk'.
Qed.

Lemma consistent_updateUser db roomId userId updates :
  consistent db →
  consistent (RedisAdapter.updateUser roomId userId updates db).
Proof.
  intros Hcons roomId' userId'. unfold RedisAdapter.updateUser.
  destruct (RedisAdapter.hget (RedisAdapter.users_key roomId) userId db)
    as [user|] eqn:Huser; [|apply Hcons].
  rewrite hget_hset, sets_hset. specialize (Hcons roomId' userId').
  destruct (decide _) as [[Hk <-]|]; [|done].
  apply users_key_inj in Hk as <-. rewrite Hcons, Huser.
  split; by eexists.
Qed.

(** X8. The operations of the distributed adapter keep the two keys of
    every room in step: an identity is listed in the members set of a room
    exactly when the users hash of the room has a field for it. *)
Theorem redis_keys_stay_consistent db roomId userId metadata updates :
  consistent db →
  consistent (RedisAdapter.joinRoom roomId userId metadata db)
  ∧ consistent (RedisAdapter.leaveRoom roomId userId db)
  ∧ consistent (RedisAdapter.updateUser roomId userId updates db).
Proof.
  intros Hcons. split_and!.
  - by apply consistent_joinRoom.
  - by apply consistent_leaveRoom.
  - by apply consistent_updateUser.
Qed.

Lemma redis_keys_stay_consistent_witness :
  consistent (RedisAdapter.leaveRoom "r1" "u1"
                (RedisAdapter.joinRoom "r1" "u1" None RedisAdapter.empty)).
Proof.
  assert (consistent (RedisAdapter.joinRoom "r1" "u1" None RedisAdapter.empty))
    as Hjoined.
  { by destruct (redis_keys_stay_consistent RedisAdapter.empty "r1" "u1" None
                   no_updates consistent_empty) as (Hjoin & _). }
  by destruct (redis_keys_stay_consistent _ "r1" "u1" None no_updates Hjoined)
    as (_ & Hleft & _).
Defined.
End RedisMore.

Section RedisRoundTrips.
Implicit Types (db : RedisAdapter.t) (roomId userId key field : string).

(** X9. In a store whose keys agree, [getUsers] lists exactly the entries of
    the users hash of the room: an entry that is stored is listed, and what
    is listed is stored. *)
Theorem redis_getUsers_lists_the_entries db roomId user :
  consistent db →
  user ∈ RedisAdapter.getUsers roomId db
  ↔ ∃ userId,
      RedisAdapter.hget (RedisAdapter.users_key roomId) userId db = Some user.
Proof.
  intros Hcons. unfold RedisAdapter.getUsers, RedisAdapter.smembers,
    RedisAdapter.hmget.
  set (members := default ∅ (RedisAdapter.sets db
                              !! RedisAdapter.members_key roomId)).
  split.
  - destruct (decide _) as [|_]; [by intros ?%elem_of_nil|].
    intros (o & Hin & Ho)%list_elem_of_omap. simpl in Ho. subst o.
    apply list_elem_of_fmap in Hin as (userId & Hget & _). by exists userId.
  - intros [userId Hget].
    assert (userId ∈ elements members) as Hin.
    { apply elem_of_elements, Hcons. by eexists. }
    destruct (decide _) as [Hlen|_].
    + apply nil_length_inv in Hlen. rewrite Hlen in Hin.
      by apply elem_of_nil in Hin.
    + apply list_elem_of_omap. exists (Some user). split; [|done].
      apply list_elem_of_fmap. by exists userId.
Qed.

Lemma redis_getUsers_lists_the_entries_witness :
  fresh_user "r1" "u1" None
  ∈ RedisAdapter.getUsers "r1"
      (RedisAdapter.joinRoom "r1" "u1" None RedisAdapter.empty)
  ↔ ∃ userId,
      RedisAdapter.hget (RedisAdapter.users_key "r1") userId
        (RedisAdapter.joinRoom "r1" "u1" None RedisAdapter.empty)
      = Some (fresh_user "r1" "u1" None).
Proof.
  apply redis_getUsers_lists_the_entries.
  apply consistent_joinRoom, consistent_empty.
Defined.

Lemma compact_empty : compact RedisAdapter.empty.
Proof. split; intros key x; simpl; by rewrite lookup_empty. Qed.

(** X10. [leaveRoom] takes the identity out of both keys of the room; and
    for an identity the store does not know, [joinRoom] followed by
    [leaveRoom] gives the store back as it was. *)
Theorem redis_leaveRoom_undoes_joinRoom db roomId userId metadata :
  compact db →
  RedisAdapter.member roomId userId db = false →
  RedisAdapter.member roomId userId (RedisAdapter.leaveRoom roomId userId db)
  = false
  ∧ RedisAdapter.member roomId userId
      (RedisAdapter.leaveRoom roomId userId
         (RedisAdapter.joinRoom roomId userId metadata db)) = false
  ∧ RedisAdapter.leaveRoom roomId userId
      (RedisAdapter.joinRoom roomId userId metadata db) = db.
Proof.
  intros [Hhashes Hsets] Habsent.
  assert (∀ db', RedisAdapter.member roomId userId
                   (RedisAdapter.leaveRoom roomId userId db') = false)
    as Hgone.
  { intros db'. unfold RedisAdapter.member. apply bool_decide_eq_false.
    unfold RedisAdapter.leaveRoom.
    rewrite members_srem, hget_srem, hget_hdel, !decide_True by done.
    intros [Hin|[? ?]]; [set_solver|done]. }
  split_and!; [apply Hgone | apply Hgone |].
  apply bool_decide_eq_false in Habsent.
  assert (userId ∉ default ∅ (RedisAdapter.sets db
                               !! RedisAdapter.members_key roomId)) as Hset
    by tauto.
  assert (RedisAdapter.hget (RedisAdapter.users_key roomId) userId db = None)
    as Hhash.
  { destruct (RedisAdapter.hget _ _ _) eqn:He; [|done].
    destruct Habsent. right. by eexists. }
  unfold RedisAdapter.hget in Hhash.
  unfold RedisAdapter.leaveRoom, RedisAdapter.joinRoom, RedisAdapter.srem,
    RedisAdapter.hdel, RedisAdapter.sadd, RedisAdapter.hset. simpl.
  rewrite !lookup_insert_eq. simpl. rewrite !lookup_insert_eq.
  destruct db as [hashes sets]. simpl in *. f_equal.
  - destruct (hashes !! RedisAdapter.users_key roomId) as [h|] eqn:Hh;
      simpl in *.
    + rewrite delete_insert_id by done.
      rewrite decide_False by (by eapply Hhashes).
      by rewrite insert_insert_eq, insert_id.
    + rewrite delete_insert_id by apply lookup_empty.
      rewrite decide_True by done. by rewrite delete_insert_id.
  - destruct (sets !! RedisAdapter.members_key roomId) as [s|] eqn:Hs;
      simpl in *.
    + assert (({[userId]} ∪ s) ∖ {[userId]} = s) as -> by set_solver.
      rewrite decide_False by (by eapply Hsets).
      by rewrite insert_insert_eq, insert_id.
    + assert (({[userId]} ∪ ∅) ∖ {[userId]} = (∅ : gset string)) as ->
        by set_solver.
      rewrite decide_True by done. by rewrite delete_insert_id.
Qed.

Lemma redis_leaveRoom_undoes_joinRoom_witness :
  RedisAdapter.leaveRoom "r1" "u1"
    (RedisAdapter.joinRoom "r1" "u1" None RedisAdapter.empty)
  = RedisAdapter.empty.
Proof.
  by destruct (redis_leaveRoom_undoes_joinRoom RedisAdapter.empty "r1" "u1"
                 None compact_empty eq_refl) as (_ & _ & Hback).
Defined.
End RedisRoundTrips.

(** ** The subscriptions of the distributed adapter *)

Section RedisSubscriptions.
Context {Callback : Type} `{EqDecision Callback}.
Implicit Types (a : RedisSubscriber.t Callback) (roomId : string).

Lemma channel_names_the_room roomId :
  RedisSubscriber.replace "room:" "" (RedisSubscriber.channel roomId)
  = roomId.
Proof. by destruct roomId. Qed.

Lemma channel_inj roomId roomId' :
  RedisSubscriber.channel roomId = RedisSubscriber.channel roomId' →
  roomId = roomId'.
Proof. unfold RedisSubscriber.channel. apply (inj (String.append "room:")). Qed.

Lemma redis_subscribe_lookup a roomId (callback : Callback) roomId' :
  RedisSubscriber.subscribers (RedisSubscriber.subscribe roomId callback a)
  !! roomId'
  = if decide (roomId = roomId')
    then Some (sadd callback
                 (default [] (RedisSubscriber.subscribers a !! roomId)))
    else RedisSubscriber.subscribers a !! roomId'.
Proof.
  unfold RedisSubscriber.subscribe.
  destruct (RedisSubscriber.subscribers a !! roomId) eqn:Hsubs; simpl;
    destruct (decide (roomId = roomId')) as [<-|Hne];
    rewrite ?lookup_insert_eq, ?lookup_insert_ne, ?Hsubs by done; done.
Qed.

Lemma redis_subscribe_channels a roomId (callback : Callback) :
  RedisSubscriber.channels (RedisSubscriber.subscribe roomId callback a)
  = match RedisSubscriber.subscribers a !! roomId with
    | Some _ => RedisSubscriber.channels a
    | None => {[RedisSubscriber.channel roomId]} ∪ RedisSubscriber.channels a
    end.
Proof.
  unfold RedisSubscriber.subscribe.
  by destruct (RedisSubscriber.subscribers a !! roomId).
Qed.

Lemma redis_unsubscribe_lookup a roomId (callback : Callback) roomId' :
  RedisSubscriber.subscribers (RedisSubscriber.unsubscribe roomId callback a)
  !! roomId'
  = if decide (roomId = roomId')
    then match RedisSubscriber.subscribers a !! roomId with
         | Some callbacks =>
             if decide (length (sdelete callback callbacks) = 0%nat)
             then None else Some (sdelete callback callbacks)
         | None => None
         end
    else RedisSubscriber.subscribers a !! roomId'.
Proof.
  unfold RedisSubscriber.unsubscribe.
  destruct (RedisSubscriber.subscribers a !! roomId) eqn:Hsubs; simpl.
  - destruct (decide (length _ = 0%nat)); simpl;
      destruct (decide (roomId = roomId')) as [<-|Hne];
      rewrite ?lookup_delete_eq, ?lookup_delete_ne, ?lookup_insert_eq,
        ?lookup_insert_ne by done; done.
  - destruct (decide (roomId = roomId')) as [<-|Hne]; done.
Qed.

Lemma channels_in_step_empty :
  channels_in_step (RedisSubscriber.empty (Callback := Callback)).
Proof.
  split; simpl.
  - intros ch. split; [set_solver|]. intros (roomId & _ & [? Hsome]).
    by rewrite lookup_empty in Hsome.
  - intros roomId callbacks. by rewrite lookup_empty.
Qed.

Lemma channels_in_step_subscribe a roomId (callback : Callback) :
  channels_in_step a →
  channels_in_step (RedisSubscriber.subscribe roomId callback a).
Proof.
  intros [Hch Honce]. split.
  - intros ch. rewrite redis_subscribe_channels.
    setoid_rewrite redis_subscribe_lookup.
    destruct (RedisSubscriber.subscribers a !! roomId) as [cbs|] eqn:Hsubs.
    + rewrite Hch. split; intros (r & -> & Hsome); exists r;
        (split; [done|]); destruct (decide (roomId = r)) as [<-|Hne];
        by rewrite ?Hsubs.
    + rewrite elem_of_union, elem_of_singleton, Hch. split.
      * intros [->|(r & -> & Hsome)].
        -- exists roomId. by rewrite decide_True.
        -- exists r. split; [done|]. by destruct (decide (roomId = r)).
      * intros (r & -> & Hsome). destruct (decide (roomId = r)) as [<-|Hne];
          [by left | right; by exists r].
  - intros r callbacks. rewrite redis_subscribe_lookup.
    destruct (decide (roomId = r)) as [<-|Hne]; [|apply Honce].
    intros [= <-].
    destruct (RedisSubscriber.subscribers a !! roomId) as [cbs|] eqn:Hsubs;
      simpl.
    + split; [|by apply NoDup_sadd, (Honce roomId)].
      unfold sadd. destruct (decide _) as [Hin|_].
      * intros ->. by apply elem_of_nil in Hin.
      * by destruct cbs.
    + split; [done|]. apply NoDup_sadd, NoDup_nil_2.
Qed.

Lemma channels_in_step_unsubscribe a roomId (callback : Callback) :
  channels_in_step a →
  channels_in_step (RedisSubscriber.unsubscribe roomId callback a).
Proof.
  intros [Hch Honce]. split.
  - intros ch. setoid_rewrite redis_unsubscribe_lookup.
    unfold RedisSubscriber.unsubscribe.
    destruct (RedisSubscriber.subscribers a !! roomId) as [cbs|] eqn:Hsubs.
    + destruct (decide (length _ = 0%nat)) as [Hempty|Hsome]; simpl.
      * rewrite elem_of_difference, elem_of_singleton, Hch. split.
        -- intros [(r & -> & Hr) Hne]. exists r. split; [done|].
           rewrite decide_False; [done|]. by intros <-.
        -- intros (r & -> & Hr). destruct (decide (roomId = r)) as [<-|Hne];
             [by destruct Hr|].
           split; [by exists r|]. by intros ?%channel_inj.
      * rewrite Hch. split; intros (r & -> & Hr); exists r; (split; [done|]);
          destruct (decide (roomId = r)) as [<-|Hne]; by rewrite ?Hsubs.
    + rewrite Hch. split; intros (r & -> & Hr); exists r; (split; [done|]);
        destruct (decide (roomId = r)) as [<-|Hne];
        rewrite ?Hsubs in *; by try destruct Hr.
  - intros r callbacks. rewrite redis_unsubscribe_lookup.
    destruct (decide (roomId = r)) as [<-|Hne]; [|apply Honce].
    destruct (RedisSubscriber.subscribers a !! roomId) as [cbs|] eqn:Hsubs;
      [|done].
    destruct (decide _) as [|Hsome]; [done|]. intros [= <-]. split.
    + intros Hnil. apply Hsome. by rewrite Hnil.
    + apply NoDup_sdelete. by apply (Honce roomId).
Qed.

(** X11. The [sub] connection of a process is subscribed to the channel of
    a room exactly while the process holds a callback for the room: the
    first [subscribe] of a room opens the channel, further ones share it,
    and the [unsubscribe] of the last callback releases it. *)
Theorem redis_channels_follow_the_callbacks a roomId (callback : Callback) :
  channels_in_step a →
  channels_in_step (RedisSubscriber.subscribe roomId callback a)
  ∧ channels_in_step (RedisSubscriber.unsubscribe roomId callback a).
Proof.
  intros Hstep. split.
  - by apply channels_in_step_subscribe.
  - by apply channels_in_step_unsubscribe.
Qed.

(** X12. A message published to the channel of a room runs, in a process,
    the callbacks that the process holds for that room, in the order of
    their registration, and no others: the room is recovered from the name
    of the channel, whatever its name, and the callbacks run as those of the
    in-process adapter do. *)
Theorem redis_published_message_reaches_the_room {W}
    (invoke : Callback → ServerMessage → W → Completion W) a roomId message
    w :
  channels_in_step a →
  RedisSubscriber.replace "room:" "" (RedisSubscriber.channel roomId) = roomId
  ∧ RedisSubscriber.published invoke (RedisSubscriber.channel roomId) message
      a w
    = MemoryAdapter.broadcast invoke roomId message (in_process a) w.
Proof.
  intros [Hch _]. split; [apply channel_names_the_room|].
  unfold RedisSubscriber.published, RedisSubscriber.on_message,
    MemoryAdapter.broadcast.
  rewrite channel_names_the_room. simpl.
  destruct (decide _) as [Hin|Hout]; [done|].
  destruct (RedisSubscriber.subscribers a !! roomId) eqn:Hsubs; [|done].
  destruct Hout. apply Hch. exists roomId. by rewrite Hsubs.
Qed.
End RedisSubscriptions.

Lemma redis_channels_follow_the_callbacks_witness :
  channels_in_step
    (RedisSubscriber.unsubscribe "r1" 1%nat
       (RedisSubscriber.subscribe "r1" 1%nat RedisSubscriber.empty)).
Proof.
  assert (channels_in_step
            (RedisSubscriber.subscribe "r1" 1%nat RedisSubscriber.empty))
    as Hsub.
  { by destruct (redis_channels_follow_the_callbacks RedisSubscriber.empty
                   "r1" 1%nat channels_in_step_empty) as (Hs & _). }
  by destruct (redis_channels_follow_the_callbacks _ "r1" 1%nat Hsub)
    as (_ & Hu).
Defined.

Lemma redis_published_message_reaches_the_room_witness :
  RedisSubscriber.published (noting quiet) (RedisSubscriber.channel "room:7")
    (server_message s_ping)
    (RedisSubscriber.subscribe "room:7" 1%nat RedisSubscriber.empty) (tt, [])
  = Returned (tt, [1%nat]).
Proof.
  assert (channels_in_step
            (RedisSubscriber.subscribe "room:7" 1%nat RedisSubscriber.empty))
    as Hsub by apply channels_in_step_subscribe, channels_in_step_empty.
  destruct (redis_published_message_reaches_the_room (noting quiet) _
              "room:7" (server_message s_ping) (tt, []) Hsub) as (_ & ->).
  by vm_compute.
Defined.

(** ** The relay server *)

Create HintDb wire.

Section ServerWire.
Import Server.
Implicit Types (st : ServerState) (ws : WebSocket) (conn : ClientConnection).

Lemma keeps_ret P {A} (a : A) : keeps P (mret a).
Proof. by intros st. Qed.

Lemma keeps_bind P {A B} (m : Srv A) (f : A → Srv B) :
  keeps P m → (∀ a, keeps P (f a)) → keeps P (m ≫= f).
Proof.
  intros Hm Hf st HP. unfold mbind, Srv_bind.
  specialize (Hm st HP). destruct (m st) as [a st']. by apply Hf.
Qed.

Lemma wire_frame st st' :
  outbox st' = outbox st → wire_clean st → wire_clean st'.
Proof. unfold wire_clean. by intros ->. Qed.

Lemma wire_get_connection ws : keeps wire_clean (get_connection ws).
Proof. by intros st. Qed.

Lemma wire_set_connection ws conn : keeps wire_clean (set_connection ws conn).
Proof. intros st. by apply wire_frame. Qed.

Lemma wire_delete_connection ws :
  keeps wire_clean (modify (with_connections (odelete ws))).
Proof. intros st. by apply wire_frame. Qed.

Lemma wire_adapter_joinRoom roomId userId metadata :
  keeps wire_clean (adapter_joinRoom roomId userId metadata).
Proof. intros st. by apply wire_frame. Qed.

Lemma wire_adapter_leaveRoom roomId userId :
  keeps wire_clean (adapter_leaveRoom roomId userId).
Proof. intros st. by apply wire_frame. Qed.

Lemma wire_adapter_updateUser roomId userId updates :
  keeps wire_clean (adapter_updateUser roomId userId updates).
Proof. intros st. by apply wire_frame. Qed.

Lemma wire_adapter_getUsers roomId : keeps wire_clean (adapter_getUsers roomId).
Proof. intros st. by apply wire_frame. Qed.

Lemma wire_subscribeToRoom roomId : keeps wire_clean (subscribeToRoom roomId).
Proof.
  intros st. apply wire_frame.
  by destruct (subscribeToRoom_frame roomId st) as (_ & _ & Ho & _).
Qed.

Lemma wire_unsubscribeFromRoom roomId :
  keeps wire_clean (unsubscribeFromRoom roomId).
Proof.
  intros st. apply wire_frame.
  by destruct (unsubscribeFromRoom_frame roomId st) as (_ & _ & Ho & _).
Qed.

Lemma wire_ws_send ws message :
  _excludeUserId message = None → keeps wire_clean (ws_send ws message).
Proof.
  intros Hclean st Hst. unfold wire_clean. simpl.
  apply Forall_app. split; [done|]. by apply Forall_singleton.
Qed.

Lemma wire_broadcastToRoom roomId message excludeUserId :
  keeps wire_clean (broadcastToRoom roomId message excludeUserId).
Proof.
  intros st Hst. rewrite broadcastToRoom_spec. unfold wire_clean. simpl.
  apply Forall_app. split; [done|].
  unfold broadcast_deliveries, deliveries. apply Forall_concat, Forall_fmap.
  apply Forall_true. intros callback. apply Forall_fmap. by apply Forall_true.
Qed.

Local Hint Resolve keeps_ret wire_get_connection wire_set_connection
  wire_delete_connection wire_adapter_joinRoom wire_adapter_leaveRoom
  wire_adapter_updateUser wire_adapter_getUsers wire_subscribeToRoom
  wire_unsubscribeFromRoom wire_broadcastToRoom : wire.

Ltac wire_step :=
  match goal with
  | |- keeps _ (_ ≫= _) => apply keeps_bind; [|intros ?]
  | |- keeps _ (ws_send _ _) => apply wire_ws_send; reflexivity
  | |- keeps _ (match ?x with _ => _ end) => destruct x
  | |- keeps _ _ => solve [auto with wire]
  end.

Lemma wire_handle_message auth ws connection data uuid :
  keeps wire_clean (handle_message auth ws connection data uuid).
Proof.
  unfold handle_message.
  destruct (m_type data), connection; repeat wire_step.
Qed.

Lemma wire_step_clean auth ev st : wire_clean st → wire_clean (step auth ev st).
Proof.
  intros Hst. destruct ev as [ws|ws [data|e] uuid|ws]; simpl.
  - by apply (wire_frame st).
  - unfold exec, on_message, mbind, Srv_bind, get_connection.
    by apply wire_handle_message.
  - by apply wire_ws_send.
  - assert (wire_clean (with_sockets (insert ws CLOSED) st)) as Hst'
      by (by apply (wire_frame st)).
    revert Hst'. generalize (with_sockets (insert ws CLOSED) st). intros st'.
    apply (keeps_bind wire_clean); [auto with wire|].
    intros connection. repeat wire_step.
Qed.

(** X13. Whatever happens to a server, no message that it sends to a socket
    carries the [_excludeUserId] key. *)
Theorem server_never_sends_the_exclusion_marker auth st ws message :
  reachable auth st →
  (ws, message) ∈ outbox st →
  _excludeUserId message = None.
Proof.
  intros Hreach.
  assert (wire_clean st) as Hclean.
  { induction Hreach as [|st ev _ IH]; [apply Forall_nil_2|].
    by apply wire_step_clean. }
  intros Hin. unfold wire_clean in Hclean.
  by apply (proj1 (Forall_forall _ _) Hclean (ws, message)).
Qed.
End ServerWire.

Lemma server_never_sends_the_exclusion_marker_witness :
  _excludeUserId (Server.presence [fresh_user "r1" "u1" None]) = None.
Proof.
  apply (server_never_sends_the_exclusion_marker None two_in_r1 1%nat).
  - apply reachable_run, Server.reachable_initial.
  - vm_compute. apply list_elem_of_here.
Defined.

Section ServerErrors.
Import Server.
Implicit Types (st : ServerState) (ws : WebSocket) (conn : ClientConnection).

(** X14. A socket that has not joined can do nothing but join: any other
    message is answered with the error of the guard, to the sender alone,
    and the server is otherwise as before. *)
Theorem server_unbound_socket_is_turned_away auth st ws data uuid :
  oget ws (connections st) = None →
  m_type data ≠ join_t →
  exec (on_message auth ws data uuid) st
  = with_outbox
      (λ o, o ++ [(ws, error "Not authenticated. Send join message first.")])
      st.
Proof.
  intros Hget Htype.
  unfold exec, on_message, handle_message, mbind, Srv_bind, get_connection.
  rewrite Hget. by destruct (m_type data).
Qed.

Lemma server_unbound_socket_is_turned_away_witness :
  exec (on_message None 9 (message_of leave_t) "") two_in_r1
  = with_outbox
      (λ o, o ++ [(9%nat,
                   error "Not authenticated. Send join message first.")])
      two_in_r1.
Proof.
  by apply (server_unbound_socket_is_turned_away None two_in_r1 9%nat
              (message_of leave_t) "").
Defined.

(** X15. With authentication configured, a join that is not a room switch
    and that the authentication turns down (no token, a token answered with
    an error, a [verifyToken] that throws) binds nothing and touches neither
    the store nor the subscriptions: the sender is sent one error, and the
    server is otherwise as before. *)
Theorem server_rejected_join_changes_nothing verifyToken st ws data uuid :
  m_type data = join_t →
  room_switch (oget ws (connections st)) data = None →
  rejected verifyToken data →
  ∃ text,
    exec (on_message (Some verifyToken) ws data uuid) st
    = with_outbox (λ o, o ++ [(ws, error text)]) st.
Proof.
  intros Htype Hswitch Hrejected.
  unfold exec, on_message, handle_message, mbind, Srv_bind, get_connection.
  rewrite Htype, Hswitch. unfold rejected in Hrejected.
  destruct (truthy (m_token data)) as [token|]; [|by eexists].
  destruct (verifyToken token) as [authResult|e]; [|by eexists].
  destruct Hrejected as [e He]. rewrite He. by eexists.
Qed.

Lemma server_rejected_join_changes_nothing_witness :
  ∃ text,
    exec (on_message (Some one_token) 9
            {| m_type := join_t; m_roomId := Some "r1"; m_position := None;
               m_isTyping := None; m_token := Some "guess";
               m_metadata := None; m_event := None; m_data := None |} "")
      two_in_r1
    = with_outbox (λ o, o ++ [(9%nat, error text)]) two_in_r1.
Proof.
  apply (server_rejected_join_changes_nothing one_token two_in_r1 9%nat);
    [done | done |]. vm_compute. by eexists.
Defined.
End ServerErrors.

Section ServerDelivery.
Import Server.
Implicit Types (st : ServerState) (ws : WebSocket) (conn : ClientConnection).

Lemma memory_leaveRoom_entry roomId userId (a : MemoryAdapter.t Callback) :
  MemoryAdapter.entry roomId userId (MemoryAdapter.leaveRoom roomId userId a)
  = None.
Proof.
  unfold MemoryAdapter.entry, MemoryAdapter.leaveRoom.
  destruct (MemoryAdapter.rooms a !! roomId) as [room|] eqn:Hroom.
  - destruct (decide _); simpl.
    + by rewrite lookup_delete_eq.
    + rewrite lookup_insert_eq. simpl. apply oget_odelete_eq.
  - by rewrite Hroom.
Qed.

Lemma memory_updateUser_entry roomId userId user updates
    (a : MemoryAdapter.t Callback) :
  MemoryAdapter.entry roomId userId a = Some user →
  MemoryAdapter.entry roomId userId
    (MemoryAdapter.updateUser roomId userId updates a)
  = Some (assign user updates).
Proof.
  unfold MemoryAdapter.entry, MemoryAdapter.updateUser.
  destruct (MemoryAdapter.rooms a !! roomId) as [room|]; simpl; [|done].
  intros Huser. rewrite Huser. simpl. rewrite lookup_insert_eq. simpl.
  apply oget_oset_eq.
Qed.

Lemma subscribeToRoom_subscribed roomId st :
  is_Some (roomSubscriptions (exec (subscribeToRoom roomId) st) !! roomId).
Proof.
  unfold exec, subscribeToRoom.
  destruct (roomSubscriptions st !! roomId) eqn:Hsub; simpl.
  - by rewrite Hsub.
  - by rewrite lookup_insert_eq.
Qed.

(** The list of a room shows a member under its identity. *)
Lemma find_user_present st roomId userId user :
  inv st →
  MemoryAdapter.entry roomId userId (adapter st) = Some user →
  find_user userId (members roomId st) = Some user.
Proof.
  intros Hinv. unfold MemoryAdapter.entry, members, MemoryAdapter.getUsers.
  destruct (MemoryAdapter.rooms (adapter st) !! roomId) as [room|] eqn:Hroom;
    simpl; [|done].
  assert (∀ userId' user', (userId', user') ∈ room → u_id user' = userId')
    as Hown by (intros ??; by apply (inv_own_id st Hinv roomId room)).
  clear Hroom. induction room as [|[k u] room IH]; simpl; [done|].
  assert (u_id u = k) as Hk by (apply Hown, list_elem_of_here).
  destruct (decide (userId = k)) as [->|Hne].
  - intros [= ->]. unfold find_user. simpl. by rewrite bool_decide_eq_true_2.
  - intros Hget. unfold find_user. simpl.
    rewrite bool_decide_eq_false_2 by congruence.
    apply IH; [|done]. intros userId' user' Hin.
    apply Hown. by apply list_elem_of_further.
Qed.

(** What a broadcast brings to each socket, in a room with its callback. *)
Lemma broadcast_received st roomId callback message excludeUserId ws :
  inv st →
  roomSubscriptions st !! roomId = Some callback →
  let excluded := match truthy excludeUserId with
                  | Some e => Some e
                  | None => _excludeUserId message
                  end in
  received ws (exec (broadcastToRoom roomId message excludeUserId) st)
  = received ws st
    ++ match oget ws (connections st) with
       | Some conn =>
           if decide (c_roomId conn = roomId
                      ∧ excluded ≠ Some (c_userId conn)
                      ∧ readyState ws st = OPEN)
           then [payload_of message] else []
       | None => []
       end.
Proof.
  intros Hinv Hsub excluded.
  pose proof (inv_subscribers st Hinv roomId) as Hsubs.
  rewrite Hsub in Hsubs. simpl in Hsubs.
  pose proof (inv_cb_room st Hinv roomId callback Hsub) as Hroom.
  rewrite exec_broadcastToRoom. simpl. rewrite received_app, Hsubs. simpl.
  unfold broadcast_deliveries. simpl. rewrite app_nil_r, Hroom.
  rewrite <- (received_deliveries ws excluded (payload_of message) roomId st
                (inv_sockets_once st Hinv) (inv_own_handle st Hinv)).
  subst excluded. by destruct (truthy excludeUserId).
Qed.

(** A broadcast to a room without callback brings nothing to anybody. *)
Lemma broadcast_unsubscribed st roomId message excludeUserId :
  inv st →
  roomSubscriptions st !! roomId = None →
  outbox (exec (broadcastToRoom roomId message excludeUserId) st) = outbox st.
Proof.
  intros Hinv Hsub.
  pose proof (inv_subscribers st Hinv roomId) as Hsubs.
  rewrite Hsub in Hsubs. simpl in Hsubs.
  rewrite exec_broadcastToRoom. simpl. rewrite Hsubs. simpl.
  apply app_nil_r.
Qed.
End ServerDelivery.

Section ServerRooms.
Import Server.
Implicit Types (st : ServerState) (ws : WebSocket) (conn : ClientConnection).

(** What the five calls of a join come to, for any identity. *)
Lemma join_sequence st ws userId roomId metadata :
  inv st →
  let conn := {| c_ws := ws; c_userId := userId; c_roomId := roomId;
                 c_metadata := metadata |} in
  let st' :=
    exec (set_connection ws conn ;;
          adapter_joinRoom roomId userId metadata ;;
          subscribeToRoom roomId ;;
          users ← adapter_getUsers roomId;
          broadcastToRoom roomId (presence users) None) st in
  let users := members roomId st' in
  oget ws (connections st') = Some conn
  ∧ is_Some (find_user userId users)
  ∧ is_Some (roomSubscriptions st' !! roomId)
  ∧ (∀ ws',
       received ws' st'
       = received ws' st
         ++ match oget ws' (connections st') with
            | Some conn' =>
                if decide (c_roomId conn' = roomId ∧ readyState ws' st = OPEN)
                then [presence users] else []
            | None => []
            end).
Proof.
  intros Hinv conn st' users.
  set (st3 := exec (subscribeToRoom roomId)
                (exec (adapter_joinRoom roomId userId metadata)
                   (exec (set_connection ws conn) st))).
  set (st4 := exec (adapter_getUsers roomId) st3).
  assert (st' = exec (broadcastToRoom roomId
                        (presence (members roomId st3)) None) st4) as Hst'.
  { subst st'. by rewrite !exec_bind. }
  assert (inv st3) as Hinv3.
  { apply preserves_subscribeToRoom, preserves_adapter_joinRoom,
      preserves_set_connection; done. }
  assert (inv st4) as Hinv4 by (by apply preserves_adapter_getUsers).
  destruct (subscribeToRoom_subscribed roomId
              (exec (adapter_joinRoom roomId userId metadata)
                 (exec (set_connection ws conn) st))) as [callback Hsub].
  fold st3 in Hsub.
  destruct (subscribeToRoom_frame roomId
              (exec (adapter_joinRoom roomId userId metadata)
                 (exec (set_connection ws conn) st)))
    as (Hc3 & Hr3 & Ho3 & Hs3).
  fold st3 in Hc3, Hr3, Ho3, Hs3. simpl in Hc3, Hr3, Ho3, Hs3.
  assert (connections st' = connections st3 ∧ adapter st' = adapter st3
          ∧ roomSubscriptions st' = roomSubscriptions st3)
    as (Hc' & Ha' & Hr').
  { by rewrite Hst', exec_broadcastToRoom. }
  assert (users = members roomId st3) as Husers.
  { subst users. unfold members. by rewrite Ha'. }
  split_and!.
  - rewrite Hc', Hc3. apply oget_oset_eq.
  - rewrite Husers.
    erewrite (find_user_present st3 roomId userId); [done|done|].
    unfold MemoryAdapter.entry. rewrite Hr3.
    apply memory_joinRoom_entry.
  - rewrite Hr'. by eexists.
  - intros ws'. rewrite Hc', Husers.
    pose proof (broadcast_received st4 roomId callback
                  (presence (members roomId st3)) None ws' Hinv4 Hsub)
      as Hrecv.
    rewrite <- Hst' in Hrecv. rewrite Hrecv. simpl.
    assert (received ws' st4 = received ws' st) as ->.
    { unfold received. simpl. by rewrite Ho3. }
    f_equal. destruct (oget ws' (connections st3)) as [conn'|]; [|done].
    assert (readyState ws' st4 = readyState ws' st) as ->.
    { unfold readyState. simpl. by rewrite Hs3. }
    destruct (decide (c_roomId conn' = roomId ∧ readyState ws' st = OPEN))
      as [[? ?]|Hno].
    + by rewrite decide_True.
    + rewrite decide_False; [done|]. intros (? & _ & ?). by apply Hno.
Qed.

(** X16. Without authentication, a join that is not a room switch binds the
    socket to the fresh identity in the room asked for (default when none is
    named), makes the identity a member of the room, leaves the room
    subscribed, and sends the presence of the room, which lists the new
    identity, once to every open socket bound to the room, the joining one
    included, and to no other socket. *)
Theorem server_join_is_announced_to_the_room st ws data uuid :
  reachable None st →
  m_type data = join_t →
  room_switch (oget ws (connections st)) data = None →
  let roomId := default "default" (truthy (m_roomId data)) in
  let st' := exec (on_message None ws data uuid) st in
  let users := members roomId st' in
  oget ws (connections st')
  = Some {| c_ws := ws; c_userId := uuid; c_roomId := roomId;
            c_metadata := m_metadata data |}
  ∧ is_Some (find_user uuid users)
  ∧ is_Some (roomSubscriptions st' !! roomId)
  ∧ (∀ ws',
       received ws' st'
       = received ws' st
         ++ match oget ws' (connections st') with
            | Some conn =>
                if decide (c_roomId conn = roomId ∧ readyState ws' st = OPEN)
                then [presence users] else []
            | None => []
            end).
Proof.
  intros Hinv%reachable_inv Htype Hswitch roomId st' users.
  pose proof (join_sequence st ws uuid roomId (m_metadata data) Hinv) as Hjoin.
  assert (st' = exec (set_connection ws
                        {| c_ws := ws; c_userId := uuid; c_roomId := roomId;
                           c_metadata := m_metadata data |} ;;
                      adapter_joinRoom roomId uuid (m_metadata data) ;;
                      subscribeToRoom roomId ;;
                      users ← adapter_getUsers roomId;
                      broadcastToRoom roomId (presence users) None) st)
    as ->; [|done].
  subst st'. unfold on_message, handle_message. rewrite exec_bind.
  unfold get_connection at 1 2. simpl. by rewrite Htype, Hswitch.
Qed.

Lemma server_join_is_announced_to_the_room_witness :
  let st := run None [Connection 3] two_in_r1 in
  let st' := exec (on_message None 3 (join (Some "r1")) "u3") st in
  is_Some (find_user "u3" (members "r1" st'))
  ∧ received 2 st' = received 2 st ++ [presence (members "r1" st')]
  ∧ received 3 st' = [presence (members "r1" st')].
Proof.
  cbv zeta.
  destruct (server_join_is_announced_to_the_room
              (run None [Connection 3] two_in_r1) 3%nat (join (Some "r1"))
              "u3") as (_ & Hmember & _ & Hreceived).
  - apply reachable_run, reachable_run, reachable_initial.
  - done.
  - by vm_compute.
  - split_and!; [done|..].
    + rewrite (Hreceived 2%nat). by vm_compute.
    + rewrite (Hreceived 3%nat). by vm_compute.
Defined.

(** X17. With authentication, a join that is not a room switch and whose
    token [verifyToken] accepts binds the socket to the identity that
    [verifyToken] returned, not to a generated one, with the metadata of the
    authentication when it gives some and the metadata of the message
    otherwise; the identity is a member of the room, the room is subscribed,
    and the presence of the room goes to every open socket bound to it. *)
Theorem server_verified_join_binds_the_verified_identity
    verifyToken st ws data token authResult uuid :
  reachable (Some verifyToken) st →
  m_type data = join_t →
  room_switch (oget ws (connections st)) data = None →
  truthy (m_token data) = Some token →
  verifyToken token = AuthReturned authResult →
  truthy (a_error authResult) = None →
  let roomId := default "default" (truthy (m_roomId data)) in
  let metadata := match a_metadata authResult with
                  | Some m => Some m
                  | None => m_metadata data
                  end in
  let st' := exec (on_message (Some verifyToken) ws data uuid) st in
  let users := members roomId st' in
  oget ws (connections st')
  = Some {| c_ws := ws; c_userId := a_userId authResult; c_roomId := roomId;
            c_metadata := metadata |}
  ∧ is_Some (find_user (a_userId authResult) users)
  ∧ is_Some (roomSubscriptions st' !! roomId)
  ∧ (∀ ws',
       received ws' st'
       = received ws' st
         ++ match oget ws' (connections st') with
            | Some conn =>
                if decide (c_roomId conn = roomId ∧ readyState ws' st = OPEN)
                then [presence users] else []
            | None => []
            end).
Proof.
  intros Hinv%reachable_inv Htype Hswitch Htoken Hverify Herror
    roomId metadata st' users.
  pose proof (join_sequence st ws (a_userId authResult) roomId metadata Hinv)
    as Hjoin.
  assert (st' = exec (set_connection ws
                        {| c_ws := ws; c_userId := a_userId authResult;
                           c_roomId := roomId; c_metadata := metadata |} ;;
                      adapter_joinRoom roomId (a_userId authResult) metadata ;;
                      subscribeToRoom roomId ;;
                      users ← adapter_getUsers roomId;
                      broadcastToRoom roomId (presence users) None) st)
    as ->; [|done].
  subst st'. unfold on_message, handle_message. rewrite exec_bind.
  unfold get_connection at 1 2. simpl.
  by rewrite Htype, Hswitch, Htoken, Hverify, Herror.
Qed.

Lemma server_verified_join_binds_the_verified_identity_witness :
  let data := {| m_type := join_t; m_roomId := Some "r1";
                 m_position := None; m_isTyping := None;
                 m_token := Some "secret"; m_metadata := None;
                 m_event := None; m_data := None |} in
  let st := run (Some one_token) [Connection 1] initial in
  let st' := exec (on_message (Some one_token) 1 data "u1") st in
  oget 1%nat (connections st')
  = Some {| c_ws := 1; c_userId := "ann"; c_roomId := "r1";
            c_metadata := None |}
  ∧ is_Some (find_user "ann" (members "r1" st')).
Proof.
  intros data. cbv zeta.
  destruct (server_verified_join_binds_the_verified_identity one_token
              (run (Some one_token) [Connection 1] initial)
              1%nat data "secret"
              {| a_userId := "ann"; a_metadata := None; a_error := None |}
              "u1") as (Hbound & Hmember & _).
  - apply reachable_run, reachable_initial.
  - done.
  - by vm_compute.
  - done.
  - done.
  - done.
  - by split.
Defined.

(** What the four calls shared by the leave and the close handlers come
    to. *)
Lemma leave_sequence st roomId userId :
  inv st →
  let st' :=
    exec (adapter_leaveRoom roomId userId ;;
          unsubscribeFromRoom roomId ;;
          users ← adapter_getUsers roomId;
          broadcastToRoom roomId (presence users) None) st in
  connections st' = connections st
  ∧ sockets st' = sockets st
  ∧ MemoryAdapter.entry roomId userId (adapter st') = None
  ∧ roomSubscriptions st' !! roomId = None
  ∧ outbox st' = outbox st
  ∧ inv st'.
Proof.
  intros Hinv st'.
  set (st1 := exec (adapter_leaveRoom roomId userId) st).
  set (st2 := exec (unsubscribeFromRoom roomId) st1).
  set (st3 := exec (adapter_getUsers roomId) st2).
  assert (st' = exec (broadcastToRoom roomId (presence (members roomId st2))
                        None) st3) as Hst'.
  { subst st'. by rewrite !exec_bind. }
  assert (inv st1) as Hinv1 by (by apply preserves_adapter_leaveRoom).
  assert (inv st3) as Hinv3
    by (by apply preserves_adapter_getUsers, preserves_unsubscribeFromRoom).
  destruct (unsubscribeFromRoom_drops_subscriber st1 roomId Hinv1)
    as (Hnone & _ & Hc2). fold st2 in Hnone, Hc2.
  destruct (unsubscribeFromRoom_frame roomId st1) as (_ & Hr2 & Ho2 & Hs2).
  fold st2 in Hr2, Ho2, Hs2.
  assert (roomSubscriptions st3 !! roomId = None) as Hnone3 by done.
  pose proof (broadcast_unsubscribed st3 roomId (presence (members roomId st2))
                None Hinv3 Hnone3) as Hout.
  rewrite <- Hst' in Hout.
  assert (connections st' = connections st3 ∧ adapter st' = adapter st3
          ∧ roomSubscriptions st' = roomSubscriptions st3
          ∧ sockets st' = sockets st3)
    as (Hc' & Ha' & Hr' & Hs').
  { by rewrite Hst', exec_broadcastToRoom. }
  split_and!.
  - by rewrite Hc'.
  - by rewrite Hs'.
  - rewrite Ha'. unfold MemoryAdapter.entry. simpl. rewrite Hr2.
    apply (memory_leaveRoom_entry roomId userId (adapter st)).
  - by rewrite Hr'.
  - rewrite Hout. simpl. by rewrite Ho2.
  - rewrite Hst'. by apply preserves_broadcastToRoom.
Qed.

(** X18. A leave takes the identity out of its room and removes the callback
    of the room, but keeps the socket bound as it was: the socket is not
    turned away afterwards as one that has not joined. The presence that the
    handler broadcasts after unsubscribing reaches nobody: nothing is
    sent. *)
Theorem server_leave_keeps_the_binding auth st ws conn data uuid :
  reachable auth st →
  oget ws (connections st) = Some conn →
  m_type data = leave_t →
  let st' := exec (on_message auth ws data uuid) st in
  connections st' = connections st
  ∧ MemoryAdapter.entry (c_roomId conn) (c_userId conn) (adapter st') = None
  ∧ roomSubscriptions st' !! c_roomId conn = None
  ∧ outbox st' = outbox st.
Proof.
  intros Hinv%reachable_inv Hget Htype st'.
  destruct (leave_sequence st (c_roomId conn) (c_userId conn) Hinv)
    as (Hc & _ & He & Hr & Ho & _).
  assert (st' = exec (adapter_leaveRoom (c_roomId conn) (c_userId conn) ;;
                      unsubscribeFromRoom (c_roomId conn) ;;
                      users ← adapter_getUsers (c_roomId conn);
                      broadcastToRoom (c_roomId conn) (presence users) None)
                  st) as ->; [|done].
  subst st'. unfold on_message, handle_message. rewrite exec_bind.
  unfold get_connection at 1 2. simpl. by rewrite Hget, Htype.
Qed.

Lemma server_leave_keeps_the_binding_witness :
  let st' := exec (on_message None 1 (message_of leave_t) "") two_in_r1 in
  connections st' = connections two_in_r1
  ∧ MemoryAdapter.entry "r1" "u1" (adapter st') = None
  ∧ roomSubscriptions st' !! "r1" = None
  ∧ outbox st' = outbox two_in_r1.
Proof.
  apply (server_leave_keeps_the_binding None two_in_r1 1%nat
           {| c_ws := 1; c_userId := "u1"; c_roomId := "r1";
              c_metadata := None |} (message_of leave_t) "").
  - apply reachable_run, reachable_initial.
  - by vm_compute.
  - done.
Defined.

(** X19. When a bound socket closes, its binding is removed and no other
    binding changes, its identity is taken out of its room, the callback of
    the room is removed, and nothing is sent: the presence that the handler
    broadcasts after unsubscribing reaches nobody. *)
Theorem server_close_forgets_the_connection auth st ws conn :
  reachable auth st →
  oget ws (connections st) = Some conn →
  let st' := step auth (Close ws) st in
  oget ws (connections st') = None
  ∧ (∀ ws', ws' ≠ ws →
            oget ws' (connections st') = oget ws' (connections st))
  ∧ MemoryAdapter.entry (c_roomId conn) (c_userId conn) (adapter st') = None
  ∧ roomSubscriptions st' !! c_roomId conn = None
  ∧ outbox st' = outbox st.
Proof.
  intros Hinv%reachable_inv Hget st'.
  set (st0 := with_sockets (insert ws CLOSED) st).
  assert (inv st0) as Hinv0 by (by apply preserves_sockets).
  destruct (leave_sequence st0 (c_roomId conn) (c_userId conn) Hinv0)
    as (Hc & _ & He & Hr & Ho & _).
  set (st1 := exec (adapter_leaveRoom (c_roomId conn) (c_userId conn) ;;
                    unsubscribeFromRoom (c_roomId conn) ;;
                    users ← adapter_getUsers (c_roomId conn);
                    broadcastToRoom (c_roomId conn) (presence users) None)
                st0) in *.
  assert (st' = with_connections (odelete ws) st1) as ->.
  { subst st'. simpl. fold st0. unfold on_close. rewrite exec_bind.
    unfold get_connection at 1 2. simpl. rewrite Hget.
    subst st1. by rewrite !exec_bind. }
  simpl. rewrite Hc. simpl. split_and!; try done.
  - apply oget_odelete_eq.
  - intros ws' Hne. by apply oget_odelete_ne.
Qed.

Lemma server_close_forgets_the_connection_witness :
  let st' := step None (Close 1) two_in_r1 in
  oget 1%nat (connections st') = None
  ∧ (∀ ws', ws' ≠ 1%nat →
            oget ws' (connections st') = oget ws' (connections two_in_r1))
  ∧ MemoryAdapter.entry "r1" "u1" (adapter st') = None
  ∧ roomSubscriptions st' !! "r1" = None
  ∧ outbox st' = outbox two_in_r1.
Proof.
  apply (server_close_forgets_the_connection None two_in_r1 1%nat
           {| c_ws := 1; c_userId := "u1"; c_roomId := "r1";
              c_metadata := None |}).
  - apply reachable_run, reachable_initial.
  - by vm_compute.
Defined.

(** What the calls shared by the cursor and the typing handlers come to, for
    an identity that is a member of a subscribed room. *)
Lemma update_sequence st roomId userId user updates callback :
  inv st →
  MemoryAdapter.entry roomId userId (adapter st) = Some user →
  roomSubscriptions st !! roomId = Some callback →
  userId ≠ "" →
  p_id updates = None →
  let st' :=
    exec (adapter_updateUser roomId userId updates ;;
          users ← adapter_getUsers roomId;
          match find_user userId users with
          | Some user => broadcastToRoom roomId (update user) (Some userId)
          | None => mret tt
          end) st in
  MemoryAdapter.entry roomId userId (adapter st')
  = Some (assign user updates)
  ∧ connections st' = connections st
  ∧ roomSubscriptions st' = roomSubscriptions st
  ∧ (∀ ws',
       received ws' st'
       = received ws' st
         ++ match oget ws' (connections st) with
            | Some conn' =>
                if decide (c_roomId conn' = roomId
                           ∧ c_userId conn' ≠ userId
                           ∧ readyState ws' st = OPEN)
                then [update (assign user updates)] else []
            | None => []
            end).
Proof.
  intros Hinv Hentry Hsub Hne Hid st'.
  set (st1 := exec (adapter_updateUser roomId userId updates) st).
  set (st2 := exec (adapter_getUsers roomId) st1).
  assert (inv st1) as Hinv1 by (by apply preserves_adapter_updateUser).
  assert (inv st2) as Hinv2 by (by apply preserves_adapter_getUsers).
  assert (MemoryAdapter.entry roomId userId (adapter st1)
          = Some (assign user updates)) as Hentry1
    by (by apply memory_updateUser_entry).
  pose proof (find_user_present st1 roomId userId _ Hinv1 Hentry1) as Hfind.
  assert (st' = exec (broadcastToRoom roomId (update (assign user updates))
                        (Some userId)) st2) as Hst'.
  { subst st'. rewrite !exec_bind. fold st1.
    unfold adapter_getUsers at 1. simpl.
    unfold members, st1 in Hfind. simpl in Hfind. by rewrite Hfind. }
  assert (connections st' = connections st ∧ adapter st' = adapter st1
          ∧ roomSubscriptions st' = roomSubscriptions st)
    as (Hc' & Ha' & Hr').
  { by rewrite Hst', exec_broadcastToRoom. }
  split_and!; [by rewrite Ha' | done | done |].
  intros ws'.
  pose proof (broadcast_received st2 roomId callback
                (update (assign user updates)) (Some userId) ws' Hinv2 Hsub)
    as Hrecv.
  rewrite <- Hst' in Hrecv. rewrite Hrecv. simpl.
  destruct (decide (userId = "")); [done|].
  assert (received ws' st2 = received ws' st) as -> by done.
  f_equal. destruct (oget ws' (connections st)) as [conn'|]; [|done].
  assert (readyState ws' st2 = readyState ws' st) as -> by done.
  destruct (decide (c_roomId conn' = roomId ∧ c_userId conn' ≠ userId ∧ _))
    as [(? & ? & ?)|Hno].
  - rewrite decide_True; [done|]. split_and!; [done| |done]. congruence.
  - rewrite decide_False; [done|]. intros (? & Hx & ?). apply Hno.
    split_and!; [done| |done]. congruence.
Qed.

(** X20. A cursor message with a position, from a socket whose identity is a
    member of its room while the room is subscribed, stores the position in
    the entry of the identity and changes nothing else in it, keeps every
    binding, and sends the update with the stored entry once to every open
    socket bound to the room under another identity: the sender gets
    nothing, and neither does a socket of another room. *)
Theorem server_cursor_reaches_the_others
    auth st ws conn user data position uuid :
  reachable auth st →
  oget ws (connections st) = Some conn →
  MemoryAdapter.entry (c_roomId conn) (c_userId conn) (adapter st)
  = Some user →
  is_Some (roomSubscriptions st !! c_roomId conn) →
  c_userId conn ≠ "" →
  m_type data = cursor_t →
  m_position data = Some position →
  let st' := exec (on_message auth ws data uuid) st in
  let user' := {| u_id := u_id user; u_roomId := u_roomId user;
                  u_cursor := Some position; u_typing := u_typing user;
                  u_metadata := u_metadata user |} in
  MemoryAdapter.entry (c_roomId conn) (c_userId conn) (adapter st')
  = Some user'
  ∧ connections st' = connections st
  ∧ (∀ ws',
       received ws' st'
       = received ws' st
         ++ match oget ws' (connections st) with
            | Some conn' =>
                if decide (c_roomId conn' = c_roomId conn
                           ∧ c_userId conn' ≠ c_userId conn
                           ∧ readyState ws' st = OPEN)
                then [update user'] else []
            | None => []
            end).
Proof.
  intros Hinv%reachable_inv Hget Hentry [callback Hsub] Hne Htype Hposition st' user'.
  destruct (update_sequence st (c_roomId conn) (c_userId conn) user
              {| p_id := None; p_roomId := None;
                 p_cursor := Some (Some position); p_typing := None;
                 p_metadata := None |} callback Hinv Hentry Hsub Hne eq_refl)
    as (He & Hc & _ & Hrecv).
  assert (st' = exec (adapter_updateUser (c_roomId conn) (c_userId conn)
                        {| p_id := None; p_roomId := None;
                           p_cursor := Some (Some position); p_typing := None;
                           p_metadata := None |} ;;
                      users ← adapter_getUsers (c_roomId conn);
                      match find_user (c_userId conn) users with
                      | Some user =>
                          broadcastToRoom (c_roomId conn) (update user)
                            (Some (c_userId conn))
                      | None => mret tt
                      end) st) as ->; [|done].
  subst st'. unfold on_message, handle_message. rewrite exec_bind.
  unfold get_connection at 1 2. simpl. by rewrite Hget, Htype, Hposition.
Qed.

Lemma server_cursor_reaches_the_others_witness :
  let data := {| m_type := cursor_t; m_roomId := None;
                 m_position := Some {| px := 3; py := 4 |};
                 m_isTyping := None; m_token := None; m_metadata := None;
                 m_event := None; m_data := None |} in
  let st' := exec (on_message None 1 data "") two_in_r1 in
  let user' := {| u_id := "u1"; u_roomId := "r1";
                  u_cursor := Some {| px := 3; py := 4 |};
                  u_typing := false; u_metadata := None |} in
  MemoryAdapter.entry "r1" "u1" (adapter st') = Some user'
  ∧ received 1 st' = received 1 two_in_r1
  ∧ received 2 st' = received 2 two_in_r1 ++ [update user'].
Proof.
  intros data. cbv zeta.
  destruct (server_cursor_reaches_the_others None two_in_r1 1%nat
              {| c_ws := 1; c_userId := "u1"; c_roomId := "r1";
                 c_metadata := None |} (fresh_user "r1" "u1" None) data
              {| px := 3; py := 4 |} "") as (Hentry & _ & Hreceived).
  - apply reachable_run, reachable_initial.
  - by vm_compute.
  - by vm_compute.
  - vm_compute. by eexists.
  - done.
  - done.
  - done.
  - split_and!; [done|..].
    + rewrite (Hreceived 1%nat). by vm_compute.
    + rewrite (Hreceived 2%nat). by vm_compute.
Defined.

(** X21. A typing message with a boolean, from a socket whose identity is a
    member of its room while the room is subscribed, stores the flag in the
    entry of the identity and changes nothing else in it, keeps every
    binding, and sends the update with the stored entry once to every open
    socket bound to the room under another identity, and to no other
    socket. *)
Theorem server_typing_reaches_the_others
    auth st ws conn user data isTyping uuid :
  reachable auth st →
  oget ws (connections st) = Some conn →
  MemoryAdapter.entry (c_roomId conn) (c_userId conn) (adapter st)
  = Some user →
  is_Some (roomSubscriptions st !! c_roomId conn) →
  c_userId conn ≠ "" →
  m_type data = typing_t →
  m_isTyping data = Some isTyping →
  let st' := exec (on_message auth ws data uuid) st in
  let user' := {| u_id := u_id user; u_roomId := u_roomId user;
                  u_cursor := u_cursor user; u_typing := isTyping;
                  u_metadata := u_metadata user |} in
  MemoryAdapter.entry (c_roomId conn) (c_userId conn) (adapter st')
  = Some user'
  ∧ connections st' = connections st
  ∧ (∀ ws',
       received ws' st'
       = received ws' st
         ++ match oget ws' (connections st) with
            | Some conn' =>
                if decide (c_roomId conn' = c_roomId conn
                           ∧ c_userId conn' ≠ c_userId conn
                           ∧ readyState ws' st = OPEN)
                then [update user'] else []
            | None => []
            end).
Proof.
  intros Hinv%reachable_inv Hget Hentry [callback Hsub] Hne Htype HisTyping st' user'.
  destruct (update_sequence st (c_roomId conn) (c_userId conn) user
              {| p_id := None; p_roomId := None; p_cursor := None;
                 p_typing := Some isTyping; p_metadata := None |}
              callback Hinv Hentry Hsub Hne eq_refl)
    as (He & Hc & _ & Hrecv).
  assert (st' = exec (adapter_updateUser (c_roomId conn) (c_userId conn)
                        {| p_id := None; p_roomId := None; p_cursor := None;
                           p_typing := Some isTyping; p_metadata := None |} ;;
                      users ← adapter_getUsers (c_roomId conn);
                      match find_user (c_userId conn) users with
                      | Some user =>
                          broadcastToRoom (c_roomId conn) (update user)
                            (Some (c_userId conn))
                      | None => mret tt
                      end) st) as ->; [|done].
  subst st'. unfold on_message, handle_message. rewrite exec_bind.
  unfold get_connection at 1 2. simpl. by rewrite Hget, Htype, HisTyping.
Qed.

Lemma server_typing_reaches_the_others_witness :
  let data := {| m_type := typing_t; m_roomId := None; m_position := None;
                 m_isTyping := Some true; m_token := None;
                 m_metadata := None; m_event := None; m_data := None |} in
  let st' := exec (on_message None 2 data "") two_in_r1 in
  let user' := {| u_id := "u2"; u_roomId := "r1"; u_cursor := None;
                  u_typing := true; u_metadata := None |} in
  MemoryAdapter.entry "r1" "u2" (adapter st') = Some user'
  ∧ received 1 st' = received 1 two_in_r1 ++ [update user']
  ∧ received 2 st' = received 2 two_in_r1.
Proof.
  intros data. cbv zeta.
  destruct (server_typing_reaches_the_others None two_in_r1 2%nat
              {| c_ws := 2; c_userId := "u2"; c_roomId := "r1";
                 c_metadata := None |} (fresh_user "r1" "u2" None) data
              true "") as (Hentry & _ & Hreceived).
  - apply reachable_run, reachable_initial.
  - by vm_compute.
  - by vm_compute.
  - vm_compute. by eexists.
  - done.
  - done.
  - done.
  - split_and!; [done|..].
    + rewrite (Hreceived 1%nat). by vm_compute.
    + rewrite (Hreceived 2%nat). by vm_compute.
Defined.

(** X22. A custom message with a non-empty event name, from a bound socket
    whose room is subscribed, changes neither the store nor the bindings,
    and sends the event with its data and the entry of the sender (or, when
    the sender has no entry in the room, an entry made up from its binding)
    once to every open socket bound to the room under another identity, and
    to no other socket. *)
Theorem server_custom_event_reaches_the_others
    auth st ws conn data event uuid :
  reachable auth st →
  oget ws (connections st) = Some conn →
  is_Some (roomSubscriptions st !! c_roomId conn) →
  c_userId conn ≠ "" →
  m_type data = custom_t →
  truthy (m_event data) = Some event →
  let st' := exec (on_message auth ws data uuid) st in
  let user :=
    default {| u_id := c_userId conn; u_roomId := c_roomId conn;
               u_cursor := None; u_typing := false;
               u_metadata := c_metadata conn |}
      (MemoryAdapter.entry (c_roomId conn) (c_userId conn) (adapter st)) in
  adapter st' = adapter st
  ∧ connections st' = connections st
  ∧ (∀ ws',
       received ws' st'
       = received ws' st
         ++ match oget ws' (connections st) with
            | Some conn' =>
                if decide (c_roomId conn' = c_roomId conn
                           ∧ c_userId conn' ≠ c_userId conn
                           ∧ readyState ws' st = OPEN)
                then [custom event (m_data data) user] else []
            | None => []
            end).
Proof.
  intros Hinv%reachable_inv Hget [callback Hsub] Hne Htype Hevent st' user.
  set (st1 := exec (adapter_getUsers (c_roomId conn)) st).
  assert (inv st1) as Hinv1 by (by apply preserves_adapter_getUsers).
  assert (default {| u_id := c_userId conn; u_roomId := c_roomId conn;
                     u_cursor := None; u_typing := false;
                     u_metadata := c_metadata conn |}
            (find_user (c_userId conn) (members (c_roomId conn) st)) = user)
    as Huser.
  { subst user.
    destruct (MemoryAdapter.entry (c_roomId conn) (c_userId conn) (adapter st))
      as [u|] eqn:Hentry.
    - by rewrite (find_user_present st _ _ u Hinv Hentry).
    - by rewrite (find_user_absent st _ _ Hinv Hentry). }
  assert (st' = exec (broadcastToRoom (c_roomId conn)
                        (custom event (m_data data) user)
                        (Some (c_userId conn))) st1) as Hst'.
  { subst st'. unfold on_message, handle_message. rewrite exec_bind.
    unfold get_connection at 1 2. simpl. rewrite Hget, Htype, Hevent.
    rewrite exec_bind. unfold adapter_getUsers at 1.
    cbn [fst snd]. unfold members in Huser.
    change (exec (get_connection ws) st) with st. by rewrite Huser. }
  assert (connections st' = connections st ∧ adapter st' = adapter st)
    as (Hc' & Ha').
  { by rewrite Hst', exec_broadcastToRoom. }
  split_and!; [done..|].
  intros ws'.
  pose proof (broadcast_received st1 (c_roomId conn) callback
                (custom event (m_data data) user) (Some (c_userId conn)) ws'
                Hinv1 Hsub) as Hrecv.
  rewrite <- Hst' in Hrecv. rewrite Hrecv. simpl.
  destruct (decide (c_userId conn = "")); [done|].
  assert (received ws' st1 = received ws' st) as -> by done.
  f_equal. destruct (oget ws' (connections st)) as [conn'|]; [|done].
  assert (readyState ws' st1 = readyState ws' st) as -> by done.
  destruct (decide (c_roomId conn' = c_roomId conn
                    ∧ c_userId conn' ≠ c_userId conn ∧ _))
    as [(? & ? & ?)|Hno].
  - rewrite decide_True; [done|]. split_and!; [done| |done]. congruence.
  - rewrite decide_False; [done|]. intros (? & Hx & ?). apply Hno.
    split_and!; [done| |done]. congruence.
Qed.

Lemma server_custom_event_reaches_the_others_witness :
  let data := {| m_type := custom_t; m_roomId := None; m_position := None;
                 m_isTyping := None; m_token := None; m_metadata := None;
                 m_event := Some "wave"; m_data := Some "hello" |} in
  let st' := exec (on_message None 1 data "") two_in_r1 in
  received 1 st' = received 1 two_in_r1
  ∧ received 2 st'
    = received 2 two_in_r1
      ++ [custom "wave" (Some "hello") (fresh_user "r1" "u1" None)].
Proof.
  intros data. cbv zeta.
  destruct (server_custom_event_reaches_the_others None two_in_r1 1%nat
              {| c_ws := 1; c_userId := "u1"; c_roomId := "r1";
                 c_metadata := None |} data "wave" "")
    as (_ & _ & Hreceived).
  - apply reachable_run, reachable_initial.
  - by vm_compute.
  - vm_compute. by eexists.
  - done.
  - done.
  - done.
  - split.
    + rewrite (Hreceived 1%nat). by vm_compute.
    + rewrite (Hreceived 2%nat). by vm_compute.
Defined.
End ServerRooms.

(** ** The client session: its timers *)

Section ClientTimers.
Import Client.
Variable config : ClientConfig.
Implicit Types (st : State) (t : Timer).

Lemma NoDup_ids_filter (P : Timer → Prop) `{∀ t, Decision (P t)}
    (l : list Timer) :
  NoDup (map t_id l) → NoDup (map t_id (filter P l)).
Proof.
  induction l as [|t l IH]; simpl; [done|].
  intros [Hnotin Hnodup]%NoDup_cons. rewrite filter_cons.
  destruct (decide (P t)); [|by apply IH]. simpl. apply NoDup_cons.
  split; [|by apply IH]. intros (t' & Hid & Hin)%list_elem_of_fmap.
  apply list_elem_of_filter in Hin as [_ Hin]. apply Hnotin.
  apply list_elem_of_fmap. by exists t'.
Qed.

Lemma NoDup_ids_snoc (l : list Timer) t :
  NoDup (map t_id l) → (∀ t', t' ∈ l → t_id t' ≠ t_id t) →
  NoDup (map t_id (l ++ [t])).
Proof.
  intros Hnodup Hfresh. rewrite map_app. apply NoDup_app. split_and!.
  - done.
  - intros x (t' & -> & Hin)%list_elem_of_fmap
      [Heq|[]%elem_of_nil]%elem_of_cons.
    by apply (Hfresh t').
  - simpl. apply NoDup_singleton.
Qed.

Lemma NoDup_ids_inj (l : list Timer) t t' :
  NoDup (map t_id l) → t ∈ l → t' ∈ l → t_id t = t_id t' → t = t'.
Proof.
  induction l as [|t0 l IH]; simpl; [by intros _ ?%elem_of_nil|].
  intros [Hnotin Hnodup]%NoDup_cons [->|Hin]%elem_of_cons
    [->|Hin']%elem_of_cons Hid; [done|..].
  - destruct Hnotin. rewrite Hid. apply list_elem_of_fmap. by exists t'.
  - destruct Hnotin. rewrite <- Hid. apply list_elem_of_fmap. by exists t.
  - by apply IH.
Qed.

(** Decomposition of the membership in a list of timers. *)
Ltac members :=
  repeat match goal with
    | H : _ ∈ _ ++ _ |- _ => apply elem_of_app in H as [H|H]
    | H : _ ∈ filter _ _ |- _ => apply list_elem_of_filter in H as [? H]
    | H : _ ∈ [_] |- _ => apply list_elem_of_singleton in H; subst
    | H : _ ∈ [] |- _ => by apply elem_of_nil in H
    end.

(** What the invariant says of a timer that was pending. *)
Ltac old_timer :=
  match goal with
  | Hfresh : ∀ t, t ∈ ?tm → (t_id t < _)%nat,
    Hheld : ∀ t, t ∈ ?tm → holder _ _ = _,
    Hconnect : ∀ t, t ∈ ?tm → _ = do_connect → _,
    Hheartbeat : ∀ t, t ∈ ?tm → _ = do_heartbeat → _,
    Hrepeats : ∀ t, t ∈ ?tm → _ = true → _,
    Hin : ?t ∈ ?tm |- _ =>
      pose proof (Hfresh t Hin); pose proof (Hheld t Hin);
      pose proof (Hconnect t Hin); pose proof (Hheartbeat t Hin);
      pose proof (Hrepeats t Hin);
      unfold holder in *; destruct (t_action t) eqn:?; simpl in *;
      repeat match goal with
        | H : ?a = ?a → _ |- _ => specialize (H eq_refl)
        | H : ?P → _, H' : ?P |- _ => specialize (H H')
        end
  end.

Ltac timer_goal :=
  intros ? ?; members; simpl; intros; try old_timer; try done; congruence.

(** The invariant of a state given by its variables. *)
Ltac tidy_goal :=
  split; simpl;
  [ intros ? ?; members; simpl; rewrite ?length_app; simpl;
    try old_timer; lia
  | repeat first
      [ done
      | apply NoDup_ids_snoc; [|intros ? ?; members; simpl; old_timer; lia]
      | apply NoDup_ids_filter ]
  | timer_goal
  | timer_goal
  | timer_goal
  | timer_goal
  | try done; congruence
  | try done; lia ].

Lemma tidy_created : tidy config (createCollabClient config).
Proof.
  unfold createCollabClient, connect, setState. simpl.
  split; simpl; try done; try apply NoDup_nil_2;
    try (by intros ? ?%elem_of_nil); lia.
Qed.

Lemma tidy_onopen st now :
  tidy config st → ws st = Some CONNECTING →
  tidy config (onopen config now (set_ws (Some OPEN) st)).
Proof.
  intros [Hfresh Honce Hheld Hconnect Hheartbeat Hrepeats Hdropped Hattempts]
    Hws.
  destruct st as [w cur cs att rt ht lcu ctt pcp sr tm hist snt em].
  simpl in *. subst w.
  unfold onopen, startHeartbeat, stopHeartbeat, sendMessage, setState, emit.
  simpl. destruct (decide (cs ≠ connected)); simpl.
  all: destruct (decide (the_heartbeatInterval config > 0)); simpl.
  all: destruct ht as [h|]; simpl.
  all: tidy_goal.
Qed.

Lemma tidy_onclose st now :
  tidy config st → ws st ≠ Some CLOSED →
  tidy config
    (onclose config now
       (set_ws (match ws st with Some _ => Some CLOSED | None => None end)
          st)).
Proof.
  intros [Hfresh Honce Hheld Hconnect Hheartbeat Hrepeats Hdropped Hattempts]
    Hws.
  destruct st as [w cur cs att rt ht lcu ctt pcp sr tm hist snt em].
  simpl in *.
  unfold onclose, stopHeartbeat, setState, emit, clear_timer.
  simpl. destruct (decide (cs ≠ disconnected)); simpl.
  all: destruct ht as [h|]; simpl.
  all: destruct (decide (_ ∧ _ ∧ _)) as [(Hsr & Hen & Hlt)|_]; simpl.
  all: try destruct (decide (att >= _)); simpl.
  all: destruct w as [w|]; [|try by rewrite Hdropped in Hsr].
  all: tidy_goal.
Qed.

(** The handlers and methods that touch no timer and no socket. *)
Lemma tidy_frame st st' :
  timers st' = timers st → history st' = history st → ws st' = ws st →
  reconnectTimer st' = reconnectTimer st →
  heartbeatTimer st' = heartbeatTimer st →
  cursorThrottleTimer st' = cursorThrottleTimer st →
  shouldReconnect st' = shouldReconnect st →
  reconnectAttempts st' = reconnectAttempts st →
  tidy config st → tidy config st'.
Proof.
  intros Htm Hhist Hws Hrt Hht Hctt Hsr Hatt
    [Hfresh Honce Hheld Hconnect Hheartbeat Hrepeats Hdropped Hattempts].
  split; rewrite ?Htm, ?Hhist, ?Hws, ?Hsr, ?Hatt; try done.
  intros t Hin. specialize (Hheld t Hin). unfold holder in *.
  destruct (t_action t); congruence.
Qed.

Lemma tidy_sendMessage st now message :
  tidy config st → tidy config (sendMessage now message st).
Proof.
  unfold sendMessage. destruct (decide _); [|done]. by apply tidy_frame.
Qed.

Lemma tidy_emit st data : tidy config st → tidy config (emit data st).
Proof. by apply tidy_frame. Qed.

Lemma tidy_flushCursorUpdate st now :
  tidy config st → tidy config (flushCursorUpdate now st).
Proof.
  intros Htidy. unfold flushCursorUpdate.
  destruct (pendingCursorPosition st); [|done].
  by refine (tidy_frame _ _ _ _ _ _ _ _ _ _
               (tidy_sendMessage st now _ Htidy)).
Qed.

Lemma tidy_cursor st now position :
  tidy config st → tidy config (cursor config now position st).
Proof.
  intros Htidy. unfold cursor. destruct (decide _).
  - apply (tidy_frame (flushCursorUpdate now
                         (set_pendingCursorPosition (Some position) st)));
      try done.
    apply tidy_flushCursorUpdate. revert Htidy. by apply tidy_frame.
  - destruct Htidy
      as [Hfresh Honce Hheld Hconnect Hheartbeat Hrepeats Hdropped Hattempts].
    destruct st as [w cur cs att rt ht lcu ctt pcp sr tm hist snt em].
    simpl in *. destruct ctt as [h|]; simpl; tidy_goal.
Qed.

Lemma tidy_disconnect st : tidy config st → tidy config (disconnect st).
Proof.
  intros [Hfresh Honce Hheld Hconnect Hheartbeat Hrepeats Hdropped Hattempts].
  destruct st as [w cur cs att rt ht lcu ctt pcp sr tm hist snt em].
  simpl in *. unfold disconnect, stopHeartbeat, setState, emit, clear_timer.
  simpl. destruct ht as [h|]; simpl.
  all: destruct rt as [h'|]; simpl.
  all: destruct ctt as [h''|]; simpl.
  all: destruct (decide (cs ≠ disconnected)); simpl.
  all: tidy_goal.
Qed.

Lemma tidy_run_timer st now handle t :
  tidy config st →
  List.find (λ t, bool_decide (t_id t = handle)) (timers st) = Some t →
  let pending :=
    if t_repeats t then
      map (λ t', if decide (t_id t' = handle)
                 then {| t_id := handle; t_set := now; t_delay := t_delay t;
                         t_action := t_action t; t_repeats := true |}
                 else t') (timers st)
    else filter (λ t', t_id t' ≠ handle) (timers st) in
  tidy config (run_timer now (t_action t) (set_timers pending st)).
Proof.
  intros [Hfresh Honce Hheld Hconnect Hheartbeat Hrepeats Hdropped Hattempts]
    Hfind pending.
  apply find_some in Hfind as [Hin Hid%bool_decide_eq_true].
  apply list_elem_of_In in Hin.
  destruct (t_repeats t) eqn:Hrep.
  - pose proof (Hrepeats t Hin Hrep) as Haction. rewrite Haction.
    assert (∀ t', t' ∈ pending → ∃ t0, t0 ∈ timers st ∧ t_id t' = t_id t0
                                   ∧ t_action t' = t_action t0
                                   ∧ t_repeats t' = t_repeats t0) as Hsame.
    { intros t' (t0 & -> & Hin0)%list_elem_of_fmap. exists t0.
      split; [done|]. destruct (decide (t_id t0 = handle)) as [Heq|]; [|done].
      assert (t0 = t) as -> by (apply (NoDup_ids_inj (timers st)); congruence).
      simpl. by rewrite Hid, Haction, Hrep. }
    assert (map t_id pending = map t_id (timers st)) as Hids.
    { subst pending. rewrite map_map. apply map_ext. intros t0.
      by destruct (decide _). }
    unfold run_timer.
    assert (tidy config (set_timers pending st)) as Htidy.
    { split; simpl; try done.
      - intros t' (t0 & Hin0 & -> & _)%Hsame. by apply Hfresh.
      - by rewrite Hids.
      - intros t' (t0 & Hin0 & Hi & Ha & _)%Hsame. rewrite Hi, Ha.
        specialize (Hheld t0 Hin0). unfold holder in *.
        by destruct (t_action t0).
      - intros t' (t0 & Hin0 & _ & Ha & _)%Hsame. rewrite Ha.
        by apply Hconnect.
      - intros t' (t0 & Hin0 & _ & Ha & _)%Hsame. rewrite Ha.
        by apply Hheartbeat.
      - intros t' (t0 & Hin0 & _ & Ha & Hr)%Hsame. rewrite Ha, Hr.
        by apply Hrepeats. }
    destruct (decide _); [|done]. by apply tidy_sendMessage.
  - subst pending.
    pose proof (Hheld t Hin) as Hholder. pose proof (Hconnect t Hin) as Hclosed.
    assert (tidy config
              (set_timers (filter (λ t', t_id t' ≠ handle) (timers st)) st))
      as Htidy.
    { destruct st as [w cur cs att rt ht lcu ctt pcp sr tm hist snt em].
      simpl in *. tidy_goal. }
    unfold run_timer. destruct (t_action t) eqn:Haction.
    + specialize (Hclosed eq_refl). unfold connect. simpl. rewrite Hclosed.
      destruct (decide _) as [[|]|_]; [done..|].
      destruct st as [w cur cs att rt ht lcu ctt pcp sr tm hist snt em].
      simpl in *. subst w rt. unfold setState. simpl.
      destruct (decide (att > 0)); destruct (decide (cs ≠ _)); simpl.
      all: tidy_goal.
    + destruct (decide _); [|done]. by apply tidy_sendMessage.
    + by apply tidy_flushCursorUpdate.
Qed.

Lemma tidy_step st now ev st' :
  tidy config st → possible ev st → step config now ev st = Some st' →
  tidy config st'.
Proof.
  intros Htidy Hpossible Hstep. destruct ev; simpl in *.
  - injection Hstep as <-. by apply tidy_onopen.
  - injection Hstep as <-. by apply tidy_onclose.
  - injection Hstep as <-. by apply tidy_emit.
  - injection Hstep as <-. unfold onmessage.
    destruct (s_type data);
      auto using tidy_emit, tidy_sendMessage.
  - destruct (List.find _ _) as [t|] eqn:Hfind; [|done].
    destruct (decide _); [|done]. injection Hstep as <-.
    by apply tidy_run_timer.
  - injection Hstep as <-. by apply tidy_cursor.
  - injection Hstep as <-. by apply tidy_sendMessage.
  - injection Hstep as <-. by apply tidy_sendMessage.
  - injection Hstep as <-. apply tidy_sendMessage. revert Htidy.
    by apply tidy_frame.
  - injection Hstep as <-. by apply tidy_sendMessage.
  - injection Hstep as <-. by apply tidy_disconnect.
Qed.

Lemma later_tidy st0 st :
  tidy config st0 → later config st0 st → tidy config st.
Proof.
  intros Htidy Hlater. induction Hlater; [done|]. by eapply tidy_step.
Qed.

Lemma session_tidy st : session config st → tidy config st.
Proof. apply later_tidy, tidy_created. Qed.

Lemma later_trans st0 st1 st2 :
  later config st0 st1 → later config st1 st2 → later config st0 st2.
Proof.
  intros H01 H12. induction H12; [done|]. by eapply later_step.
Qed.

Lemma NoDup_all_equal (l : list nat) (a : nat) :
  NoDup l → (∀ x, x ∈ l → x = a) → (length l ≤ 1)%nat.
Proof.
  destruct l as [|x [|y l]]; simpl; [lia..|].
  intros [Hnotin _]%NoDup_cons Hall. destruct Hnotin.
  rewrite (Hall x), (Hall y); [apply list_elem_of_here|..].
  - apply list_elem_of_further, list_elem_of_here.
  - apply list_elem_of_here.
Qed.

(** X23. Whatever happens to a session, at most one timer of each kind
    (reconnection, heartbeat, cursor flush) is pending, and it is the one
    whose handle the session holds in the variable of that kind; a
    reconnection is pending only while the socket is closed, and the
    heartbeat runs only while the socket is open. *)
Theorem client_one_pending_timer_of_each_kind st :
  session config st →
  (∀ action,
     (length (filter (λ t, t_action t = action) (timers st)) ≤ 1)%nat)
  ∧ (∀ t, t ∈ timers st → holder (t_action t) st = Some (t_id t))
  ∧ (∀ t, t ∈ timers st → t_action t = do_connect → ws st = Some CLOSED)
  ∧ (∀ t, t ∈ timers st → t_action t = do_heartbeat → ws st = Some OPEN).
Proof.
  intros [Hfresh Honce Hheld Hconnect Hheartbeat _ _ _]%session_tidy.
  split_and!; try done.
  intros action.
  rewrite <- (length_map t_id).
  destruct (holder action st) as [h|] eqn:Hholder.
  - apply (NoDup_all_equal _ h); [by apply NoDup_ids_filter|].
    intros x (t & -> & [Haction Hin]%list_elem_of_filter)%list_elem_of_fmap.
    specialize (Hheld t Hin). rewrite Haction, Hholder in Hheld. congruence.
  - assert (filter (λ t, t_action t = action) (timers st) = []) as ->;
      [|simpl; lia].
    apply elem_of_nil_inv. intros t [Haction Hin]%list_elem_of_filter.
    specialize (Hheld t Hin). rewrite Haction, Hholder in Hheld. congruence.
Qed.

(** What [disconnect()] leaves of a session whose timers are in order. *)
Lemma disconnect_drops st :
  tidy config st →
  let st' := disconnect st in
  timers st' = [] ∧ ws st' = None ∧ shouldReconnect st' = false
  ∧ connectionState st' = disconnected ∧ sent st' = sent st.
Proof.
  intros [_ _ Hheld _ _ _ _ _] st'.
  assert (timers st' = [] ∧ ws st' = None ∧ shouldReconnect st' = false
          ∧ connectionState st' = disconnected ∧ sent st' = sent st)
    as Hgoal; [|done].
  subst st'.
  destruct st as [w cur cs att rt ht lcu ctt pcp sr tm hist snt em].
  simpl in *. unfold disconnect, stopHeartbeat, setState, emit, clear_timer.
  simpl. destruct ht as [h|]; simpl.
  all: destruct rt as [h'|]; simpl.
  all: destruct ctt as [h''|]; simpl.
  all: destruct (decide (cs ≠ disconnected)) as [|?%dec_stable]; simpl.
  all: split_and!; try done.
  all: apply elem_of_nil_inv; intros t Hin; members.
  all: specialize (Hheld t Hin); unfold holder in Hheld.
  all: destruct (t_action t); simpl in *; congruence.
Qed.

(** X24. [disconnect()] leaves no timer pending, whatever the session has
    gone through: the heartbeat, a reconnection that was scheduled and a
    cursor flush that was deferred are all cancelled. It drops the socket,
    switches reconnection off, and sends nothing. *)
Theorem client_disconnect_cancels_every_timer st :
  session config st →
  let st' := disconnect st in
  timers st' = [] ∧ ws st' = None ∧ shouldReconnect st' = false
  ∧ connectionState st' = disconnected ∧ sent st' = sent st.
Proof. intros Htidy%session_tidy. by apply disconnect_drops. Qed.

(** A session that has been disconnected stays so. *)
Lemma dropped_step st now ev st' :
  ws st = None → shouldReconnect st = false →
  connectionState st = disconnected →
  (∀ t, t ∈ timers st → t_action t = do_flushCursorUpdate) →
  possible ev st → step config now ev st = Some st' →
  ws st' = None ∧ shouldReconnect st' = false
  ∧ connectionState st' = disconnected
  ∧ (∀ t, t ∈ timers st' → t_action t = do_flushCursorUpdate)
  ∧ sent st' = sent st
  ∧ reconnect_delays st' = reconnect_delays st.
Proof.
  intros Hws Hsr Hcs Hflush Hpossible Hstep.
  destruct st as [w cur cs att rt ht lcu ctt pcp sr tm hist snt em].
  simpl in *. subst w sr cs.
  destruct ev; simpl in *; try done.
  - injection Hstep as <-.
    unfold onclose, stopHeartbeat, setState, emit, clear_timer. simpl.
    destruct ht as [h|]; simpl.
    all: destruct (decide (att >= _)); simpl.
    all: split_and!; try done.
    all: intros t Hin; members; by apply Hflush.
  - by injection Hstep as <-.
  - injection Hstep as <-. unfold onmessage. by destruct (s_type data).
  - destruct (List.find _ _) as [t|] eqn:Hfind; [|done].
    destruct (decide _); [|done]. injection Hstep as <-.
    apply find_some in Hfind as [Hin%list_elem_of_In _].
    rewrite (Hflush t Hin). unfold run_timer, flushCursorUpdate. simpl.
    assert (∀ t', t' ∈ (if t_repeats t
                        then map (λ t', if decide (t_id t' = handle)
                                        then {| t_id := handle; t_set := now;
                                                t_delay := t_delay t;
                                                t_action :=
                                                  do_flushCursorUpdate;
                                                t_repeats := true |}
                                        else t') tm
                        else filter (λ t', t_id t' ≠ handle) tm) →
                 t_action t' = do_flushCursorUpdate) as Hflush'.
    { intros t'. destruct (t_repeats t).
      - intros (t0 & -> & Hin0)%list_elem_of_fmap.
        destruct (decide _); simpl; [done | by apply Hflush].
      - intros [_ Hin']%list_elem_of_filter. by apply Hflush. }
    by destruct pcp.
  - injection Hstep as <-. unfold cursor, flushCursorUpdate, clear_timer.
    simpl. destruct (decide _); simpl; [done|].
    destruct ctt as [h|]; simpl.
    all: unfold reconnect_delays; simpl.
    all: rewrite filter_app, filter_cons_False, filter_nil, app_nil_r by done.
    all: split_and!; try done.
    all: intros t Hin; members; try done; by apply Hflush.
  - by injection Hstep as <-.
  - by injection Hstep as <-.
  - by injection Hstep as <-.
  - by injection Hstep as <-.
  - injection Hstep as <-.
    unfold disconnect, stopHeartbeat, setState, emit, clear_timer. simpl.
    destruct ht as [h|]; simpl.
    all: destruct rt as [h'|]; simpl.
    all: destruct ctt as [h''|]; simpl.
    all: split_and!; try done.
    all: intros t Hin; members; by apply Hflush.
Qed.

(** X25. [disconnect()] is final: whatever happens afterwards, the dropped
    socket closing, timers running or methods being called, the session
    stays without socket and disconnected, sends nothing more, and never
    schedules a reconnection. *)
Theorem client_disconnect_is_final st st' :
  session config st →
  later config (disconnect st) st' →
  ws st' = None ∧ connectionState st' = disconnected
  ∧ sent st' = sent st
  ∧ reconnect_delays st' = reconnect_delays st
  ∧ (∀ t, t ∈ timers st' → t_action t = do_flushCursorUpdate).
Proof.
  intros Hsession Hlater.
  destruct (disconnect_drops st (session_tidy st Hsession))
    as (Htimers & Hws & Hsr & Hcs & Hsent).
  assert (reconnect_delays (disconnect st) = reconnect_delays st) as Hdelays.
  { unfold reconnect_delays, disconnect, stopHeartbeat, setState.
    destruct st as [w cur cs att rt ht lcu ctt pcp sr tm hist snt em].
    simpl. destruct ht, rt, ctt; simpl; by destruct (decide _). }
  rewrite <- Hsent, <- Hdelays.
  assert (ws st' = None ∧ shouldReconnect st' = false
          ∧ connectionState st' = disconnected
          ∧ (∀ t, t ∈ timers st' → t_action t = do_flushCursorUpdate)
          ∧ sent st' = sent (disconnect st)
          ∧ reconnect_delays st' = reconnect_delays (disconnect st))
    as (? & ? & ? & ? & ? & ?); [|done].
  induction Hlater as [|st1 now ev st2 Hlater IH Hpossible Hstep].
  - split_and!; try done. rewrite Htimers. by intros t ?%elem_of_nil.
  - destruct IH as (Hws1 & Hsr1 & Hcs1 & Hflush1 & Hsent1 & Hdelays1).
    destruct (dropped_step st1 now ev st2 Hws1 Hsr1 Hcs1 Hflush1 Hpossible
                Hstep) as (? & ? & ? & ? & Hsent2 & Hdelays2).
    split_and!; try done; congruence.
Qed.

(** X26. A session never counts more reconnection attempts than
    [maxRetries] allows: the counter stays between 0 and [maxRetries]
    (between 0 and 0 when [maxRetries] is negative). *)
Theorem client_attempts_stay_within_maxRetries st :
  session config st →
  0 <= reconnectAttempts st
  <= Z.max 0 (default 10 (maxRetries (the_reconnect config))).
Proof. by intros [_ _ _ _ _ _ _ Hattempts]%session_tidy. Qed.

(** X27. With reconnection switched off ([reconnect: false], or
    [enabled: false]), a session never schedules a reconnection and never
    counts an attempt, however often its socket closes. *)
Theorem client_without_reconnect_never_schedules st :
  enabled (the_reconnect config) ≠ Some true →
  session config st →
  reconnect_delays st = [] ∧ reconnectAttempts st = 0
  ∧ (∀ t, t ∈ timers st → t_action t ≠ do_connect).
Proof.
  intros Hoff Hsession.
  assert ((∀ t, t ∈ history st → t_action t ≠ do_connect)
          ∧ reconnectAttempts st = 0
          ∧ (∀ t, t ∈ timers st → t_action t ≠ do_connect))
    as (Hhistory & Hattempts & Htimers).
  { induction Hsession as [|st now ev st' _ IH _ Hstep].
    { split_and!; [|done|]; by intros t ?%elem_of_nil. }
    destruct IH as (Hhistory & Hattempts & Htimers).
    destruct st as [w cur cs att rt ht lcu ctt pcp sr tm hist snt em].
    simpl in *. subst att.
    destruct ev; simpl in *.
    - injection Hstep as <-.
      unfold onopen, startHeartbeat, stopHeartbeat, sendMessage, setState,
        emit. simpl.
      destruct (decide (cs ≠ connected)); simpl.
      all: destruct (decide (the_heartbeatInterval config > 0)); simpl.
      all: destruct ht as [h|]; simpl.
      all: split_and!; try done.
      all: intros t Hin; members; try done; first [by apply Hhistory | by apply Htimers].
    - injection Hstep as <-.
      unfold onclose, stopHeartbeat, setState, emit, clear_timer. simpl.
      destruct (decide (cs ≠ disconnected)); simpl.
      all: destruct ht as [h|]; simpl.
      all: destruct (decide (_ ∧ _ ∧ _)) as [(_ & Hon & _)|_]; [done|].
      all: destruct (decide (0 >= _)); simpl.
      all: split_and!; try done.
      all: intros t Hin; members; try done; first [by apply Hhistory | by apply Htimers].
    - by injection Hstep as <-.
    - injection Hstep as <-. unfold onmessage, sendMessage.
      destruct (s_type data); simpl; try done.
      by destruct (decide _).
    - destruct (List.find _ _) as [t|] eqn:Hfind; [|done].
      destruct (decide _); [|done]. injection Hstep as <-.
      apply find_some in Hfind as [Hin%list_elem_of_In _].
      pose proof (Htimers t Hin) as Haction.
      assert (∀ t', t' ∈ (if t_repeats t
                          then map (λ t', if decide (t_id t' = handle)
                                          then {| t_id := handle;
                                                  t_set := now;
                                                  t_delay := t_delay t;
                                                  t_action := t_action t;
                                                  t_repeats := true |}
                                          else t') tm
                          else filter (λ t', t_id t' ≠ handle) tm) →
                   t_action t' ≠ do_connect) as Htimers'.
      { intros t'. destruct (t_repeats t).
        - intros (t0 & -> & Hin0)%list_elem_of_fmap.
          destruct (decide _); simpl; [done | by apply Htimers].
        - intros [_ Hin']%list_elem_of_filter. by apply Htimers. }
      unfold run_timer, flushCursorUpdate, sendMessage.
      destruct (t_action t); simpl; [done|..].
      + by repeat destruct (decide _).
      + destruct pcp; simpl; [|done]. by destruct (decide _).
    - injection Hstep as <-.
      unfold cursor, flushCursorUpdate, sendMessage, clear_timer.
      simpl. destruct (decide (_ >= _)); simpl.
      + by destruct (decide _).
      + destruct ctt as [h|]; simpl.
        all: split_and!; try done.
        all: intros t Hin; members; try done;
          first [by apply Hhistory | by apply Htimers].
    - injection Hstep as <-. unfold typing, sendMessage.
      by destruct (decide _).
    - injection Hstep as <-. unfold send, sendMessage.
      by destruct (decide _).
    - injection Hstep as <-. unfold joinRoom, sendMessage. simpl.
      by destruct (decide _).
    - injection Hstep as <-. unfold leaveRoom, sendMessage.
      by destruct (decide _).
    - injection Hstep as <-.
      unfold disconnect, stopHeartbeat, setState, emit, clear_timer. simpl.
      destruct ht as [h|]; simpl.
      all: destruct rt as [h'|]; simpl.
      all: destruct ctt as [h''|]; simpl.
      all: destruct (decide (cs ≠ disconnected)); simpl.
      all: split_and!; try done.
      all: intros t Hin; members; by apply Htimers. }
  split_and!; [|done..]. unfold reconnect_delays.
  assert (filter (λ t, t_action t = do_connect) (history st) = []) as ->;
    [|done].
  apply elem_of_nil_inv. intros t [Haction Hin]%list_elem_of_filter.
  by apply (Hhistory t).
Qed.

Lemma startHeartbeat_sent st now :
  sent (startHeartbeat config now st) = sent st.
Proof.
  unfold startHeartbeat, stopHeartbeat. destruct (decide _); [|done].
  by destruct (heartbeatTimer st).
Qed.

(** X28. A room change made while the socket is not open is not lost:
    [joinRoom] then sends nothing, and when the socket opens the session
    joins the room that was asked for last, with the token and the metadata
    of its configuration. *)
Theorem client_room_change_is_joined_at_the_next_open st now now'
    newRoomId :
  ws st ≠ Some OPEN →
  let st1 := joinRoom now newRoomId st in
  sent st1 = sent st
  ∧ ∃ st2,
      step config now' Opened st1 = Some st2
      ∧ sent st2
        = sent st
          ++ [(now', {| m_type := join_t; m_roomId := Some newRoomId;
                        m_position := None; m_isTyping := None;
                        m_token := truthy (token config);
                        m_metadata := metadata config; m_event := None;
                        m_data := None |})].
Proof.
  intros Hws st1.
  assert (st1 = set_currentRoomId newRoomId st) as ->.
  { subst st1. unfold joinRoom, sendMessage. simpl.
    by rewrite decide_False. }
  split; [done|]. eexists. split; [done|].
  unfold onopen. rewrite startHeartbeat_sent.
  unfold sendMessage, setState, emit. simpl.
  by destruct (decide (connectionState st ≠ connected)).
Qed.

(** X29. With a delay that is not negative and a factor of at least one,
    the delay before a reconnection never gets shorter from one attempt to
    the next, and never exceeds [maxDelay]. *)
Theorem client_reconnect_delay_grows_to_the_cap attempts :
  0 <= attempts →
  0 <= default 1000 (initialDelay (the_reconnect config)) →
  1 <= default 2 (backoffFactor (the_reconnect config)) →
  reconnect_delay config attempts <= reconnect_delay config (attempts + 1)
  ∧ reconnect_delay config attempts
    <= default 30000 (maxDelay (the_reconnect config)).
Proof.
  intros Hattempts Hdelay Hfactor. unfold reconnect_delay.
  split; [|apply Z.le_min_r].
  apply Z.min_le_compat_r. rewrite Z.pow_add_r by lia.
  rewrite Z.pow_1_r.
  assert (0 < default 2 (backoffFactor (the_reconnect config)) ^ attempts)
    by (apply Z.pow_pos_nonneg; lia).
  nia.
Qed.
(** X30. The state that [getState()] reports follows the events of the
    socket, whatever happens to the session: connected once the socket has
    opened, disconnected once it has closed or has been dropped, and, while
    a socket has not opened yet, connecting for a first connection and
    reconnecting once an attempt has been counted. *)
Theorem client_state_tells_the_socket st :
  session config st →
  match ws st with
  | Some OPEN => connectionState st = connected
  | Some CONNECTING =>
      connectionState st
      = if decide (reconnectAttempts st > 0) then reconnecting
        else connecting
  | Some CLOSING => True
  | Some CLOSED | None => connectionState st = disconnected
  end.
Proof.
  intros Hsession.
  induction Hsession as [|st now ev st' _ IH _ Hstep]; [done|].
  destruct st as [w cur cs att rt ht lcu ctt pcp sr tm hist snt em].
  simpl in *. destruct ev; simpl in *.
  all: try (injection Hstep as <-).
  all: try (unfold typing, send, joinRoom, leaveRoom, onmessage, cursor,
              flushCursorUpdate, sendMessage, clear_timer;
            (try destruct (s_type data)); destruct w as [[]|]; simpl;
            (try done); repeat (destruct (decide _); simpl; try done);
            (try by destruct pcp); by destruct ctt).
  - unfold onopen, startHeartbeat, stopHeartbeat, sendMessage, setState,
      emit. simpl.
    destruct (decide (cs ≠ connected)) as [|?%dec_stable]; simpl.
    all: destruct (decide (the_heartbeatInterval config > 0)); simpl.
    all: by destruct ht.
  - unfold onclose, stopHeartbeat, setState, emit, clear_timer. simpl.
    destruct (decide (cs ≠ disconnected)) as [|?%dec_stable]; simpl.
    all: destruct ht as [h|]; simpl.
    all: destruct (decide (_ ∧ _ ∧ _)); simpl.
    all: try destruct (decide (att >= _)); simpl.
    all: by destruct w.
  - destruct (List.find _ _) as [t|] eqn:Hfind; [|done].
    destruct (decide _); [|done]. injection Hstep as <-.
    unfold run_timer, connect, flushCursorUpdate, sendMessage, setState.
    simpl. destruct (t_action t); simpl.
    + destruct (decide (_ ∨ _)) as [[->| ->]|Hnot]; simpl; [done..|].
      destruct (decide (att > 0)); simpl.
      all: destruct (decide (cs ≠ _)) as [|?%dec_stable]; simpl.
      all: by destruct (decide _).
    + by destruct w as [[]|].
    + by destruct pcp, w as [[]|].
  - unfold disconnect, stopHeartbeat, setState, emit, clear_timer. simpl.
    destruct ht as [h|]; simpl.
    all: destruct rt as [h'|]; simpl.
    all: destruct ctt as [h''|]; simpl.
    all: by destruct (decide (cs ≠ disconnected)) as [|?%dec_stable].
Qed.
End ClientTimers.

Lemma opened_session_is_a_session :
  session example_config opened_session.
Proof.
  by apply (later_step _ _ (Client.createCollabClient example_config) 1000
              Client.Opened); [apply later_now|..].
Qed.

Lemma client_one_pending_timer_of_each_kind_witness :
  (∀ action,
     (length (filter (λ t, Client.t_action t = action)
                (Client.timers opened_session)) ≤ 1)%nat)
  ∧ (∀ t, t ∈ Client.timers opened_session →
          holder (Client.t_action t) opened_session = Some (Client.t_id t))
  ∧ (∀ t, t ∈ Client.timers opened_session →
          Client.t_action t = Client.do_connect →
          Client.ws opened_session = Some CLOSED)
  ∧ (∀ t, t ∈ Client.timers opened_session →
          Client.t_action t = Client.do_heartbeat →
          Client.ws opened_session = Some OPEN).
Proof.
  apply (client_one_pending_timer_of_each_kind example_config),
    opened_session_is_a_session.
Defined.

Lemma client_disconnect_cancels_every_timer_witness :
  Client.timers opened_session ≠ []
  ∧ Client.timers (Client.disconnect opened_session) = [].
Proof.
  split; [done|].
  by destruct (client_disconnect_cancels_every_timer example_config
                 opened_session opened_session_is_a_session) as (Hnone & _).
Defined.

Lemma client_disconnect_is_final_witness :
  let st' :=
    Client.typing 2010 true
      (Client.onclose example_config 2000
         (Client.disconnect opened_session)) in
  Client.ws st' = None ∧ Client.sent st' = Client.sent opened_session.
Proof.
  intros st'.
  destruct (client_disconnect_is_final example_config opened_session st'
              opened_session_is_a_session) as (Hws & _ & Hsent & _);
    [|exact (conj Hws Hsent)].
  apply (later_step _ _
           (Client.onclose example_config 2000
              (Client.disconnect opened_session))
           2010 (Client.CallTyping true));
    [|exact I|by vm_compute].
  apply (later_step _ _ (Client.disconnect opened_session) 2000
           Client.Closed); [apply later_now|by vm_compute..].
Defined.

Lemma client_attempts_stay_within_maxRetries_witness :
  0 <= Client.reconnectAttempts opened_session <= 10.
Proof.
  apply (client_attempts_stay_within_maxRetries example_config),
    opened_session_is_a_session.
Defined.

Lemma client_without_reconnect_never_schedules_witness :
  let st := Client.onclose single_connection 100
              (Client.set_ws (Some CLOSED)
                 (Client.createCollabClient single_connection)) in
  Client.reconnect_delays st = [] ∧ Client.reconnectAttempts st = 0
  ∧ (∀ t, t ∈ Client.timers st → Client.t_action t ≠ Client.do_connect).
Proof.
  apply (client_without_reconnect_never_schedules single_connection);
    [by vm_compute|].
  apply (later_step _ _ (Client.createCollabClient single_connection) 100
           Client.Closed); [apply later_now|by vm_compute|reflexivity].
Defined.

Lemma client_room_change_is_joined_at_the_next_open_witness :
  let st := Client.createCollabClient example_config in
  let st1 := Client.joinRoom 10 "r2" st in
  Client.sent st1 = Client.sent st
  ∧ ∃ st2,
      Client.step example_config 20 Client.Opened st1 = Some st2
      ∧ Client.sent st2
        = Client.sent st
          ++ [(20, {| m_type := join_t; m_roomId := Some "r2";
                      m_position := None; m_isTyping := None;
                      m_token := None; m_metadata := None; m_event := None;
                      m_data := None |})].
Proof.
  apply (client_room_change_is_joined_at_the_next_open example_config
           (Client.createCollabClient example_config) 10 20 "r2").
  by vm_compute.
Defined.

Lemma client_reconnect_delay_grows_to_the_cap_witness :
  Client.reconnect_delay example_config 4
  <= Client.reconnect_delay example_config 5
  ∧ Client.reconnect_delay example_config 4 <= 30000.
Proof.
  apply (client_reconnect_delay_grows_to_the_cap example_config 4);
    by vm_compute.
Defined.

Lemma client_state_tells_the_socket_witness :
  Client.connectionState opened_session = Client.connected.
Proof.
  apply (client_state_tells_the_socket example_config opened_session),
    opened_session_is_a_session.
Defined.
